(** * A permissioned ledger node: hashing, storage, admission, block
      production, block validation and chain synchronization.

    Shallow embedding of [db.js], [routes/blocks.js], [routes/transactions.js],
    [routes/network.js] and the start of the server in [index.js].

    Conventions of the embedding.
    - JavaScript strings are byte strings ([string]), the UTF-8 bytes the
      digest and the database see; [crypto]'s [update(s).digest('hex')] is
      the function [sha256] below, computed on those bytes.
    - A request body is a JavaScript object whose fields may be missing.  Text
      fields range over the JSON primitives ([jsval]); the numeric fields
      ([blockIndex], [nonce], the four measurements) are either missing or an
      integer ([option Z]); [transactions] is either missing or an array of
      objects.  Numbers are integers of absolute value below 10^15: there
      JavaScript's arithmetic is exact and its printing is the decimal one,
      and SQLite writes a double as its digits followed by [.0].  The
      statements on the admission of a transaction carry this bound as a
      hypothesis ([small]).
    - The database is open (the [if (!db)] branches are left out).  The
      SQLite file is a record of three tables in insertion order together
      with the constraints the schema of [initDb] declares (NOT NULL, UNIQUE),
      checked in SQLite's order: NOT NULL first, UNIQUE after.  Values bound
      to a statement follow the driver and the affinity of the column:
      [undefined] and [null] bind NULL, a number or a boolean bound to a TEXT
      column is stored in text form (a number that is not an int32 is bound
      as a double).
    - The confirmed INSERTs of one commit are started together and SQLite
      completes them in an order that the source does not fix and that no
      statement of the source reads.  The table keeps the rows of one commit
      in the order of the block's list; what is stated of them is stated up
      to a permutation.
    - What a call reads from its environment is an argument of its model:
      the result of [uuidv4()], the time of [new Date().toISOString()], the
      answers of the peers.
    - Promises are run to completion one after the other; a rejected promise
      or a thrown exception is the [Throw] case of [result].
    - The addresses in the bodies of the registration requests are strings:
      [newNodeUrl] is a string or missing, [allNetworkNodes] is an array of
      strings or not an array. *)

From Stdlib Require Import String Ascii.
From Stdlib Require Import ZArith List Bool Lia.
From Stdlib Require Import Sorting.Sorted Sorting.Permutation.
From Stdlib Require Import DecimalString.
Import ListNotations.

Local Open Scope string_scope.
Local Open Scope list_scope.
Local Open Scope Z_scope.

(** String concatenation, JavaScript's [+] on two strings. *)
Local Infix "+++" := String.append (right associativity, at level 60).

(* ================================================================== *)
(** ** SHA-256 (FIPS 180-4) on byte strings, hex encoded *)
(* ================================================================== *)

Module Sha256.

Definition wmod : Z := 2 ^ 32.

Definition add32 (x y : Z) : Z := (x + y) mod wmod.

Definition rotr (n x : Z) : Z :=
  Z.lor (Z.shiftr x n) ((Z.shiftl x (32 - n)) mod wmod).

Definition not32 (x : Z) : Z := Z.lxor x (wmod - 1).

Definition Ch (x y z : Z) : Z := Z.lxor (Z.land x y) (Z.land (not32 x) z).
Definition Maj (x y z : Z) : Z :=
  Z.lxor (Z.lxor (Z.land x y) (Z.land x z)) (Z.land y z).
Definition bsig0 (x : Z) : Z := Z.lxor (Z.lxor (rotr 2 x) (rotr 13 x)) (rotr 22 x).
Definition bsig1 (x : Z) : Z := Z.lxor (Z.lxor (rotr 6 x) (rotr 11 x)) (rotr 25 x).
Definition ssig0 (x : Z) : Z := Z.lxor (Z.lxor (rotr 7 x) (rotr 18 x)) (Z.shiftr x 3).
Definition ssig1 (x : Z) : Z := Z.lxor (Z.lxor (rotr 17 x) (rotr 19 x)) (Z.shiftr x 10).

(** The round constants and the initial state are fractional parts of cube
    and square roots of the first primes; they are computed here rather
    than listed. *)
Definition is_prime (n : Z) : bool :=
  forallb (fun d => negb (n mod d =? 0)) (map Z.of_nat (seq 2 (Z.to_nat n - 2))).

Definition primes64 : list Z :=
  Eval vm_compute in filter is_prime (map Z.of_nat (seq 2 310)).

(** Largest [r] below [2^bits] extending [acc] with [(acc + r)^3 <= n]. *)
Fixpoint icbrt_bits (bits : nat) (n acc : Z) : Z :=
  match bits with
  | O => acc
  | S b =>
      let cand := acc + 2 ^ Z.of_nat b in
      icbrt_bits b n (if cand * cand * cand <=? n then cand else acc)
  end.

Definition frac_cbrt32 (p : Z) : Z := icbrt_bits 36 (p * 2 ^ 96) 0 mod wmod.
Definition frac_sqrt32 (p : Z) : Z := Z.sqrt (p * 2 ^ 64) mod wmod.

Definition K : list Z := Eval vm_compute in map frac_cbrt32 primes64.
Definition H0 : list Z := Eval vm_compute in map frac_sqrt32 (firstn 8 primes64).

(** Padding: a one bit, zeros up to 56 mod 64, the bit length on 8 bytes. *)
Definition be_bytes (count : nat) (v : Z) : list Z :=
  map (fun i => (Z.shiftr v (8 * Z.of_nat (count - 1 - i))) mod 256) (seq 0 count).

Definition pad (msg : list Z) : list Z :=
  let len := Z.of_nat (length msg) in
  let zeros := Z.to_nat ((55 - len) mod 64) in
  msg ++ [128] ++ repeat 0 zeros ++ be_bytes 8 (8 * len).

Fixpoint words_of (fuel : nat) (bs : list Z) : list Z :=
  match fuel, bs with
  | S f, a :: b :: c :: d :: rest =>
      (((a * 256 + b) * 256 + c) * 256 + d) :: words_of f rest
  | _, _ => []
  end.

(** The message schedule, newest word first: [rev] gives W0..W63. *)
Fixpoint extend (n : nat) (rev_w : list Z) : list Z :=
  match n with
  | O => rev_w
  | S n' =>
      let w2 := nth 1 rev_w 0 in
      let w7 := nth 6 rev_w 0 in
      let w15 := nth 14 rev_w 0 in
      let w16 := nth 15 rev_w 0 in
      extend n' (add32 (add32 (ssig1 w2) w7) (add32 (ssig0 w15) w16) :: rev_w)
  end.

Definition schedule (block : list Z) : list Z := rev (extend 48 (rev block)).

Record regs := Regs { ra : Z; rb : Z; rc : Z; rd : Z; re : Z; rf : Z; rg : Z; rh : Z }.

Definition round (s : regs) (kw : Z * Z) : regs :=
  let t1 := add32 (add32 (add32 (rh s) (bsig1 (re s))) (Ch (re s) (rf s) (rg s)))
                  (add32 (fst kw) (snd kw)) in
  let t2 := add32 (bsig0 (ra s)) (Maj (ra s) (rb s) (rc s)) in
  Regs (add32 t1 t2) (ra s) (rb s) (rc s) (add32 (rd s) t1) (re s) (rf s) (rg s).

Definition regs_of (h : list Z) : regs :=
  Regs (nth 0 h 0) (nth 1 h 0) (nth 2 h 0) (nth 3 h 0)
       (nth 4 h 0) (nth 5 h 0) (nth 6 h 0) (nth 7 h 0).

Definition list_of (s : regs) : list Z :=
  [ra s; rb s; rc s; rd s; re s; rf s; rg s; rh s].

Definition compress (h : list Z) (block : list Z) : list Z :=
  let s := fold_left round (combine K (schedule block)) (regs_of h) in
  map (fun p => add32 (fst p) (snd p)) (combine h (list_of s)).

Fixpoint blocks (fuel : nat) (ws : list Z) (h : list Z) : list Z :=
  match fuel, ws with
  | _, [] => h
  | O, _ => h
  | S f, _ => blocks f (skipn 16 ws) (compress h (firstn 16 ws))
  end.

Definition digest_words (msg : list Z) : list Z :=
  let p := pad msg in
  let ws := words_of (length p) p in
  blocks (length ws) ws H0.

Definition hex_digit (d : Z) : ascii :=
  ascii_of_nat (Z.to_nat (if d <? 10 then 48 + d else 87 + d)).

Definition hex_word (w : Z) : string :=
  string_of_list_ascii
    (map (fun i => hex_digit ((Z.shiftr w (4 * Z.of_nat (7 - i))) mod 16)) (seq 0 8)).

Definition bytes_of_string (s : string) : list Z :=
  map (fun c => Z.of_nat (nat_of_ascii c)) (list_ascii_of_string s).

Definition hexdigest (s : string) : string :=
  String.concat "" (map hex_word (digest_words (bytes_of_string s))).

End Sha256.

(** [crypto.createHash('sha256').update(s).digest('hex')] for a string [s]. *)
Definition sha256 (s : string) : string := Sha256.hexdigest s.

(* ================================================================== *)
(** ** JavaScript values and the operators the source applies to them *)
(* ================================================================== *)

(** The JSON primitives, [undefined] for a missing property, and [NaN],
    which only arithmetic produces. *)
Inductive jsval : Type :=
| JUndefined
| JNull
| JBool (b : bool)
| JNum (n : Z)
| JNaN
| JStr (s : string).

(** What [if (v)], [!v] and [v || w] test. *)
Definition truthy (v : jsval) : bool :=
  match v with
  | JUndefined | JNull | JNaN => false
  | JBool b => b
  | JNum n => negb (n =? 0)
  | JStr s => negb (String.eqb s "")
  end.

(** [v || w] *)
Definition js_or (v w : jsval) : jsval := if truthy v then v else w.

Definition string_of_Z (n : Z) : string := NilZero.string_of_int (Z.to_int n).

(** [String(v)], the conversion [+] applies next to a string. *)
Definition ToString (v : jsval) : string :=
  match v with
  | JUndefined => "undefined"
  | JNull => "null"
  | JBool true => "true"
  | JBool false => "false"
  | JNum n => string_of_Z n
  | JNaN => "NaN"
  | JStr s => s
  end.

(** [Number(v)] on the values that are not strings; [None] is NaN. *)
Definition ToNumber (v : jsval) : option Z :=
  match v with
  | JNull => Some 0
  | JBool true => Some 1
  | JBool false => Some 0
  | JNum n => Some n
  | _ => None
  end.

(** [a + b]: concatenation as soon as one side is a string, addition
    otherwise. *)
Definition js_add (a b : jsval) : jsval :=
  match a, b with
  | JStr _, _ | _, JStr _ => JStr (ToString a +++ ToString b)
  | _, _ =>
      match ToNumber a, ToNumber b with
      | Some x, Some y => JNum (x + y)
      | _, _ => JNaN
      end
  end.

(** [a === b] on primitives. *)
Definition strict_eq (a b : jsval) : bool :=
  match a, b with
  | JUndefined, JUndefined => true
  | JNull, JNull => true
  | JBool x, JBool y => Bool.eqb x y
  | JNum x, JNum y => x =? y
  | JStr x, JStr y => String.eqb x y
  | _, _ => false
  end.

(** A numeric property that may be missing, as a value. *)
Definition jsnum (o : option Z) : jsval :=
  match o with Some n => JNum n | None => JUndefined end.

(** *** [JSON.stringify] *)

Definition dq : string := String (ascii_of_nat 34) "".

Definition hex4 (n : nat) : string :=
  "00" +++ String (Sha256.hex_digit (Z.of_nat (n / 16)))
           (String (Sha256.hex_digit (Z.of_nat (n mod 16))) "").

Definition json_escape_char (c : ascii) : string :=
  let n := nat_of_ascii c in
  if Nat.eqb n 34 then "\" +++ dq
  else if Nat.eqb n 92 then "\\"
  else if Nat.eqb n 8 then "\b"
  else if Nat.eqb n 9 then "\t"
  else if Nat.eqb n 10 then "\n"
  else if Nat.eqb n 12 then "\f"
  else if Nat.eqb n 13 then "\r"
  else if Nat.ltb n 32 then "\u" +++ hex4 n
  else String c "".

Fixpoint json_escape (s : string) : string :=
  match s with
  | EmptyString => ""
  | String c rest => json_escape_char c +++ json_escape rest
  end.

Definition json_quote (s : string) : string := dq +++ json_escape s +++ dq.

(** The text of a property value; [None] when the property is left out. *)
Definition json_value (v : jsval) : option string :=
  match v with
  | JUndefined => None
  | JNull | JNaN => Some "null"
  | JBool true => Some "true"
  | JBool false => Some "false"
  | JNum n => Some (string_of_Z n)
  | JStr s => Some (json_quote s)
  end.

Fixpoint json_members (fields : list (string * jsval)) : list string :=
  match fields with
  | [] => []
  | (k, v) :: rest =>
      match json_value v with
      | Some t => (json_quote k +++ ":" +++ t) :: json_members rest
      | None => json_members rest
      end
  end.

Definition json_object (fields : list (string * jsval)) : string :=
  "{" +++ String.concat "," (json_members fields) +++ "}".

Definition json_array (items : list string) : string :=
  "[" +++ String.concat "," items +++ "]".

(** What [JSON.parse] gives back for a value written by [JSON.stringify]. *)
Definition json_roundtrip (v : jsval) : jsval :=
  match v with JNaN => JNull | _ => v end.

(* ================================================================== *)
(** ** Exceptions and rejected promises *)
(* ================================================================== *)

Inductive sqlerror : Type :=
| NotNullFailed (column : string)
| UniqueFailed (column : string).

Inductive exn : Type :=
| TypeError
| SqliteError (e : sqlerror)
| ProjIdNotSet
| RequestFailed (url : string).

Inductive result (A : Type) : Type :=
| Ok (a : A)
| Throw (e : exn).
Arguments Ok {A} a.
Arguments Throw {A} e.

Definition bind {A B : Type} (r : result A) (k : A -> result B) : result B :=
  match r with
  | Ok a => k a
  | Throw e => Throw e
  end.

Notation "x <- c ;; k" := (bind c (fun x => k))
  (at level 61, c at next level, right associativity).

(** [crypto.createHash('sha256').update(v).digest('hex')]: [update] throws a
    TypeError when its argument is not a string. *)
Definition sha256_update (v : jsval) : result string :=
  match v with
  | JStr s => Ok (sha256 s)
  | _ => Throw TypeError
  end.

(* ================================================================== *)
(** ** Data model *)
(* ================================================================== *)

(** A transaction object as it travels in a request body or is handed to
    [createTransaction] / [addBlockToBlockchain]. *)
Record transaction : Type := mkTx {
  tx_transactionId : jsval;
  tx_timestamp : jsval;
  tx_rowHash : jsval;
  tx_projId : jsval;
  tx_rawDataJson : jsval;
  tx_submitterId : jsval;
  tx_stationID : jsval;
  tx_SO2 : option Z;
  tx_NO2 : option Z;
  tx_PM10 : option Z;
  tx_PM2_5 : option Z
}.

(** A block object ([newBlock], an element of [fullChain]); [blockIndex] and
    [nonce] are integers or missing. *)
Record block : Type := mkBlock {
  blk_blockIndex : option Z;
  blk_timestamp : jsval;
  blk_transactions : option (list transaction);
  blk_merkleRoot : jsval;
  blk_previousBlockHash : jsval;
  blk_nonce : option Z;
  blk_hash : jsval
}.

(** *** The three tables of [initDb] *)

(** An element of the JSON array kept in [bchain.transactions]:
    [{transactionId, rowHash}]. *)
Record light_tx : Type := mkLight {
  lt_transactionId : jsval;
  lt_rowHash : jsval
}.

(** [bchain].  The TEXT column [transactions] holds [JSON.stringify] of the
    lightweight list and every reader applies [JSON.parse] to it; the row
    keeps the parsed value. *)
Record bchain_row : Type := mkBchain {
  bc_id : Z;
  bc_blockIndex : Z;
  bc_timestamp : string;
  bc_transactions : list light_tx;
  bc_nonce : Z;
  bc_hash : string;
  bc_previousBlockHash : string;
  bc_merkleRoot : string
}.

(** [mempool_transactions] (the column [internal_id] is never read). *)
Record mempool_row : Type := mkMempool {
  m_transaction_id : string;
  m_projId : string;
  m_timestamp : string;
  m_submitter_id : string;
  m_station_id : option string;
  m_so2 : option Z;
  m_no2 : option Z;
  m_pm10 : option Z;
  m_pm2_5 : option Z;
  m_raw_data_json : string;
  m_rowHash : string
}.

(** [confirmed_transactions]. *)
Record confirmed_row : Type := mkConfirmed {
  c_transaction_id : string;
  c_block_id : Z;
  c_projId : string;
  c_timestamp : string;
  c_submitter_id : string;
  c_station_id : option string;
  c_so2 : option Z;
  c_no2 : option Z;
  c_pm10 : option Z;
  c_pm2_5 : option Z;
  c_raw_data_json : string;
  c_rowHash : string
}.

(** The database file: rows in insertion order, and the AUTOINCREMENT
    counter of [bchain]. *)
Record database : Type := mkDb {
  bchain : list bchain_row;
  bchain_seq : Z;
  mempool_transactions : list mempool_row;
  confirmed_transactions : list confirmed_row
}.

(** A running node: its database and the module-level variables
    [theProj] (db.js), [myNodeUrl] and [networkNodes] (network.js). *)
Record node : Type := mkNode {
  db : database;
  theProj : jsval;
  myNodeUrl : string;
  networkNodes : list string
}.

Definition with_db (n : node) (d : database) : node :=
  mkNode d (theProj n) (myNodeUrl n) (networkNodes n).

(* ================================================================== *)
(** ** The storage layer: binding, constraints, statements *)
(* ================================================================== *)

Module Sql.

(** The driver binds a number as an integer when it is an int32 and as a
    double otherwise. *)
Definition int32 (n : Z) : bool := (- 2 ^ 31 <=? n) && (n <? 2 ^ 31).

(** A value bound to a TEXT column: strings as they are, an integer as its
    digits, a double as its digits followed by [.0], booleans as the
    integers 1 and 0, [undefined] / [null] / NaN as NULL ([None]). *)
Definition bind_text (v : jsval) : option string :=
  match v with
  | JStr s => Some s
  | JNum n => Some (if int32 n then string_of_Z n else string_of_Z n +++ ".0")
  | JBool true => Some "1"
  | JBool false => Some "0"
  | JUndefined | JNull | JNaN => None
  end.

(** A NOT NULL column. *)
Definition not_null {A : Type} (column : string) (v : option A) : result A :=
  match v with
  | Some a => Ok a
  | None => Throw (SqliteError (NotNullFailed column))
  end.

(** A UNIQUE column. *)
Definition unique (column : string) (taken : bool) : result unit :=
  if taken then Throw (SqliteError (UniqueFailed column)) else Ok tt.

(** [INSERT INTO mempool_transactions (...) VALUES (?, ..., ?)] *)
Definition insert_mempool (d : database)
    (projId transaction_id timestamp submitter_id station_id : jsval)
    (so2 no2 pm10 pm2_5 : option Z) (raw_data_json rowHash : jsval)
    : result database :=
  id <- not_null "mempool_transactions.transaction_id" (bind_text transaction_id) ;;
  pj <- not_null "mempool_transactions.projId" (bind_text projId) ;;
  ts <- not_null "mempool_transactions.timestamp" (bind_text timestamp) ;;
  sb <- not_null "mempool_transactions.submitter_id" (bind_text submitter_id) ;;
  raw <- not_null "mempool_transactions.raw_data_json" (bind_text raw_data_json) ;;
  rh <- not_null "mempool_transactions.rowHash" (bind_text rowHash) ;;
  _ <- unique "mempool_transactions.transaction_id"
         (existsb (fun r => String.eqb (m_transaction_id r) id)
                  (mempool_transactions d)) ;;
  Ok (mkDb (bchain d) (bchain_seq d)
           (mempool_transactions d ++
            [mkMempool id pj ts sb (bind_text station_id) so2 no2 pm10 pm2_5 raw rh])
           (confirmed_transactions d)).

(** [INSERT INTO confirmed_transactions (...) VALUES (?, ..., ?)] *)
Definition insert_confirmed (d : database) (block_id : Z) (tx : transaction)
    : result database :=
  id <- not_null "confirmed_transactions.transaction_id"
          (bind_text (tx_transactionId tx)) ;;
  pj <- not_null "confirmed_transactions.projId" (bind_text (tx_projId tx)) ;;
  ts <- not_null "confirmed_transactions.timestamp" (bind_text (tx_timestamp tx)) ;;
  sb <- not_null "confirmed_transactions.submitter_id"
          (bind_text (tx_submitterId tx)) ;;
  raw <- not_null "confirmed_transactions.raw_data_json"
           (bind_text (tx_rawDataJson tx)) ;;
  rh <- not_null "confirmed_transactions.rowHash" (bind_text (tx_rowHash tx)) ;;
  _ <- unique "confirmed_transactions.transaction_id"
         (existsb (fun r => String.eqb (c_transaction_id r) id)
                  (confirmed_transactions d)) ;;
  Ok (mkDb (bchain d) (bchain_seq d) (mempool_transactions d)
           (confirmed_transactions d ++
            [mkConfirmed id block_id pj ts sb (bind_text (tx_stationID tx))
                         (tx_SO2 tx) (tx_NO2 tx) (tx_PM10 tx) (tx_PM2_5 tx) raw rh])).

(** [INSERT INTO bchain (...) VALUES (?, ..., ?)]; gives [this.lastID]. *)
Definition insert_bchain (d : database) (blockIndex : option Z) (timestamp : jsval)
    (transactions : list light_tx) (nonce : option Z)
    (hash previousBlockHash merkleRoot : jsval) : result (database * Z) :=
  ix <- not_null "bchain.blockIndex" blockIndex ;;
  ts <- not_null "bchain.timestamp" (bind_text timestamp) ;;
  nc <- not_null "bchain.nonce" nonce ;;
  h <- not_null "bchain.hash" (bind_text hash) ;;
  ph <- not_null "bchain.previousBlockHash" (bind_text previousBlockHash) ;;
  mr <- not_null "bchain.merkleRoot" (bind_text merkleRoot) ;;
  _ <- unique "bchain.blockIndex"
         (existsb (fun r => bc_blockIndex r =? ix) (bchain d)) ;;
  let id := bchain_seq d + 1 in
  Ok (mkDb (bchain d ++ [mkBchain id ix ts transactions nc h ph mr]) id
           (mempool_transactions d) (confirmed_transactions d), id).

(** [DELETE FROM mempool_transactions WHERE transaction_id IN (?, ..., ?)] *)
Definition delete_mempool (d : database) (ids : list jsval) : database :=
  let bound := map bind_text ids in
  mkDb (bchain d) (bchain_seq d)
       (filter (fun r =>
                  negb (existsb (fun o => match o with
                                          | Some s => String.eqb (m_transaction_id r) s
                                          | None => false
                                          end) bound))
               (mempool_transactions d))
       (confirmed_transactions d).

(** [ORDER BY timestamp ASC]: rows compared on the bytes of the column,
    equal keys kept in insertion order. *)
Fixpoint insert_by_timestamp (r : mempool_row) (sorted : list mempool_row)
    : list mempool_row :=
  match sorted with
  | [] => [r]
  | x :: rest =>
      if String.leb (m_timestamp r) (m_timestamp x)
      then r :: x :: rest
      else x :: insert_by_timestamp r rest
  end.

Fixpoint order_by_timestamp (rows : list mempool_row) : list mempool_row :=
  match rows with
  | [] => []
  | r :: rest => insert_by_timestamp r (order_by_timestamp rest)
  end.

(** [ORDER BY blockIndex DESC LIMIT 1] *)
Definition max_block (rows : list bchain_row) : option bchain_row :=
  fold_left (fun best r =>
               match best with
               | None => Some r
               | Some b => if bc_blockIndex b <? bc_blockIndex r then Some r else Some b
               end) rows None.

(** [ORDER BY blockIndex ASC] *)
Fixpoint insert_by_index (r : bchain_row) (sorted : list bchain_row)
    : list bchain_row :=
  match sorted with
  | [] => [r]
  | x :: rest =>
      if bc_blockIndex r <=? bc_blockIndex x
      then r :: x :: rest
      else x :: insert_by_index r rest
  end.

Fixpoint order_by_index (rows : list bchain_row) : list bchain_row :=
  match rows with
  | [] => []
  | r :: rest => insert_by_index r (order_by_index rest)
  end.

End Sql.

(* ================================================================== *)
(** ** db.js *)
(* ================================================================== *)

(** [initDb], after the tables exist: the node whose id is '0' inserts the
    genesis block into an empty [bchain]; [now] is [new Date().toISOString()]. *)
Definition genesis_hash : string := sha256 "regulator_genesis_block_v1".
Definition genesis_merkleRoot : string := sha256 "genesis_merkle_root_v1".

Definition initDb (n : node) (now : string) : result node :=
  if (0 <? List.length (bchain (db n)))%nat then Ok n
  else if String.eqb (ToString (theProj n)) "0" then
    r <- Sql.insert_bchain (db n) (Some 0) (JStr now) [] (Some 0)
           (JStr genesis_hash) (JStr "0") (JStr genesis_merkleRoot) ;;
    Ok (with_db n (fst r))
  else Ok n.

(** [uuidv4().split('-').join('')] *)
Fixpoint strip_dashes (s : string) : string :=
  match s with
  | EmptyString => ""
  | String c rest =>
      if Ascii.eqb c "-" then strip_dashes rest else String c (strip_dashes rest)
  end.

(** [JSON.stringify({submitterId, stationID, SO2, NO2, PM10, PM2_5})] *)
Definition raw_payload_json (t : transaction) : string :=
  json_object [("submitterId", tx_submitterId t); ("stationID", tx_stationID t);
               ("SO2", jsnum (tx_SO2 t)); ("NO2", jsnum (tx_NO2 t));
               ("PM10", jsnum (tx_PM10 t)); ("PM2_5", jsnum (tx_PM2_5 t))].

(** The values [createTransaction] settles on before its INSERT. *)
Definition finalTransactionId (uuid : string) (t : transaction) : jsval :=
  js_or (tx_transactionId t) (JStr (strip_dashes uuid)).

Definition finalTimestamp (now : string) (t : transaction) : jsval :=
  js_or (tx_timestamp t) (JStr now).

Definition finalProjId (n : node) (t : transaction) : jsval :=
  JStr (ToString (if strict_eq (tx_projId t) JUndefined then theProj n else tx_projId t)).

Definition rawDataForHash (t : transaction) : jsval :=
  js_or (tx_rawDataJson t) (JStr (raw_payload_json t)).

Definition finalRowHash (uuid now : string) (t : transaction) : result jsval :=
  if truthy (tx_rowHash t) then Ok (tx_rowHash t)
  else
    h <- sha256_update (js_add (js_add (finalTransactionId uuid t) (finalTimestamp now t))
                               (rawDataForHash t)) ;;
    Ok (JStr h).

(** [createTransaction(transactionData)]; [uuid] and [now] are what
    [uuidv4()] and [new Date().toISOString()] return during the call. *)
Definition createTransaction (n : node) (uuid now : string) (transactionData : transaction)
    : node * result transaction :=
  if strict_eq (theProj n) JUndefined && strict_eq (tx_projId transactionData) JUndefined
  then (n, Throw ProjIdNotSet)
  else
    match finalRowHash uuid now transactionData with
    | Throw e => (n, Throw e)
    | Ok rowHash =>
        match Sql.insert_mempool (db n)
                (finalProjId n transactionData)
                (finalTransactionId uuid transactionData)
                (finalTimestamp now transactionData)
                (tx_submitterId transactionData) (tx_stationID transactionData)
                (tx_SO2 transactionData) (tx_NO2 transactionData)
                (tx_PM10 transactionData) (tx_PM2_5 transactionData)
                (rawDataForHash transactionData) rowHash with
        | Throw e => (n, Throw e)
        | Ok d =>
            (with_db n d,
             Ok (mkTx (finalTransactionId uuid transactionData)
                      (finalTimestamp now transactionData)
                      rowHash
                      (finalProjId n transactionData)
                      (rawDataForHash transactionData)
                      (tx_submitterId transactionData) (tx_stationID transactionData)
                      (tx_SO2 transactionData) (tx_NO2 transactionData)
                      (tx_PM10 transactionData) (tx_PM2_5 transactionData)))
        end
    end.

(** [getMempoolCount()] *)
Definition getMempoolCount (n : node) : nat := List.length (mempool_transactions (db n)).

(** A row of [mempool_transactions] as the object [getTransactionsForBlock]
    rebuilds (a NULL [station_id] reads back as [null]). *)
Definition tx_of_row (r : mempool_row) : transaction :=
  mkTx (JStr (m_transaction_id r)) (JStr (m_timestamp r)) (JStr (m_rowHash r))
       (JStr (m_projId r)) (JStr (m_raw_data_json r)) (JStr (m_submitter_id r))
       (match m_station_id r with Some s => JStr s | None => JNull end)
       (m_so2 r) (m_no2 r) (m_pm10 r) (m_pm2_5 r).

(** [getTransactionsForBlock(limit)]:
    [SELECT * FROM mempool_transactions ORDER BY timestamp ASC LIMIT ?] *)
Definition getTransactionsForBlock (n : node) (limit : nat) : list transaction :=
  map tx_of_row (firstn limit (Sql.order_by_timestamp (mempool_transactions (db n)))).

(** [removeTransactionsFromMempool(transactionIds)] *)
Definition removeTransactionsFromMempool (n : node) (transactionIds : list jsval) : node :=
  match transactionIds with
  | [] => n
  | _ => with_db n (Sql.delete_mempool (db n) transactionIds)
  end.

(** The lightweight list [addBlockToBlockchain] serializes into the block
    row, as [JSON.parse] reads it back. *)
Definition lightweightTransactions (txs : list transaction) : list light_tx :=
  map (fun tx => mkLight (json_roundtrip (tx_transactionId tx))
                         (json_roundtrip (tx_rowHash tx))) txs.

(** The INSERTs of the confirmed transactions; the first failure rejects
    [Promise.all].  They are started together: the rows are kept here in
    the order of the block's list, whatever the order in which SQLite
    completes them. *)
Fixpoint insert_confirmed_all (d : database) (block_id : Z) (txs : list transaction)
    : result database :=
  match txs with
  | [] => Ok d
  | tx :: rest =>
      d' <- Sql.insert_confirmed d block_id tx ;;
      insert_confirmed_all d' block_id rest
  end.

(** [addBlockToBlockchain(block)]: BEGIN TRANSACTION, the block row, the
    confirmed rows, then COMMIT; ROLLBACK restores the database of BEGIN. *)
Definition addBlockToBlockchain (n : node) (b : block) : node * result unit :=
  match blk_transactions b with
  | None => (n, Throw TypeError)
  | Some transactions =>
      let at_begin := db n in
      match Sql.insert_bchain at_begin (blk_blockIndex b) (blk_timestamp b)
              (lightweightTransactions transactions) (blk_nonce b)
              (blk_hash b) (blk_previousBlockHash b) (blk_merkleRoot b) with
      | Throw e => (with_db n at_begin, Throw e)
      | Ok (d1, block_id) =>
          match insert_confirmed_all d1 block_id transactions with
          | Throw e => (with_db n at_begin, Throw e)
          | Ok d2 => (with_db n d2, Ok tt)
          end
      end
  end.

(** [getLastBlock()] *)
Definition getLastBlock (n : node) : option bchain_row := Sql.max_block (bchain (db n)).

(** A block row as the object [getLastBlock] / [getAllBlocks] return and
    [GET /chain] sends: [transactions] is the parsed lightweight list. *)
Definition tx_of_light (l : light_tx) : transaction :=
  mkTx (lt_transactionId l) JUndefined (lt_rowHash l) JUndefined JUndefined
       JUndefined JUndefined None None None None.

Definition block_of_row (r : bchain_row) : block :=
  mkBlock (Some (bc_blockIndex r)) (JStr (bc_timestamp r))
          (Some (map tx_of_light (bc_transactions r)))
          (JStr (bc_merkleRoot r)) (JStr (bc_previousBlockHash r))
          (Some (bc_nonce r)) (JStr (bc_hash r)).

(** [getAllBlocks()] *)
Definition getAllBlocks (n : node) : list block :=
  map block_of_row (Sql.order_by_index (bchain (db n))).

(* ================================================================== *)
(** ** routes/blocks.js *)
(* ================================================================== *)

(** One pass of the [for] loop: [sha256(hashes[i] + hashes[i+1])] for
    [i = 0, 2, 4, ...]. *)
Fixpoint pair_up (hashes : list jsval) : result (list jsval) :=
  match hashes with
  | [] => Ok []
  | a :: b :: rest =>
      h <- sha256_update (js_add a b) ;;
      r <- pair_up rest ;;
      Ok (JStr h :: r)
  | [a] =>
      h <- sha256_update (js_add a JUndefined) ;;
      Ok [JStr h]
  end.

(** [if (hashes.length % 2 !== 0) hashes.push(hashes[hashes.length - 1])] *)
Definition duplicate_last (hashes : list jsval) : list jsval :=
  if Nat.odd (List.length hashes) then hashes ++ [last hashes JUndefined] else hashes.

(** [while (hashes.length > 1) { ... }], at most [fuel] passes. *)
Fixpoint merkle_loop (fuel : nat) (hashes : list jsval) : result (list jsval) :=
  match fuel with
  | O => Ok hashes
  | S f =>
      if (1 <? List.length hashes)%nat
      then newHashes <- pair_up (duplicate_last hashes) ;; merkle_loop f newHashes
      else Ok hashes
  end.

Definition empty_merkle_root : string := sha256 "empty_merkle_root_placeholder".

(** [calculateMerkleRoot(transactions)]; every pass at least halves a level
    of two or more hashes, so [length transactions] passes are enough
    ([merkle_loop_done]). *)
Definition calculateMerkleRoot (transactions : list transaction) : result jsval :=
  match transactions with
  | [] => Ok (JStr empty_merkle_root)
  | _ =>
      hashes <- merkle_loop (List.length transactions) (map tx_rowHash transactions) ;;
      Ok (nth 0 hashes JUndefined)
  end.

(** [JSON.stringify(transactions.map(tx => ({ id: tx.transactionId, hash: tx.rowHash })))] *)
Definition transactionsForBlockHash (transactions : list transaction) : string :=
  json_array (map (fun tx => json_object [("id", tx_transactionId tx);
                                          ("hash", tx_rowHash tx)]) transactions).

(** [blockIndex + timestamp + merkleRoot + previousBlockHash + nonce +
    JSON.stringify(transactionsForBlockHash)] *)
Definition blockHashInput (b : block) (transactions : list transaction) : jsval :=
  js_add (js_add (js_add (js_add (js_add (jsnum (blk_blockIndex b)) (blk_timestamp b))
                                 (blk_merkleRoot b))
                         (blk_previousBlockHash b))
                 (jsnum (blk_nonce b)))
         (JStr (transactionsForBlockHash transactions)).

Definition calculateBlockHash (b : block) (transactions : list transaction) : result string :=
  sha256_update (blockHashInput b transactions).

(** [lastBlock ? lastBlock.hash : '0'] and [lastBlock ? lastBlock.blockIndex : -1] *)
Definition lastHash (n : node) : string :=
  match getLastBlock n with Some r => bc_hash r | None => "0" end.

Definition lastIndex (n : node) : Z :=
  match getLastBlock n with Some r => bc_blockIndex r | None => -1 end.

(** [await Promise.all(networkNodes.map(url => axios.post(url + path, body)))]:
    [post url] tells whether the request to [url] is answered with success. *)
Fixpoint broadcast (post : string -> bool) (urls : list string) : result unit :=
  match urls with
  | [] => Ok tt
  | url :: rest => if post url then broadcast post rest else Throw (RequestFailed url)
  end.

Definition BLOCK_SIZE : nat := 5.

Inductive mine_outcome : Type :=
| NotMiningYet (mempoolCount : nat)
| BlockMined (newBlock : block).

(** The candidate block of steps 1 to 4 of [mineBlockInternal]. *)
Definition buildBlock (n : node) (now : string) : result block :=
  let pendingTransactions := getTransactionsForBlock n BLOCK_SIZE in
  root <- calculateMerkleRoot pendingTransactions ;;
  let unhashed := mkBlock (Some (lastIndex n + 1)) (JStr now) (Some pendingTransactions)
                          root (JStr (lastHash n)) (Some 0) (JStr "") in
  h <- calculateBlockHash unhashed pendingTransactions ;;
  Ok (mkBlock (blk_blockIndex unhashed) (blk_timestamp unhashed)
              (blk_transactions unhashed) (blk_merkleRoot unhashed)
              (blk_previousBlockHash unhashed) (blk_nonce unhashed) (JStr h)).

(** [mineBlockInternal()] *)
Definition mineBlockInternal (n : node) (now : string) (post : string -> bool)
    : node * result mine_outcome :=
  if (getMempoolCount n <? BLOCK_SIZE)%nat then (n, Ok (NotMiningYet (getMempoolCount n)))
  else
    match buildBlock n now with
    | Throw e => (n, Throw e)
    | Ok newBlock =>
        match addBlockToBlockchain n newBlock with
        | (n1, Throw e) => (n1, Throw e)
        | (n1, Ok _) =>
            let confirmedTransactionIds :=
              map tx_transactionId (getTransactionsForBlock n BLOCK_SIZE) in
            let n2 := removeTransactionsFromMempool n1 confirmedTransactionIds in
            match broadcast post (networkNodes n2) with
            | Throw e => (n2, Throw e)
            | Ok _ => (n2, Ok (BlockMined newBlock))
            end
        end
    end.

(** An HTTP answer: status code, the text of its [note] / [error] /
    [message] field, and the object sent along, if any. *)
Inductive payload : Type :=
| NoPayload
| TxPayload (t : transaction)
| BlockPayload (b : block).

Record reply : Type := mkReply {
  status : Z;
  message : string;
  sent : payload
}.

(** [POST /mine] *)
Definition post_mine (n : node) (now : string) (post : string -> bool) : node * reply :=
  match mineBlockInternal n now post with
  | (n', Ok (NotMiningYet c)) =>
      (n', mkReply 200 ("Mempool has only " +++ string_of_Z (Z.of_nat c)
                        +++ " transactions, less than 5. Not mining yet.") NoPayload)
  | (n', Ok (BlockMined b)) =>
      (n', mkReply 200 "Block mined and broadcast successfully." (BlockPayload b))
  | (n', Throw _) => (n', mkReply 500 "Failed to mine block." NoPayload)
  end.

(** [POST /receive]; the handler reads [newBlock.blockIndex] before any
    test, so it is given the block object itself. *)
Definition receiveBlock (n : node) (newBlock : block) : node * reply :=
  match blk_blockIndex newBlock, blk_transactions newBlock with
  | Some blockIndex, Some transactions =>
      if negb (truthy (blk_timestamp newBlock))
         || negb (truthy (blk_merkleRoot newBlock))
         || negb (truthy (blk_previousBlockHash newBlock))
         || negb (truthy (blk_hash newBlock))
      then (n, mkReply 400 "Received block is missing required fields." NoPayload)
      else if blockIndex <=? lastIndex n
      then (n, mkReply 200 "Block already on chain or older, ignoring." NoPayload)
      else if negb (blockIndex =? lastIndex n + 1)
      then (n, mkReply 400 "Block index is not sequential. Rejecting." NoPayload)
      else if negb (strict_eq (blk_previousBlockHash newBlock) (JStr (lastHash n)))
      then (n, mkReply 400
                 "Received block does not link correctly to our chain (previous hash mismatch)."
                 NoPayload)
      else
        match calculateBlockHash newBlock transactions with
        | Throw _ => (n, mkReply 500 "Failed to process received block." NoPayload)
        | Ok reCalculatedHash =>
            if negb (strict_eq (JStr reCalculatedHash) (blk_hash newBlock))
            then (n, mkReply 400 "Block hash mismatch, block rejected." NoPayload)
            else
              match calculateMerkleRoot transactions with
              | Throw _ => (n, mkReply 500 "Failed to process received block." NoPayload)
              | Ok receivedMerkleRoot =>
                  if negb (strict_eq receivedMerkleRoot (blk_merkleRoot newBlock))
                  then (n, mkReply 400 "Merkle Root mismatch, block rejected." NoPayload)
                  else
                    match addBlockToBlockchain n newBlock with
                    | (n1, Throw _) =>
                        (n1, mkReply 500 "Failed to process received block." NoPayload)
                    | (n1, Ok _) =>
                        (removeTransactionsFromMempool n1
                           (map tx_transactionId transactions),
                         mkReply 200 "Block received and accepted." NoPayload)
                    end
              end
        end
  | _, _ => (n, mkReply 400 "Received block is missing required fields." NoPayload)
  end.

(** [GET /chain] *)
Definition get_chain (n : node) : list block := getAllBlocks n.

(* ================================================================== *)
(** ** routes/transactions.js *)
(* ================================================================== *)

(** [error.message.includes('SQLITE_CONSTRAINT: UNIQUE constraint failed:
    mempool_transactions.transaction_id')] *)
Definition is_duplicate_id (e : exn) : bool :=
  match e with
  | SqliteError (UniqueFailed column) =>
      String.eqb column "mempool_transactions.transaction_id"
  | _ => false
  end.

(** [POST /receive]: a transaction broadcast by a peer. *)
Definition receiveTransaction (n : node) (uuid now : string) (transactionData : transaction)
    : node * reply :=
  if negb (truthy (tx_transactionId transactionData))
     || negb (truthy (tx_timestamp transactionData))
     || negb (truthy (tx_rowHash transactionData))
     || negb (truthy (tx_rawDataJson transactionData))
     || strict_eq (tx_projId transactionData) JUndefined
  then (n, mkReply 400 "Missing mandatory transaction fields for reception." NoPayload)
  else
    let dataToHash := js_add (js_add (tx_transactionId transactionData)
                                     (tx_timestamp transactionData))
                             (tx_rawDataJson transactionData) in
    match sha256_update dataToHash with
    | Throw _ => (n, mkReply 500 "Failed to accept received transaction." NoPayload)
    | Ok reCalculatedHash =>
        if negb (strict_eq (JStr reCalculatedHash) (tx_rowHash transactionData))
        then (n, mkReply 400 "Transaction hash mismatch. Data may be corrupted." NoPayload)
        else
          match createTransaction n uuid now transactionData with
          | (n', Ok _) =>
              (n', mkReply 201 "Transaction received and accepted into mempool."
                           (TxPayload transactionData))
          | (n', Throw e) =>
              if is_duplicate_id e
              then (n', mkReply 409 "Transaction ID already exists in mempool." NoPayload)
              else (n', mkReply 500 "Failed to accept received transaction." NoPayload)
          end
    end.

(** [POST /submit]: a new transaction from a client; [post url] tells
    whether the relay to the peer [url] is answered with success. *)
Definition submitTransaction (n : node) (uuid now : string) (post : string -> bool)
    (rawTransactionData : transaction) : node * reply :=
  match createTransaction n uuid now rawTransactionData with
  | (n', Throw _) => (n', mkReply 500 "Transaction broadcast failed." NoPayload)
  | (n', Ok newTransaction) =>
      match broadcast post (networkNodes n') with
      | Throw _ => (n', mkReply 500 "Transaction broadcast failed." NoPayload)
      | Ok _ =>
          (n', mkReply 201 "Transaction created locally and broadcast successfully."
                       (TxPayload newTransaction))
      end
  end.

(* ================================================================== *)
(** ** routes/network.js *)
(* ================================================================== *)

(** The answers of the registration routes: status, the text of [note] /
    [error], and the [networkNodes] property when the answer has one. *)
Record directory_reply : Type := mkDirectoryReply {
  dr_status : Z;
  dr_message : string;
  dr_networkNodes : option (list string)
}.

(** [if (!networkNodes.includes(url) && url !== myNodeUrl) networkNodes.push(url)] *)
Definition add_node (n : node) (url : string) : node :=
  if negb (existsb (String.eqb url) (networkNodes n)) && negb (String.eqb url (myNodeUrl n))
  then mkNode (db n) (theProj n) (myNodeUrl n) (networkNodes n ++ [url])
  else n.

(** [POST /register-node] *)
Definition register_node (n : node) (newNodeUrl : option string) : node * directory_reply :=
  match newNodeUrl with
  | None => (n, mkDirectoryReply 400 "newNodeUrl is required." None)
  | Some url =>
      if negb (truthy (JStr url))
      then (n, mkDirectoryReply 400 "newNodeUrl is required." None)
      else (add_node n url, mkDirectoryReply 200 "Node registered." None)
  end.

(** [POST /register-nodes-bulk]; [None] is a body whose [allNetworkNodes]
    is not an array. *)
Definition register_nodes_bulk (n : node) (allNetworkNodes : option (list string))
    : node * directory_reply :=
  match allNetworkNodes with
  | None => (n, mkDirectoryReply 400 "allNetworkNodes must be an array." None)
  | Some allNodes =>
      (fold_left add_node allNodes n,
       mkDirectoryReply 200 "Bulk registration successful." None)
  end.

(** The requests [POST /register-and-broadcast-node] sends: the address
    and the body. *)
Inductive body : Type :=
| NewNodeUrl (newNodeUrl : string)
| AllNetworkNodes (allNetworkNodes : list string).

Definition request : Type := (string * body)%type.

(** [POST /register-and-broadcast-node]; [answered r] tells whether the
    request [r] is answered with success.  The relays to the known nodes
    carry a [catch] of their own, so only the answer to the last request
    is looked at. *)
Definition register_and_broadcast_node (n : node) (newNodeUrl : option string)
    (answered : request -> bool) : node * directory_reply * list request :=
  match newNodeUrl with
  | None => (n, mkDirectoryReply 400 "newNodeUrl is required." None, [])
  | Some url =>
      if negb (truthy (JStr url))
      then (n, mkDirectoryReply 400 "newNodeUrl is required." None, [])
      else
        let n1 := add_node n url in
        let relays :=
          map (fun existingNodeUrl =>
                 (existingNodeUrl +++ "/api/network/register-node", NewNodeUrl url))
              (filter (fun existingNodeUrl => negb (String.eqb existingNodeUrl url))
                      (networkNodes n1)) in
        let bulk := (url +++ "/network/register-nodes-bulk",
                     AllNetworkNodes (networkNodes n1 ++ [myNodeUrl n1])) in
        if answered bulk
        then (n1, mkDirectoryReply 200 "New node registered with network and broadcasted."
                                   (Some (networkNodes n1)), relays ++ [bulk])
        else (n1, mkDirectoryReply 500 "Failed to register and broadcast node." None,
              relays ++ [bulk])
  end.

(* ================================================================== *)
(** ** index.js *)
(* ================================================================== *)

(** The [for (const block of fullChain)] loop of [startServer]. *)
Fixpoint applyChain (n : node) (fullChain : list block) : node * result unit :=
  match fullChain with
  | [] => (n, Ok tt)
  | b :: rest =>
      match addBlockToBlockchain n b with
      | (n1, Throw e) => (n1, Throw e)
      | (n1, Ok _) =>
          match blk_transactions b with
          | None => (n1, Throw TypeError)
          | Some transactions =>
              applyChain (removeTransactionsFromMempool n1
                            (map tx_transactionId transactions)) rest
          end
      end
  end.

(** The initial chain synchronization of [startServer]; [fetched] is the
    outcome of [axios.get(regAuthUrl + '/api/blocks/chain')] with the
    [chain] property of the answer. *)
Definition synchronize (n : node) (fetched : result (option (list block))) : node :=
  match getLastBlock n with
  | Some _ => n
  | None =>
      if String.eqb (ToString (theProj n)) "0" then n
      else
        match fetched with
        | Ok (Some fullChain) => fst (applyChain n fullChain)
        | _ => n
        end
  end.

(** [startServer()] up to the start of the producer: [initDb], then the
    initial synchronization. *)
Definition startServer (n : node) (now : string) (fetched : result (option (list block)))
    : result node :=
  n1 <- initDb n now ;;
  Ok (synchronize n1 fetched).

(** The body of the [setInterval] callback on the authority. *)
Definition MINE_THRESHOLD : nat := 5.

Definition miningTick (n : node) (now : string) (post : string -> bool) : node :=
  if (MINE_THRESHOLD <=? getMempoolCount n)%nat
  then fst (mineBlockInternal n now post)
  else n.

(* ================================================================== *)
(** * The vocabulary of the statements, and the nodes and requests of the
      examples *)
(* ================================================================== *)

Arguments sha256 : simpl never.

(** ** Merkle roots and commits *)

(** A transaction of which only the leaf digest [rowHash] matters. *)
Definition leaf (d : string) : transaction :=
  mkTx JUndefined JUndefined (JStr d) JUndefined JUndefined JUndefined JUndefined
       None None None None.

(** The row of [confirmed_transactions] written for a transaction of a
    block whose [bchain] row has id [block_id]. *)
Definition confirms (block_id : Z) (tx : transaction) (row : confirmed_row) : Prop :=
  Sql.bind_text (tx_transactionId tx) = Some (c_transaction_id row) /\
  c_block_id row = block_id /\
  Sql.bind_text (tx_projId tx) = Some (c_projId row) /\
  Sql.bind_text (tx_timestamp tx) = Some (c_timestamp row) /\
  Sql.bind_text (tx_submitterId tx) = Some (c_submitter_id row) /\
  Sql.bind_text (tx_rawDataJson tx) = Some (c_raw_data_json row) /\
  Sql.bind_text (tx_rowHash tx) = Some (c_rowHash row).

(** The row of [bchain] written for a block. *)
Definition heads (b : block) (row : bchain_row) : Prop :=
  blk_blockIndex b = Some (bc_blockIndex row) /\
  Sql.bind_text (blk_timestamp b) = Some (bc_timestamp row) /\
  blk_nonce b = Some (bc_nonce row) /\
  Sql.bind_text (blk_hash b) = Some (bc_hash row) /\
  Sql.bind_text (blk_previousBlockHash b) = Some (bc_previousBlockHash row) /\
  Sql.bind_text (blk_merkleRoot b) = Some (bc_merkleRoot row) /\
  (forall txs, blk_transactions b = Some txs ->
               bc_transactions row = lightweightTransactions txs).

(** A node with one pending transaction, and a block that confirms it. *)
Definition pending_t1 : mempool_row :=
  mkMempool "t1" "1" "2024-01-01T00:00:01.000Z" "alice" None None None None None
            "{}" "h1".

Definition node_with_pending_t1 : node :=
  mkNode (mkDb [] 0 [pending_t1] []) (JStr "1") "http://localhost:3001" [].

Definition block_of_t1 : block :=
  mkBlock (Some 0) (JStr "2024-01-01T00:01:00.000Z") (Some [tx_of_row pending_t1])
          (JStr "h1") (JStr "0") (Some 0) (JStr "blockhash").

(** ** Block production *)

(** [a] is not younger than [b]. *)
Definition ts_le (a b : mempool_row) : Prop :=
  String.leb (m_timestamp a) (m_timestamp b) = true.

(** The value is a string. *)
Definition is_str (v : jsval) : bool :=
  match v with JStr _ => true | _ => false end.

(** The rows [getTransactionsForBlock n BLOCK_SIZE] reads, and the ones it
    leaves in the mempool. *)
Definition chosen_rows (n : node) : list mempool_row :=
  firstn BLOCK_SIZE (Sql.order_by_timestamp (mempool_transactions (db n))).

Definition left_rows (n : node) : list mempool_row :=
  skipn BLOCK_SIZE (Sql.order_by_timestamp (mempool_transactions (db n))).

(** ** Block reception *)

(** Check 1 of [POST /receive]: every required field is there and truthy
    ([blockIndex] only has to be defined, an empty array is truthy). *)
Definition complete (b : block) : bool :=
  match blk_blockIndex b, blk_transactions b with
  | Some _, Some _ =>
      truthy (blk_timestamp b) && truthy (blk_merkleRoot b)
      && truthy (blk_previousBlockHash b) && truthy (blk_hash b)
  | _, _ => false
  end.

(** The answers of [POST /receive] (blocks). *)
Definition missing_fields_reply : reply :=
  mkReply 400 "Received block is missing required fields." NoPayload.
Definition stale_reply : reply :=
  mkReply 200 "Block already on chain or older, ignoring." NoPayload.
Definition not_sequential_reply : reply :=
  mkReply 400 "Block index is not sequential. Rejecting." NoPayload.
Definition linkage_reply : reply :=
  mkReply 400 "Received block does not link correctly to our chain (previous hash mismatch)."
          NoPayload.
Definition hash_mismatch_reply : reply :=
  mkReply 400 "Block hash mismatch, block rejected." NoPayload.
Definition merkle_mismatch_reply : reply :=
  mkReply 400 "Merkle Root mismatch, block rejected." NoPayload.
Definition accepted_reply : reply :=
  mkReply 200 "Block received and accepted." NoPayload.
Definition failed_reply : reply :=
  mkReply 500 "Failed to process received block." NoPayload.

(** The errors of the validation pipeline, by the names of the taxonomy. *)
Inductive rejection : Type :=
| MalformedBlock
| NonSequentialIndex
| LinkageMismatch
| HashMismatch
| MerkleMismatch.

Definition rejection_reply (r : rejection) : reply :=
  match r with
  | MalformedBlock => missing_fields_reply
  | NonSequentialIndex => not_sequential_reply
  | LinkageMismatch => linkage_reply
  | HashMismatch => hash_mismatch_reply
  | MerkleMismatch => merkle_mismatch_reply
  end.

(** A block fails a stage when it passed the stages before it and the test
    of that stage, as [POST /receive] makes it, turns it down. *)
Inductive fails_stage (n : node) (b : block) : rejection -> Prop :=
| fails_completeness :
    complete b = false ->
    fails_stage n b MalformedBlock
| fails_index (i : Z) :
    complete b = true ->
    blk_blockIndex b = Some i -> lastIndex n + 1 < i ->
    fails_stage n b NonSequentialIndex
| fails_linkage :
    complete b = true ->
    blk_blockIndex b = Some (lastIndex n + 1) ->
    blk_previousBlockHash b <> JStr (lastHash n) ->
    fails_stage n b LinkageMismatch
| fails_hash (txs : list transaction) (h : string) :
    complete b = true ->
    blk_blockIndex b = Some (lastIndex n + 1) ->
    blk_previousBlockHash b = JStr (lastHash n) ->
    blk_transactions b = Some txs ->
    calculateBlockHash b txs = Ok h -> blk_hash b <> JStr h ->
    fails_stage n b HashMismatch
| fails_merkle (txs : list transaction) (h : string) (root : jsval) :
    complete b = true ->
    blk_blockIndex b = Some (lastIndex n + 1) ->
    blk_previousBlockHash b = JStr (lastHash n) ->
    blk_transactions b = Some txs ->
    calculateBlockHash b txs = Ok h -> blk_hash b = JStr h ->
    calculateMerkleRoot txs = Ok root -> strict_eq root (blk_merkleRoot b) = false ->
    fails_stage n b MerkleMismatch.

(** A project node on an empty database file. *)
Definition project_node : node :=
  mkNode (mkDb [] 0 [] []) (JStr "1") "http://localhost:3001" [].

(** A block whose [timestamp] is the number 1 and whose [hash] is the digest
    of what [+] makes of its fields: [0 + 1] is the number 1. *)
Definition numeric_timestamp_block : block :=
  mkBlock (Some 0) (JNum 1) (Some []) (JStr empty_merkle_root) (JStr "0") (Some 0)
          (JStr (sha256 ("1" +++ empty_merkle_root +++ "0" +++ "0" +++ "[]"))).

(** The authority right after [initDb], and a block that does not link to
    its genesis block. *)
Definition genesis_node : node :=
  mkNode (mkDb [mkBchain 1 0 "2024-01-01T00:00:00.000Z" [] 0 genesis_hash "0"
                         genesis_merkleRoot] 1 [] [])
         (JStr "0") "http://localhost:3000" [].

Definition unlinked_block : block :=
  mkBlock (Some 1) (JStr "2024-01-01T00:01:00.000Z") (Some [])
          (JStr empty_merkle_root) (JStr "not-the-genesis-hash") (Some 0) (JStr "h").

(** A block of index 0 without [timestamp], sent to a node whose last
    index is 0. *)
Definition stale_incomplete_block : block :=
  mkBlock (Some 0) JUndefined (Some []) (JStr genesis_merkleRoot) (JStr "0") (Some 0)
          (JStr genesis_hash).

(** A block that links to the genesis block of [genesis_node]. *)
Definition linked_block : block :=
  mkBlock (Some 1) (JStr "2024-01-01T00:01:00.000Z") (Some [])
          (JStr empty_merkle_root) (JStr genesis_hash) (Some 0)
          (JStr (sha256 ("1" +++ "2024-01-01T00:01:00.000Z" +++ empty_merkle_root
                         +++ genesis_hash +++ "0" +++ "[]"))).

(** ** An authority, a joining node and their peers *)

(** Every request to a peer is answered. *)
Definition all_peers_answer (url : string) : bool := true.

(** The authority: started on an empty database file, given five readings,
    then one tick of its producer. *)
Definition authority_fresh : node :=
  mkNode (mkDb [] 0 [] []) (JStr "0") "http://localhost:3000" [].

Definition authority_started : node :=
  match initDb authority_fresh "2024-01-01T00:00:00.000Z" with
  | Ok n => n
  | Throw _ => authority_fresh
  end.

Definition reading (k : string) : transaction :=
  mkTx JUndefined JUndefined JUndefined JUndefined JUndefined
       (JStr ("operator-" +++ k)) (JStr "station-7")
       (Some 11) (Some 23) (Some 40) (Some 18).

Definition submit_reading (k : string) (n : node) : node :=
  fst (submitTransaction n ("7d3c1a52-0000-4000-8000-00000000000" +++ k)
         ("2024-01-01T00:00:0" +++ k +++ ".000Z") all_peers_answer (reading k)).

Definition authority_pending : node :=
  submit_reading "5" (submit_reading "4" (submit_reading "3"
    (submit_reading "2" (submit_reading "1" authority_started)))).

Definition authority_mined : node :=
  fst (mineBlockInternal authority_pending "2024-01-01T00:01:00.000Z" all_peers_answer).

(** A project node started on an empty database file. *)
Definition joiner : node :=
  mkNode (mkDb [] 0 [] []) (JStr "1") "http://localhost:3001" ["http://localhost:3000"].

(** ** Admission of transactions *)

(** The answers of [POST /receive] (transactions). *)
Definition tx_missing_reply : reply :=
  mkReply 400 "Missing mandatory transaction fields for reception." NoPayload.
Definition tx_mismatch_reply : reply :=
  mkReply 400 "Transaction hash mismatch. Data may be corrupted." NoPayload.
Definition tx_duplicate_reply : reply :=
  mkReply 409 "Transaction ID already exists in mempool." NoPayload.
Definition tx_failed_reply : reply :=
  mkReply 500 "Failed to accept received transaction." NoPayload.
Definition tx_accepted_reply (t : transaction) : reply :=
  mkReply 201 "Transaction received and accepted into mempool." (TxPayload t).

(** The row written for a transaction whose fields are bound as given. *)
Definition pending_row (id pj ts sb raw rh : string) (t : transaction) : mempool_row :=
  mkMempool id pj ts sb (Sql.bind_text (tx_stationID t))
            (tx_SO2 t) (tx_NO2 t) (tx_PM10 t) (tx_PM2_5 t) raw rh.

(** A transaction relayed by a peer, without and with [submitterId]. *)
Definition peer_transaction : transaction :=
  mkTx (JStr "t1") (JStr "2024-01-01T00:00:01.000Z")
       (JStr (sha256 ("t1" +++ "2024-01-01T00:00:01.000Z" +++ "{}")))
       (JStr "2") (JStr "{}") JUndefined JUndefined None None None None.

Definition peer_transaction_complete : transaction :=
  mkTx (JStr "t1") (JStr "2024-01-01T00:00:01.000Z")
       (JStr (sha256 (("t1" +++ "2024-01-01T00:00:01.000Z") +++ "{}")))
       (JStr "2") (JStr "{}") (JStr "operator-1") JUndefined None None None None.

(** Every request to a peer fails. *)
Definition no_peer_answers (url : string) : bool := false.

(** The authority with one registered peer. *)
Definition authority_with_peer (n : node) : node :=
  mkNode (db n) (theProj n) (myNodeUrl n) ["http://localhost:3001"].

(** A payload that supplies an empty [transactionId]. *)
Definition payload_with_empty_id : transaction :=
  mkTx (JStr "") JUndefined JUndefined JUndefined JUndefined
       (JStr "operator-1") JUndefined None None None None.

(** A payload that supplies a [rowHash] which is not the digest of its
    other fields. *)
Definition payload_with_wrong_hash : transaction :=
  mkTx (JStr "t9") (JStr "2024-01-01T00:00:09.000Z") (JStr "not-a-digest")
       JUndefined (JStr "{}") (JStr "operator-1") JUndefined None None None None.

(** The node and the transaction [createTransaction] returns for it. *)
Definition wrong_hash_stored : node * transaction :=
  match createTransaction project_node "u" "2024-01-01T00:00:10.000Z"
          payload_with_wrong_hash with
  | (n1, Ok tx) => (n1, tx)
  | (n1, Throw _) => (n1, payload_with_wrong_hash)
  end.

(** ** Verifiable chains *)

(** The transactions of a stored block, as every reader of [bchain] gets
    them. *)
Definition stored_transactions (r : bchain_row) : list transaction :=
  map tx_of_light (bc_transactions r).

(** Recomputing [merkleRoot] and [hash] from a stored block, with the same
    functions as the validator, gives the stored values. *)
Definition verifies (r : bchain_row) : Prop :=
  calculateMerkleRoot (stored_transactions r) = Ok (JStr (bc_merkleRoot r)) /\
  calculateBlockHash (block_of_row r) (stored_transactions r) = Ok (bc_hash r).

(** The genesis block of [initDb], known by its place and by its [hash],
    the digest of a fixed label. *)
Definition is_genesis (r : bchain_row) : Prop :=
  bc_blockIndex r = 0 /\ bc_transactions r = [] /\ bc_nonce r = 0 /\
  bc_previousBlockHash r = "0" /\ bc_hash r = genesis_hash.

(** The row [initDb] writes at the time of [authority_started]. *)
Definition genesis_row : bchain_row :=
  mkBchain 1 0 "2024-01-01T00:00:00.000Z" [] 0 genesis_hash "0" genesis_merkleRoot.

(** Either the chain is what it was or one row was appended to it. *)
Definition extends_by (ok : bchain_row -> Prop) (n n' : node) : Prop :=
  bchain (db n') = bchain (db n) \/
  exists row, ok row /\ bchain (db n') = bchain (db n) ++ [row].

(** The part of a received block that the storage and the digests need to
    be strings for the stored row to verify: [timestamp] and the leaf
    digests ([blockIndex] and [nonce] are integers by the type of
    [block]). *)
Definition well_typed (b : block) : bool :=
  is_str (blk_timestamp b)
  && match blk_transactions b with
     | Some txs => forallb (fun tx => is_str (tx_rowHash tx)) txs
     | None => true
     end.

(** What the chain invariant says of a row. *)
Definition sound_row (r : bchain_row) : Prop := is_genesis r \/ verifies r.

(** A node is started by [initDb] on an empty database file; it then
    serves submissions, receptions and mining requests, and, on its first
    start, may copy the chain that another such node sends.  [admitted]
    says which blocks the peers send it. *)
Section Reachable.

Variable admitted : block -> Prop.

Inductive reachable_by : node -> Prop :=
| reach_init (n0 n : node) (now : string) :
    bchain (db n0) = [] -> initDb n0 now = Ok n -> reachable_by n
| reach_submit (n : node) (uuid now : string) (post : string -> bool) (t : transaction) :
    reachable_by n -> reachable_by (fst (submitTransaction n uuid now post t))
| reach_receive_transaction (n : node) (uuid now : string) (t : transaction) :
    reachable_by n -> reachable_by (fst (receiveTransaction n uuid now t))
| reach_mine (n : node) (now : string) (post : string -> bool) :
    reachable_by n -> reachable_by (fst (mineBlockInternal n now post))
| reach_receive_block (n : node) (b : block) :
    reachable_by n -> admitted b -> reachable_by (fst (receiveBlock n b))
| reach_synchronize (n authority : node) :
    reachable_by n -> reachable_by authority ->
    reachable_by (synchronize n (Ok (Some (get_chain authority))))
| reach_synchronize_failed (n : node) (e : exn) :
    reachable_by n -> reachable_by (synchronize n (Throw e)).

End Reachable.

(** The nodes reached when received blocks have a string [timestamp] and
    string leaf digests. *)
Definition reachable : node -> Prop :=
  reachable_by (fun b => well_typed b = true).

(** A row to fall back on where a list of rows is known not to be empty. *)
Definition blank_row : mempool_row :=
  mkMempool "" "" "" "" None None None None None "" "".

(** ** Linked chains *)

(** The rows, in insertion order, carry the indices [i], [i + 1], ... and
    each names the [hash] of the row before it, the first one [prev]. *)
Fixpoint linked_from (i : Z) (prev : string) (rows : list bchain_row) : Prop :=
  match rows with
  | [] => True
  | r :: rest =>
      bc_blockIndex r = i /\ bc_previousBlockHash r = prev /\
      linked_from (i + 1) (bc_hash r) rest
  end.

(** A chain starts at index 0 on the previous hash ['0']. *)
Definition linked (rows : list bchain_row) : Prop := linked_from 0 "0" rows.

(** The index and the previous hash the next row has to carry. *)
Fixpoint tip (i : Z) (prev : string) (rows : list bchain_row) : Z * string :=
  match rows with
  | [] => (i, prev)
  | r :: rest => tip (i + 1) (bc_hash r) rest
  end.

(** The nodes reached whatever blocks the peers send. *)
Definition reachable_unrestricted : node -> Prop := reachable_by (fun _ => True).

(** ** Nodes in service *)

(** The directory of a node holds no address twice and never its own. *)
Definition directory_ok (n : node) : Prop :=
  NoDup (networkNodes n) /\ ~ In (myNodeUrl n) (networkNodes n).

(** The confirmed rows that carry the id of a block row. *)
Definition rows_of_block (d : database) (r : bchain_row) : list confirmed_row :=
  filter (fun c => c_block_id c =? bc_id r) (confirmed_transactions d).

(** An entry of the list kept in a block row names a confirmed row. *)
Definition lists (l : light_tx) (c : confirmed_row) : Prop :=
  Sql.bind_text (lt_transactionId l) = Some (c_transaction_id c) /\
  Sql.bind_text (lt_rowHash l) = Some (c_rowHash c).

(** What the three tables keep: the UNIQUE columns hold no value twice,
    the ids given to the block rows are distinct and not above the
    AUTOINCREMENT counter, every confirmed row points to a block row, and
    the confirmed rows of a block row are, one for one and in order, the
    entries of its [transactions] column. *)
Record store_ok (d : database) : Prop := mkStoreOk {
  mempool_ids_unique : NoDup (map m_transaction_id (mempool_transactions d));
  confirmed_ids_unique : NoDup (map c_transaction_id (confirmed_transactions d));
  block_indices_unique : NoDup (map bc_blockIndex (bchain d));
  block_ids_unique : NoDup (map bc_id (bchain d));
  block_ids_bounded : Forall (fun r => bc_id r <= bchain_seq d) (bchain d);
  confirmed_reference :
    Forall (fun c => In (c_block_id c) (map bc_id (bchain d))) (confirmed_transactions d);
  confirmed_of_block :
    Forall (fun r => Forall2 lists (bc_transactions r) (rows_of_block d r)) (bchain d)
}.

(** A node in service: a process started on an empty database file, or
    started again on the file of a node in service, with the module
    variables set from its command line and an empty directory, that then
    answers requests, whatever they carry, and runs its producer. *)
Inductive in_service : node -> Prop :=
| service_start (proj : jsval) (url now : string) (n : node) :
    initDb (mkNode (mkDb [] 0 [] []) proj url []) now = Ok n -> in_service n
| service_restart (n n1 : node) (proj : jsval) (url now : string) :
    in_service n -> initDb (mkNode (db n) proj url []) now = Ok n1 -> in_service n1
| service_synchronize (n : node) (fetched : result (option (list block))) :
    in_service n -> in_service (synchronize n fetched)
| service_submit (n : node) (uuid now : string) (post : string -> bool) (t : transaction) :
    in_service n -> in_service (fst (submitTransaction n uuid now post t))
| service_receive_transaction (n : node) (uuid now : string) (t : transaction) :
    in_service n -> in_service (fst (receiveTransaction n uuid now t))
| service_mine (n : node) (now : string) (post : string -> bool) :
    in_service n -> in_service (fst (mineBlockInternal n now post))
| service_receive_block (n : node) (b : block) :
    in_service n -> in_service (fst (receiveBlock n b))
| service_register_node (n : node) (newNodeUrl : option string) :
    in_service n -> in_service (fst (register_node n newNodeUrl))
| service_register_nodes_bulk (n : node) (allNetworkNodes : option (list string)) :
    in_service n -> in_service (fst (register_nodes_bulk n allNetworkNodes))
| service_register_and_broadcast_node (n : node) (newNodeUrl : option string)
    (answered : request -> bool) :
    in_service n ->
    in_service (fst (fst (register_and_broadcast_node n newNodeUrl answered))).

(** Every request of a registration is answered. *)
Definition every_request_answered (r : request) : bool := true.

(** The authority after two registrations. *)
Definition authority_with_directory : node :=
  fst (register_nodes_bulk
         (fst (register_node authority_mined (Some "http://localhost:3001")))
         (Some ["http://localhost:3002"; "http://localhost:3001";
                "http://localhost:3000"])).

(** ** Commits of pending rows *)

(** The confirmed row written for a pending row that is committed in the
    block whose row has id [block_id]. *)
Definition confirmed_of_pending (block_id : Z) (r : mempool_row) : confirmed_row :=
  mkConfirmed (m_transaction_id r) block_id (m_projId r) (m_timestamp r)
              (m_submitter_id r) (m_station_id r)
              (m_so2 r) (m_no2 r) (m_pm10 r) (m_pm2_5 r)
              (m_raw_data_json r) (m_rowHash r).

(** A block of pending rows, as [buildBlock] makes it, and the block row
    written for it under the id [id]. *)
Definition block_of_pending (i : Z) (now prev root h : string) (rows : list mempool_row)
    : block :=
  mkBlock (Some i) (JStr now) (Some (map tx_of_row rows)) (JStr root) (JStr prev)
          (Some 0) (JStr h).

Definition row_of_pending (id i : Z) (now prev root h : string) (rows : list mempool_row)
    : bchain_row :=
  mkBchain id i now (lightweightTransactions (map tx_of_row rows)) 0 h prev root.

(** The node after the commit of a block of pending rows and the pruning
    of the mempool. *)
Definition committed (p : node) (i : Z) (now prev root h : string)
    (rows : list mempool_row) : node :=
  removeTransactionsFromMempool
    (with_db p (mkDb (bchain (db p)
                      ++ [row_of_pending (bchain_seq (db p) + 1) i now prev root h rows])
                     (bchain_seq (db p) + 1)
                     (mempool_transactions (db p))
                     (confirmed_transactions (db p)
                      ++ map (confirmed_of_pending (bchain_seq (db p) + 1)) rows)))
    (map tx_transactionId (map tx_of_row rows)).

(** The value is a hex digest. *)
Definition digest (v : jsval) : Prop := exists x, v = JStr (sha256 x).

(** One of the rows carries one of the ids. *)
Definition replayed (ids : list string) (rows : list mempool_row) : Prop :=
  exists r, In r rows /\ In (m_transaction_id r) ids.

(** The strings of a list are pairwise different. *)
Fixpoint distinct (l : list string) : bool :=
  match l with
  | [] => true
  | x :: rest => negb (existsb (String.eqb x) rest) && distinct rest
  end.

(** The block the authority builds out of its five readings. *)
Definition first_block : block :=
  match buildBlock authority_pending "2024-01-01T00:01:00.000Z" with
  | Ok b => b
  | Throw _ => linked_block
  end.

(** A project node that has copied the chain of the authority at its
    start. *)
Definition joiner_in_step : node :=
  synchronize joiner (Ok (Some (get_chain authority_started))).

(** A reading sent again under the id of a confirmed transaction, and the
    authority with that reading and four new ones pending. *)
Definition reading_sent_again : transaction :=
  mkTx (JStr "7d3c1a52000040008000000000000001") JUndefined JUndefined JUndefined
       JUndefined (JStr "operator-1") (JStr "station-7")
       (Some 11) (Some 23) (Some 40) (Some 18).

Definition authority_replayed : node :=
  submit_reading "9" (submit_reading "8" (submit_reading "7" (submit_reading "6"
    (fst (submitTransaction authority_mined "7d3c1a52-0000-4000-8000-00000000000a"
            "2024-01-01T00:02:00.000Z" all_peers_answer reading_sent_again))))).

(** ** Transactions and blocks in transit *)

(** A transaction object as the peer reads it from the request that
    carries it: [JSON.stringify] leaves out the properties that are
    [undefined] and writes NaN as [null]. *)
Definition on_the_wire (t : transaction) : transaction :=
  mkTx (json_roundtrip (tx_transactionId t)) (json_roundtrip (tx_timestamp t))
       (json_roundtrip (tx_rowHash t)) (json_roundtrip (tx_projId t))
       (json_roundtrip (tx_rawDataJson t)) (json_roundtrip (tx_submitterId t))
       (json_roundtrip (tx_stationID t))
       (tx_SO2 t) (tx_NO2 t) (tx_PM10 t) (tx_PM2_5 t).

(** The transaction with another [transactionId] and [timestamp]. *)
Definition with_id_and_timestamp (t : transaction) (id ts : string) : transaction :=
  mkTx (JStr id) (JStr ts) (tx_rowHash t) (tx_projId t) (tx_rawDataJson t)
       (tx_submitterId t) (tx_stationID t)
       (tx_SO2 t) (tx_NO2 t) (tx_PM10 t) (tx_PM2_5 t).

(** The transaction with another station and other measurements. *)
Definition remeasured (t : transaction) (stationID : jsval)
    (SO2 NO2 PM10 PM2_5 : option Z) : transaction :=
  mkTx (tx_transactionId t) (tx_timestamp t) (tx_rowHash t) (tx_projId t)
       (tx_rawDataJson t) (tx_submitterId t) stationID SO2 NO2 PM10 PM2_5.

(** Two transactions that differ in [stationID] and in the four
    measurements at most. *)
Definition same_identity (t t' : transaction) : Prop :=
  exists stationID SO2 NO2 PM10 PM2_5, t' = remeasured t stationID SO2 NO2 PM10 PM2_5.

(** The block with another list of transactions. *)
Definition with_transactions (b : block) (txs : list transaction) : block :=
  mkBlock (blk_blockIndex b) (blk_timestamp b) (Some txs) (blk_merkleRoot b)
          (blk_previousBlockHash b) (blk_nonce b) (blk_hash b).

(** The confirmed row holds every column of the transaction. *)
Definition records (block_id : Z) (tx : transaction) (row : confirmed_row) : Prop :=
  confirms block_id tx row /\
  c_station_id row = Sql.bind_text (tx_stationID tx) /\
  c_so2 row = tx_SO2 tx /\ c_no2 row = tx_NO2 tx /\
  c_pm10 row = tx_PM10 tx /\ c_pm2_5 row = tx_PM2_5 tx.

(** The node and the transaction of the first submission to the
    authority. *)
Definition first_reading_stored : node * transaction :=
  match createTransaction authority_started "7d3c1a52-0000-4000-8000-000000000001"
          "2024-01-01T00:00:01.000Z" (reading "1") with
  | (n1, Ok tx) => (n1, tx)
  | (n1, Throw _) => (n1, reading "1")
  end.

(** The transactions of [first_block] with station and measurements
    replaced. *)
Definition zeroed (t : transaction) : transaction :=
  remeasured t (JStr "station-0") (Some 0) (Some 0) (Some 0) (Some 0).

(** ** Values as the tables keep them *)

(** A TEXT column that was bound a string holds that string. *)
Definition text_kept (v : jsval) (column : string) : Prop :=
  forall s, v = JStr s -> column = s.

(** A property that is a string or missing. *)
Definition optional_text (o : option string) : jsval :=
  match o with Some s => JStr s | None => JUndefined end.

(** A number of the value, if the value is one, is below 10^15 in absolute
    value. *)
Definition small (v : jsval) : bool :=
  match v with JNum n => Z.abs n <? 10 ^ 15 | _ => true end.

Definition small_transaction (t : transaction) : bool :=
  forallb small [tx_transactionId t; tx_timestamp t; tx_rowHash t; tx_projId t;
                 tx_rawDataJson t; tx_submitterId t; tx_stationID t;
                 jsnum (tx_SO2 t); jsnum (tx_NO2 t); jsnum (tx_PM10 t);
                 jsnum (tx_PM2_5 t)].

(** The row of [bchain] written for a block, as far as the block's fields
    are integers and strings. *)
Definition heads_text (b : block) (row : bchain_row) : Prop :=
  blk_blockIndex b = Some (bc_blockIndex row) /\
  blk_nonce b = Some (bc_nonce row) /\
  text_kept (blk_timestamp b) (bc_timestamp row) /\
  text_kept (blk_hash b) (bc_hash row) /\
  text_kept (blk_previousBlockHash b) (bc_previousBlockHash row) /\
  text_kept (blk_merkleRoot b) (bc_merkleRoot row).

(** The row of [confirmed_transactions] holds the station and the
    measurements of the transaction. *)
Definition measured (tx : transaction) (row : confirmed_row) : Prop :=
  (forall station, tx_stationID tx = optional_text station -> c_station_id row = station) /\
  c_so2 row = tx_SO2 tx /\ c_no2 row = tx_NO2 tx /\
  c_pm10 row = tx_PM10 tx /\ c_pm2_5 row = tx_PM2_5 tx.

(** The row of [confirmed_transactions] written for a transaction of the
    block whose row has id [block_id], as far as the fields of the
    transaction are strings. *)
Definition confirms_text (block_id : Z) (tx : transaction) (row : confirmed_row) : Prop :=
  c_block_id row = block_id /\
  text_kept (tx_transactionId tx) (c_transaction_id row) /\
  text_kept (tx_projId tx) (c_projId row) /\
  text_kept (tx_timestamp tx) (c_timestamp row) /\
  text_kept (tx_submitterId tx) (c_submitter_id row) /\
  text_kept (tx_rawDataJson tx) (c_raw_data_json row) /\
  text_kept (tx_rowHash tx) (c_rowHash row) /\
  measured tx row.

(** Two confirmed rows that differ in the station and in the four
    measurements at most. *)
Definition same_but_measured (row row' : confirmed_row) : Prop :=
  c_transaction_id row' = c_transaction_id row /\ c_block_id row' = c_block_id row /\
  c_projId row' = c_projId row /\ c_timestamp row' = c_timestamp row /\
  c_submitter_id row' = c_submitter_id row /\
  c_raw_data_json row' = c_raw_data_json row /\ c_rowHash row' = c_rowHash row.

(** An entry of the list kept in a block row names a confirmed row, as far
    as its two fields are strings. *)
Definition lists_text (l : light_tx) (c : confirmed_row) : Prop :=
  text_kept (lt_transactionId l) (c_transaction_id c) /\
  text_kept (lt_rowHash l) (c_rowHash c).

(** Two transactions that differ at most in the station, which is a string
    or missing in the second, and in the four measurements. *)
Definition remeasures (t t' : transaction) : Prop :=
  exists station SO2 NO2 PM10 PM2_5,
    t' = remeasured t (optional_text station) SO2 NO2 PM10 PM2_5.

(** The rows a block that is not well typed may leave: those that carry
    its [hash]. *)
Definition row_of (marked : block -> Prop) (r : bchain_row) : Prop :=
  exists b, marked b /\ blk_hash b = JStr (bc_hash r).

(** What the chain invariant says of a row: it is the genesis row, it
    verifies, or it is the row of a marked block. *)
Definition sound_or (marked : block -> Prop) (r : bchain_row) : Prop :=
  is_genesis r \/ verifies r \/ row_of marked r.

(** A transaction whose three hashed fields are numbers. *)
Definition numeric_transaction : transaction :=
  mkTx (JNum 7) (JNum 1700000000) (JStr "h") (JStr "1") (JNum 1)
       (JStr "operator-1") JUndefined None None None None.

(** ** Chains as they are listed and copied *)

(** The hash of the last row of a list of rows, ['0'] for none. *)
Definition hash_of_last (rows : list bchain_row) : string :=
  match rev rows with
  | r :: _ => bc_hash r
  | [] => "0"
  end.

(** The blocks at the head of a chain that hold no transaction. *)
Fixpoint leading_empty (rows : list bchain_row) : list bchain_row :=
  match rows with
  | [] => []
  | r :: rest =>
      match bc_transactions r with
      | [] => r :: leading_empty rest
      | _ :: _ => []
      end
  end.

(** The rows written when rows without transactions are committed again
    on a database whose AUTOINCREMENT counter is [seq]. *)
Fixpoint copies (seq : Z) (rows : list bchain_row) : list bchain_row :=
  match rows with
  | [] => []
  | r :: rest =>
      mkBchain (seq + 1) (bc_blockIndex r) (bc_timestamp r) [] (bc_nonce r)
               (bc_hash r) (bc_previousBlockHash r) (bc_merkleRoot r)
      :: copies (seq + 1) rest
  end.

(* ================================================================== *)
(** * Properties *)
(* ================================================================== *)

(** ** Test vectors of the embedding *)

Example sha256_abc :
  sha256 "abc" = "ba7816bf8f01cfea414140de5dae2223b00361a396177a9cb410ff61f20015ad".
Proof. vm_compute. reflexivity. Qed.

Example sha256_empty :
  sha256 "" = "e3b0c44298fc1c149afbf4c8996fb92427ae41e4649b934ca495991b7852b855".
Proof. vm_compute. reflexivity. Qed.

Example sha256_two_blocks :
  sha256 "abcdbcdecdefdefgefghfghighijhijkijkljklmklmnlmnomnopnopq"
  = "248d6a61d20638b8e5c026930c3e6039a33ce45964ff2167f6ecedd419db06c1".
Proof. vm_compute. reflexivity. Qed.

Example string_of_Z_samples :
  (string_of_Z 0, string_of_Z 12, string_of_Z (-5)) = ("0", "12", "-5").
Proof. reflexivity. Qed.

Example json_object_sample :
  json_object [("id", JStr "a"); ("hash", JUndefined); ("n", JNum 3)]
  = "{" +++ dq +++ "id" +++ dq +++ ":" +++ dq +++ "a" +++ dq +++ ","
        +++ dq +++ "n" +++ dq +++ ":3}".
Proof. reflexivity. Qed.

(** ** Basic facts about the embedding *)

Lemma with_db_same (n : node) : with_db n (db n) = n.
Proof. destruct n; reflexivity. Qed.

Lemma with_db_db (n : node) (d : database) : db (with_db n d) = d.
Proof. reflexivity. Qed.

Lemma strict_eq_true (a b : jsval) : strict_eq a b = true -> a = b.
Proof.
  destruct a, b; simpl; try discriminate; intros H; try reflexivity.
  - apply Bool.eqb_prop in H; congruence.
  - apply Z.eqb_eq in H; congruence.
  - apply String.eqb_eq in H; congruence.
Qed.

Lemma strict_eq_str (s : string) (v : jsval) :
  strict_eq (JStr s) v = true <-> v = JStr s.
Proof.
  split.
  - intros H. symmetry. now apply strict_eq_true.
  - intros ->. simpl. apply String.eqb_refl.
Qed.

Lemma truthy_str (s : string) : truthy (JStr s) = true <-> s <> "".
Proof.
  simpl. rewrite negb_true_iff. apply String.eqb_neq.
Qed.

(** *** The loop of [calculateMerkleRoot] ends within its fuel *)

Lemma pair_up_length (hashes r : list jsval) :
  pair_up hashes = Ok r -> List.length r = Nat.div2 (S (List.length hashes)).
Proof.
  revert r.
  induction hashes as [hashes IH] using (well_founded_induction
    (Wf_nat.well_founded_ltof _ (@List.length jsval))).
  destruct hashes as [|a [|b rest]]; simpl; intros r H.
  - now inversion H.
  - destruct (sha256_update (js_add a JUndefined)); simpl in H; inversion H; reflexivity.
  - destruct (sha256_update (js_add a b)); simpl in H; [|discriminate].
    destruct (pair_up rest) as [r'|] eqn:E; simpl in H; [|discriminate].
    inversion H; subst; simpl. f_equal.
    apply IH; [unfold Wf_nat.ltof; simpl; lia | exact E].
Qed.

Lemma duplicate_last_length (hashes : list jsval) :
  List.length (duplicate_last hashes)
  = if Nat.odd (List.length hashes) then S (List.length hashes) else List.length hashes.
Proof.
  unfold duplicate_last. destruct (Nat.odd _); [|reflexivity].
  rewrite length_app; simpl; lia.
Qed.

Lemma div2_lt (k : nat) : (2 <= k)%nat -> (Nat.div2 (S k) < k)%nat.
Proof.
  intros H. pose proof (Nat.div2_odd (S k)) as E.
  destruct (Nat.odd (S k)); simpl Nat.b2n in E; lia.
Qed.

Lemma pair_up_shrinks (hashes r : list jsval) :
  (2 <= List.length hashes)%nat ->
  pair_up (duplicate_last hashes) = Ok r ->
  (List.length r < List.length hashes)%nat.
Proof.
  intros Hlen H. apply pair_up_length in H. rewrite H, duplicate_last_length.
  destruct (Nat.odd (List.length hashes)) eqn:Hodd.
  - rewrite <- Nat.negb_even in Hodd. apply negb_true_iff in Hodd.
    pose proof (Nat.div2_odd (S (S (List.length hashes)))) as E.
    pose proof (Nat.div2_odd (List.length hashes)) as E'.
    rewrite <- Nat.negb_even, Hodd in E'. simpl Nat.b2n in E'.
    simpl Nat.div2 in *. 
    destruct (Nat.odd (S (S (List.length hashes)))); simpl Nat.b2n in E; lia.
  - now apply div2_lt.
Qed.

(** X4: with as many passes as there are hashes the [while] loop of
    [calculateMerkleRoot] has left through its exit test: when it returns,
    at most one hash is left, so the bound on the passes never cuts the loop
    short. *)
Theorem merkle_loop_done (fuel : nat) (hashes r : list jsval) :
  (List.length hashes <= fuel)%nat ->
  merkle_loop fuel hashes = Ok r ->
  (List.length r <= 1)%nat.
Proof.
  revert hashes r. induction fuel as [|f IH]; intros hashes r Hlen H.
  - simpl in H. inversion H; subst. lia.
  - simpl in H. destruct (1 <? List.length hashes)%nat eqn:Hgt.
    + apply Nat.ltb_lt in Hgt.
      destruct (pair_up (duplicate_last hashes)) as [nh|] eqn:E; simpl in H; [|discriminate].
      apply (IH nh r); [|exact H].
      pose proof (pair_up_shrinks hashes nh ltac:(lia) E). lia.
    + apply Nat.ltb_ge in Hgt. inversion H; subst. exact Hgt.
Qed.

(** X4, an instance: three leaves. *)
Lemma merkle_loop_done_witness :
  exists r, merkle_loop 3 [JStr "a"; JStr "b"; JStr "c"] = Ok r /\
            (List.length r <= 1)%nat.
Proof.
  eexists. split.
  - reflexivity.
  - apply (merkle_loop_done 3 [JStr "a"; JStr "b"; JStr "c"]).
    + simpl. lia.
    + reflexivity.
Defined.

(* ================================================================== *)
(** ** The merkle root of short lists (C3) *)
(* ================================================================== *)

(** C3, as stated, fails: for the one-leaf list with leaf digest
    [d = sha256 "tx"], [calculateMerkleRoot] returns [d], which is not
    [sha256 (d ++ d)]. *)
Lemma single_leaf_root_is_not_pair_hash :
  calculateMerkleRoot [leaf (sha256 "tx")] = Ok (JStr (sha256 "tx")) /\
  String.eqb (sha256 "tx") (sha256 (sha256 "tx" +++ sha256 "tx")) = false.
Proof.
  split.
  - reflexivity.
  - vm_compute. reflexivity.
Qed.

(** C3, amended: the [while] loop is not entered for one hash, so the root
    of a single-transaction list is that transaction's [rowHash] itself,
    whatever it is; duplication of the last hash starts with odd levels of
    three or more, e.g. the root of [a; b; c] is
    [sha256 (sha256 (a ++ b) ++ sha256 (c ++ c))]. *)
Theorem merkle_root_single_leaf :
  (forall tx : transaction, calculateMerkleRoot [tx] = Ok (tx_rowHash tx)) /\
  (forall a b c : string,
      calculateMerkleRoot [leaf a; leaf b; leaf c]
      = Ok (JStr (sha256 (sha256 (a +++ b) +++ sha256 (c +++ c))))).
Proof.
  split.
  - intros tx. unfold calculateMerkleRoot. simpl. reflexivity.
  - intros a b c. unfold calculateMerkleRoot. simpl. reflexivity.
Qed.

(* ================================================================== *)
(** ** The commit of a block (C2) *)
(* ================================================================== *)

Lemma not_null_ok {A : Type} (column : string) (v : option A) (a : A) :
  Sql.not_null column v = Ok a -> v = Some a.
Proof. destruct v; simpl; intros H; inversion H; reflexivity. Qed.

(** Destructs the chain of NOT NULL and UNIQUE checks of an INSERT that
    returned [Ok]. *)
Ltac insert_ok H :=
  repeat match type of H with
         | bind (Sql.not_null ?c ?v) _ = Ok _ =>
             let E := fresh "E" in
             destruct (Sql.not_null c v) eqn:E; simpl in H; [|discriminate H];
             apply not_null_ok in E
         | bind (Sql.unique ?c ?t) _ = Ok _ =>
             let E := fresh "U" in
             destruct t eqn:E; simpl in H; [discriminate H|]
         end.

Lemma insert_confirmed_ok (d d' : database) (block_id : Z) (tx : transaction) :
  Sql.insert_confirmed d block_id tx = Ok d' ->
  exists row, confirms block_id tx row /\
    d' = mkDb (bchain d) (bchain_seq d) (mempool_transactions d)
              (confirmed_transactions d ++ [row]).
Proof.
  unfold Sql.insert_confirmed. intros H. insert_ok H.
  inversion H; subst; clear H.
  eexists; split; [|reflexivity].
  unfold confirms; simpl. repeat split; assumption.
Qed.

Lemma insert_confirmed_all_ok (txs : list transaction) :
  forall (d d' : database) (block_id : Z),
    insert_confirmed_all d block_id txs = Ok d' ->
    exists rows, Forall2 (confirms block_id) txs rows /\
      d' = mkDb (bchain d) (bchain_seq d) (mempool_transactions d)
                (confirmed_transactions d ++ rows).
Proof.
  induction txs as [|tx rest IH]; simpl; intros d d' block_id H.
  - inversion H; subst. exists []. split; [constructor|].
    rewrite app_nil_r. destruct d'; reflexivity.
  - destruct (Sql.insert_confirmed d block_id tx) as [d1|] eqn:E; simpl in H;
      [|discriminate H].
    apply insert_confirmed_ok in E. destruct E as [row [Hrow ->]].
    apply IH in H. destruct H as [rows [Hrows ->]]. simpl.
    exists (row :: rows). split; [constructor; assumption|].
    now rewrite <- app_assoc.
Qed.

Lemma insert_bchain_ok (d d' : database) (id : Z) (b : block) (txs : list transaction) :
  blk_transactions b = Some txs ->
  Sql.insert_bchain d (blk_blockIndex b) (blk_timestamp b)
    (lightweightTransactions txs) (blk_nonce b)
    (blk_hash b) (blk_previousBlockHash b) (blk_merkleRoot b) = Ok (d', id) ->
  exists row, heads b row /\ bc_id row = id /\ id = bchain_seq d + 1 /\
    existsb (fun r => bc_blockIndex r =? bc_blockIndex row) (bchain d) = false /\
    d' = mkDb (bchain d ++ [row]) id (mempool_transactions d) (confirmed_transactions d).
Proof.
  unfold Sql.insert_bchain. intros Htx H. insert_ok H.
  inversion H; subst; clear H.
  eexists; repeat split; simpl; try eassumption; try reflexivity.
  intros txs' E'. congruence.
Qed.

(** The outcome of [addBlockToBlockchain] in full. *)
Lemma addBlock_cases (n : node) (b : block) :
  (exists e, addBlockToBlockchain n b = (n, Throw e)) \/
  (exists txs row rows,
      blk_transactions b = Some txs /\ heads b row /\
      bc_id row = bchain_seq (db n) + 1 /\
      existsb (fun r => bc_blockIndex r =? bc_blockIndex row) (bchain (db n)) = false /\
      Forall2 (confirms (bc_id row)) txs rows /\
      addBlockToBlockchain n b
      = (with_db n (mkDb (bchain (db n) ++ [row]) (bc_id row)
                         (mempool_transactions (db n))
                         (confirmed_transactions (db n) ++ rows)), Ok tt)).
Proof.
  unfold addBlockToBlockchain.
  destruct (blk_transactions b) as [txs|] eqn:Htx; [|left; eauto].
  destruct (Sql.insert_bchain _ _ _ _ _ _ _ _) as [[d1 id]|e] eqn:E1;
    [|left; exists e; now rewrite with_db_same].
  destruct (insert_confirmed_all d1 id txs) as [d2|e] eqn:E2;
    [|left; exists e; now rewrite with_db_same].
  right.
  destruct (insert_bchain_ok _ _ _ _ _ Htx E1) as [row [Hrow [Hid [Hseq [Hfresh ->]]]]].
  apply insert_confirmed_all_ok in E2. destruct E2 as [rows [Hrows ->]]. simpl.
  subst id. exists txs, row, rows.
  repeat split; try assumption; apply Hrow.
Qed.

(** C2, as stated, fails: a commit that succeeds, header and confirmed row
    written, leaves the block's transaction id in the mempool. *)
Lemma commit_leaves_mempool :
  snd (addBlockToBlockchain node_with_pending_t1 block_of_t1) = Ok tt /\
  map bc_blockIndex (bchain (db (fst (addBlockToBlockchain node_with_pending_t1 block_of_t1)))) = [0] /\
  map c_transaction_id
      (confirmed_transactions (db (fst (addBlockToBlockchain node_with_pending_t1 block_of_t1)))) = ["t1"] /\
  map m_transaction_id
      (mempool_transactions (db (fst (addBlockToBlockchain node_with_pending_t1 block_of_t1)))) = ["t1"].
Proof. vm_compute. repeat split. Qed.

Lemma bind_text_kept (v : jsval) (s : string) :
  Sql.bind_text v = Some s -> text_kept v s.
Proof. intros H x ->. simpl in H. congruence. Qed.

Lemma bind_text_optional (v : jsval) (station : option string) :
  v = optional_text station -> Sql.bind_text v = station.
Proof. intros ->. destruct station; reflexivity. Qed.

(** An INSERT into [confirmed_transactions] that succeeds, in full. *)
Lemma insert_confirmed_text (d d' : database) (block_id : Z) (tx : transaction) :
  Sql.insert_confirmed d block_id tx = Ok d' ->
  exists row, confirms block_id tx row /\ confirms_text block_id tx row /\
    d' = mkDb (bchain d) (bchain_seq d) (mempool_transactions d)
              (confirmed_transactions d ++ [row]).
Proof.
  unfold Sql.insert_confirmed. intros H. insert_ok H.
  inversion H; subst; clear H.
  eexists; split; [|split; [|reflexivity]].
  - unfold confirms; simpl. repeat split; assumption.
  - unfold confirms_text, measured; simpl.
    repeat split; try (now apply bind_text_kept).
    intros station Hs. now apply bind_text_optional.
Qed.

Lemma insert_confirmed_all_text (txs : list transaction) :
  forall (d d' : database) (block_id : Z),
    insert_confirmed_all d block_id txs = Ok d' ->
    exists rows, Forall2 (confirms block_id) txs rows /\
      Forall2 (confirms_text block_id) txs rows /\
      d' = mkDb (bchain d) (bchain_seq d) (mempool_transactions d)
                (confirmed_transactions d ++ rows).
Proof.
  induction txs as [|tx rest IH]; simpl; intros d d' block_id H.
  - inversion H; subst. exists []. split; [constructor|]. split; [constructor|].
    rewrite app_nil_r. destruct d'; reflexivity.
  - destruct (Sql.insert_confirmed d block_id tx) as [d1|] eqn:E; simpl in H;
      [|discriminate H].
    apply insert_confirmed_text in E. destruct E as [row [Hrow [Htext ->]]].
    apply IH in H. destruct H as [rows [Hrows [Htexts ->]]]. simpl.
    exists (row :: rows). split; [constructor; assumption|].
    split; [constructor; assumption|].
    now rewrite <- app_assoc.
Qed.

Lemma heads_heads_text (b : block) (row : bchain_row) : heads b row -> heads_text b row.
Proof.
  intros [Hix [Hts [Hnc [Hh [Hp [Hmr _]]]]]].
  unfold heads_text. repeat split; try assumption; now apply bind_text_kept.
Qed.

(** The outcome of a commit that succeeds, in full. *)
Lemma addBlock_committed (n n' : node) (b : block) :
  addBlockToBlockchain n b = (n', Ok tt) ->
  exists txs row rows,
    blk_transactions b = Some txs /\ heads b row /\
    bc_id row = bchain_seq (db n) + 1 /\
    Forall2 (confirms (bc_id row)) txs rows /\
    Forall2 (confirms_text (bc_id row)) txs rows /\
    n' = with_db n (mkDb (bchain (db n) ++ [row]) (bc_id row)
                         (mempool_transactions (db n))
                         (confirmed_transactions (db n) ++ rows)).
Proof.
  unfold addBlockToBlockchain.
  destruct (blk_transactions b) as [txs|] eqn:Htx; [|discriminate].
  destruct (Sql.insert_bchain _ _ _ _ _ _ _ _) as [[d1 id]|e] eqn:E1; [|discriminate].
  destruct (insert_confirmed_all d1 id txs) as [d2|e] eqn:E2; [|discriminate].
  intros H. inversion H; subst n'; clear H.
  destruct (insert_bchain_ok _ _ _ _ _ Htx E1) as [row [Hrow [Hid [Hseq [_ ->]]]]].
  apply insert_confirmed_all_text in E2. destruct E2 as [rows [Hrows [Htexts ->]]].
  simpl. subst id. exists txs, row, rows.
  repeat split; try assumption; try apply Hrow.
Qed.

(** C2, amended: [addBlockToBlockchain] is all or nothing on two steps:
    either the block row and one confirmed row per transaction, tagged
    with the id of the new block row, are appended, or the node is left as
    it was; in both cases the mempool is what it was before the call
    (removing the ids is a separate call of its callers).  The confirmed
    rows are given up to the order in which their INSERTs complete, and
    with the fields of the block and of its transactions that are integers
    and strings. *)
Theorem addBlock_atomic_on_chain_and_confirmed (n : node) (b : block) :
  let (n', r) := addBlockToBlockchain n b in
  mempool_transactions (db n') = mempool_transactions (db n) /\
  match r with
  | Throw _ => n' = n
  | Ok _ =>
      exists txs row rows arranged,
        blk_transactions b = Some txs /\
        heads_text b row /\
        bc_id row = bchain_seq (db n) + 1 /\
        bchain (db n') = bchain (db n) ++ [row] /\
        confirmed_transactions (db n') = confirmed_transactions (db n) ++ rows /\
        Permutation arranged rows /\
        Forall2 (confirms_text (bc_id row)) txs arranged
  end.
Proof.
  destruct (addBlockToBlockchain n b) as [n' [[]|e]] eqn:E.
  - destruct (addBlock_committed n n' b E)
      as [txs [row [rows [Htx [Hrow [Hid [_ [Htexts ->]]]]]]]].
    split; [reflexivity|].
    exists txs, row, rows, rows. simpl.
    repeat match goal with |- _ /\ _ => split end;
      try assumption; try reflexivity.
    now apply heads_heads_text.
  - destruct (addBlock_cases n b) as [[e' E']|[txs [row [rows [_ [_ [_ [_ [_ E']]]]]]]]];
      rewrite E' in E; inversion E; subst; split; reflexivity.
Qed.

(* ================================================================== *)
(** ** Block production *)
(* ================================================================== *)

(** *** The byte order on strings is a total preorder *)

Lemma ascii_compare_lt_trans (a b c : ascii) :
  Ascii.compare a b = Lt -> Ascii.compare b c = Lt -> Ascii.compare a c = Lt.
Proof.
  unfold Ascii.compare. rewrite !N.compare_lt_iff. apply N.lt_trans.
Qed.

Lemma string_compare_lt_trans (a : string) :
  forall b c, String.compare a b = Lt -> String.compare b c = Lt ->
              String.compare a c = Lt.
Proof.
  induction a as [|x a IH]; intros [|y b] [|z c]; simpl; try congruence.
  destruct (Ascii.compare x y) eqn:Hxy; try discriminate;
    destruct (Ascii.compare y z) eqn:Hyz; try discriminate; intros H1 H2.
  - apply Ascii.compare_eq_iff in Hxy, Hyz. subst.
    assert (Ascii.compare z z = Eq) as -> by (unfold Ascii.compare; apply N.compare_refl).
    eapply IH; eassumption.
  - apply Ascii.compare_eq_iff in Hxy. subst. now rewrite Hyz.
  - apply Ascii.compare_eq_iff in Hyz. subst. now rewrite Hxy.
  - now rewrite (ascii_compare_lt_trans _ _ _ Hxy Hyz).
Qed.

Lemma string_leb_trans (a b c : string) :
  String.leb a b = true -> String.leb b c = true -> String.leb a c = true.
Proof.
  unfold String.leb.
  destruct (String.compare a b) eqn:Hab; try discriminate;
    destruct (String.compare b c) eqn:Hbc; try discriminate; intros _ _.
  - apply String.compare_eq_iff in Hab. subst. now rewrite Hbc.
  - apply String.compare_eq_iff in Hab. subst. now rewrite Hbc.
  - apply String.compare_eq_iff in Hbc. subst. now rewrite Hab.
  - now rewrite (string_compare_lt_trans _ _ _ Hab Hbc).
Qed.

(** *** [ORDER BY timestamp ASC LIMIT k] *)

Lemma ts_le_trans (a b c : mempool_row) : ts_le a b -> ts_le b c -> ts_le a c.
Proof. apply string_leb_trans. Qed.

Lemma ts_le_total (a b : mempool_row) : ts_le a b \/ ts_le b a.
Proof. apply String.leb_total. Qed.

Lemma insert_by_timestamp_perm (r : mempool_row) (l : list mempool_row) :
  Permutation (Sql.insert_by_timestamp r l) (r :: l).
Proof.
  induction l as [|x l IH]; simpl; [reflexivity|].
  destruct (String.leb _ _); [reflexivity|].
  rewrite IH. apply perm_swap.
Qed.

Lemma order_by_timestamp_perm (l : list mempool_row) :
  Permutation (Sql.order_by_timestamp l) l.
Proof.
  induction l as [|r l IH]; simpl; [reflexivity|].
  rewrite insert_by_timestamp_perm. now constructor.
Qed.

Lemma insert_by_timestamp_sorted (r : mempool_row) (l : list mempool_row) :
  StronglySorted ts_le l -> StronglySorted ts_le (Sql.insert_by_timestamp r l).
Proof.
  induction l as [|x l IH]; simpl; intros Hs.
  - repeat constructor.
  - inversion Hs as [|? ? Hl Hx]; subst.
    destruct (String.leb (m_timestamp r) (m_timestamp x)) eqn:E.
    + constructor; [assumption|]. constructor; [exact E|].
      eapply Forall_impl; [|exact Hx]. intros y Hy. eapply ts_le_trans; eassumption.
    + constructor; [now apply IH|].
      rewrite (insert_by_timestamp_perm r l). constructor; [|assumption].
      destruct (ts_le_total r x) as [H|H]; [unfold ts_le in H; congruence|exact H].
Qed.

Lemma order_by_timestamp_sorted (l : list mempool_row) :
  StronglySorted ts_le (Sql.order_by_timestamp l).
Proof.
  induction l as [|r l IH]; simpl; [constructor|].
  now apply insert_by_timestamp_sorted.
Qed.

Lemma in_firstn {A : Type} (k : nat) (l : list A) (x : A) :
  In x (firstn k l) -> In x l.
Proof.
  intros H. rewrite <- (firstn_skipn k l). apply in_or_app. now left.
Qed.

Lemma in_skipn {A : Type} (k : nat) (l : list A) (x : A) :
  In x (skipn k l) -> In x l.
Proof.
  intros H. rewrite <- (firstn_skipn k l). apply in_or_app. now right.
Qed.

Lemma sorted_firstn (k : nat) (l : list mempool_row) :
  StronglySorted ts_le l ->
  StronglySorted ts_le (firstn k l) /\
  (forall c r, In c (firstn k l) -> In r (skipn k l) -> ts_le c r).
Proof.
  revert l. induction k as [|k IH]; intros l Hs.
  - simpl. split; [constructor|]. intros c r [].
  - destruct l as [|x l]; simpl.
    + split; [constructor|]. intros c r [].
    + inversion Hs as [|? ? Hl Hx]; subst.
      destruct (IH l Hl) as [Hf Hle]. split.
      * constructor; [assumption|].
        rewrite Forall_forall in *. intros y Hy. apply Hx.
        eapply in_firstn; eassumption.
      * intros c r [<-|Hc] Hr.
        -- rewrite Forall_forall in Hx. apply Hx. eapply in_skipn; eassumption.
        -- now apply Hle.
Qed.

(** *** Hashing never throws on string digests *)

Lemma is_str_true (v : jsval) : is_str v = true -> exists s, v = JStr s.
Proof. destruct v; simpl; try discriminate. eauto. Qed.

Lemma js_add_str_r (v : jsval) (s : string) :
  js_add v (JStr s) = JStr (ToString v +++ s).
Proof. destruct v; reflexivity. Qed.

Lemma js_add_str_l (s : string) (v : jsval) :
  js_add (JStr s) v = JStr (s +++ ToString v).
Proof. destruct v; reflexivity. Qed.

Lemma pair_up_str (k : nat) :
  forall hashes, (List.length hashes <= k)%nat ->
    forallb is_str hashes = true ->
    exists r, pair_up hashes = Ok r /\ forallb is_str r = true /\
              (hashes <> [] -> r <> []).
Proof.
  induction k as [|k IH]; intros hashes Hlen Hall.
  - destruct hashes; [|simpl in Hlen; lia]. exists []. repeat split; auto.
  - destruct hashes as [|a [|b rest]].
    + exists []. repeat split; auto.
    + simpl in Hall. rewrite andb_true_r in Hall.
      apply is_str_true in Hall. destruct Hall as [s ->].
      simpl. eexists; split; [reflexivity|]. split; [reflexivity|discriminate].
    + simpl in Hall. apply andb_true_iff in Hall. destruct Hall as [Ha Hall].
      apply andb_true_iff in Hall. destruct Hall as [Hb Hall].
      apply is_str_true in Ha, Hb. destruct Ha as [sa ->], Hb as [sb ->].
      destruct (IH rest) as [r [E [Hr _]]]; [simpl in Hlen; lia|assumption|].
      simpl. rewrite E. simpl. eexists; split; [reflexivity|].
      split; [exact Hr|discriminate].
Qed.

Lemma last_in {A : Type} (l : list A) (a d : A) : In (last (a :: l) d) (a :: l).
Proof.
  revert a. induction l as [|b l IH]; intros a; [now left|].
  right. apply (IH b).
Qed.

Lemma duplicate_last_str (hashes : list jsval) :
  forallb is_str hashes = true -> forallb is_str (duplicate_last hashes) = true.
Proof.
  intros Hall. unfold duplicate_last. destruct (Nat.odd _) eqn:Hodd; [|assumption].
  rewrite forallb_app, Hall. simpl. rewrite andb_true_r.
  destruct hashes as [|a l]; [discriminate Hodd|].
  rewrite forallb_forall in Hall. apply Hall. apply last_in.
Qed.

Lemma duplicate_last_nonempty (hashes : list jsval) :
  hashes <> [] -> duplicate_last hashes <> [].
Proof.
  unfold duplicate_last. destruct (Nat.odd _); [|auto].
  intros _ H. apply app_eq_nil in H. destruct H as [_ H]. discriminate H.
Qed.

Lemma merkle_loop_str (fuel : nat) :
  forall hashes, forallb is_str hashes = true -> hashes <> [] ->
    exists r, merkle_loop fuel hashes = Ok r /\ forallb is_str r = true /\ r <> [].
Proof.
  induction fuel as [|f IH]; intros hashes Hall Hne; simpl.
  - eauto.
  - destruct (1 <? List.length hashes)%nat; [|eauto].
    destruct (pair_up_str (List.length (duplicate_last hashes)) (duplicate_last hashes))
      as [nh [E [Hnh Hne']]]; [lia|now apply duplicate_last_str|].
    rewrite E. simpl. apply IH; [assumption|].
    apply Hne'. now apply duplicate_last_nonempty.
Qed.

Lemma forallb_map_comp {A B : Type} (f : B -> bool) (g : A -> B) (l : list A) :
  forallb f (map g l) = forallb (fun x => f (g x)) l.
Proof. induction l as [|x l IH]; simpl; [reflexivity|now rewrite IH]. Qed.

Lemma calculateMerkleRoot_str (txs : list transaction) :
  forallb (fun tx => is_str (tx_rowHash tx)) txs = true ->
  exists s, calculateMerkleRoot txs = Ok (JStr s).
Proof.
  intros Hall. destruct txs as [|tx txs]; [simpl; eauto|].
  unfold calculateMerkleRoot.
  destruct (merkle_loop_str (List.length (tx :: txs)) (map tx_rowHash (tx :: txs)))
    as [r [E [Hr Hne]]].
  - now rewrite forallb_map_comp.
  - discriminate.
  - rewrite E. simpl bind. destruct r as [|h r]; [congruence|].
    simpl in Hr. apply andb_true_iff in Hr. destruct Hr as [Hh _].
    apply is_str_true in Hh. destruct Hh as [s ->]. simpl. eauto.
Qed.

Lemma tx_of_row_str (rows : list mempool_row) :
  forallb (fun tx => is_str (tx_rowHash tx)) (map tx_of_row rows) = true.
Proof. induction rows; simpl; auto. Qed.

Lemma calculateBlockHash_ok (b : block) (txs : list transaction) :
  exists h, calculateBlockHash b txs = Ok h.
Proof.
  unfold calculateBlockHash, blockHashInput. rewrite js_add_str_r. simpl. eauto.
Qed.

(** *** [getLastBlock] returns the row of greatest [blockIndex] *)

Lemma max_block_fold (rows : list bchain_row) :
  forall best,
    match fold_left (fun best r =>
                       match best with
                       | None => Some r
                       | Some b => if bc_blockIndex b <? bc_blockIndex r
                                   then Some r else Some b
                       end) rows best with
    | None => best = None /\ rows = []
    | Some m =>
        (In m rows \/ best = Some m) /\
        (forall r, In r rows -> bc_blockIndex r <= bc_blockIndex m) /\
        (forall b, best = Some b -> bc_blockIndex b <= bc_blockIndex m)
    end.
Proof.
  induction rows as [|x rows IH]; intros best; simpl.
  - destruct best as [b|]; [|auto].
    repeat split; auto; [intros r []|intros b' E; inversion E; lia].
  - match goal with |- context [fold_left ?f rows ?acc] =>
      specialize (IH acc); destruct (fold_left f rows acc) as [m|] end.
    + destruct IH as [Hin [Hall Hbest]].
      destruct best as [b|].
      * destruct (bc_blockIndex b <? bc_blockIndex x) eqn:E.
        -- apply Z.ltb_lt in E. pose proof (Hbest x eq_refl).
           repeat split.
           ++ destruct Hin as [Hin|Hin]; [left; now right|]. inversion Hin; subst.
              left; now left.
           ++ intros r [<-|Hr]; auto.
           ++ intros b' Eb; inversion Eb; subst. lia.
        -- apply Z.ltb_ge in E. pose proof (Hbest b eq_refl).
           repeat split.
           ++ destruct Hin as [Hin|Hin]; [left; now right|now right].
           ++ intros r [<-|Hr]; [lia|auto].
           ++ intros b' Eb; inversion Eb; subst. assumption.
      * pose proof (Hbest x eq_refl). repeat split.
        -- destruct Hin as [Hin|Hin]; [left; now right|]. inversion Hin; subst.
           left; now left.
        -- intros r [<-|Hr]; auto.
        -- discriminate.
    + destruct IH as [IH _]. destruct best as [b|]; [destruct (_ <? _)|]; discriminate.
Qed.

Lemma getLastBlock_spec (n : node) :
  match getLastBlock n with
  | None => bchain (db n) = []
  | Some m => In m (bchain (db n)) /\
              forall r, In r (bchain (db n)) -> bc_blockIndex r <= bc_blockIndex m
  end.
Proof.
  unfold getLastBlock, Sql.max_block.
  pose proof (max_block_fold (bchain (db n)) None) as H.
  destruct (fold_left _ _ _) as [m|].
  - destruct H as [[Hin|Hin] [Hall _]]; [|discriminate]. split; assumption.
  - apply H.
Qed.

Lemma lastIndex_bound (n : node) (r : bchain_row) :
  In r (bchain (db n)) -> bc_blockIndex r <= lastIndex n.
Proof.
  intros Hr. unfold lastIndex. pose proof (getLastBlock_spec n) as H.
  destruct (getLastBlock n) as [m|].
  - now apply H.
  - rewrite H in Hr. destruct Hr.
Qed.

Lemma buildBlock_ok (n : node) (now : string) :
  exists root h,
    let newBlock :=
      mkBlock (Some (lastIndex n + 1)) (JStr now) (Some (map tx_of_row (chosen_rows n)))
              (JStr root) (JStr (lastHash n)) (Some 0) (JStr h) in
    calculateMerkleRoot (map tx_of_row (chosen_rows n)) = Ok (JStr root) /\
    buildBlock n now = Ok newBlock /\
    calculateBlockHash newBlock (map tx_of_row (chosen_rows n)) = Ok h.
Proof.
  unfold buildBlock, getTransactionsForBlock. fold (chosen_rows n).
  destruct (calculateMerkleRoot_str _ (tx_of_row_str (chosen_rows n))) as [root E].
  rewrite E. simpl bind. exists root. eexists. cbv zeta.
  split; [reflexivity|]. split; reflexivity.
Qed.

(* ================================================================== *)
(** ** Block reception (C5, C6) *)
(* ================================================================== *)

Lemma receiveBlock_incomplete (n : node) (b : block) :
  complete b = false -> receiveBlock n b = (n, missing_fields_reply).
Proof.
  unfold complete, receiveBlock.
  destruct (blk_blockIndex b), (blk_transactions b); try reflexivity.
  intros H.
  destruct (truthy (blk_timestamp b)), (truthy (blk_merkleRoot b)),
    (truthy (blk_previousBlockHash b)), (truthy (blk_hash b));
    try discriminate H; reflexivity.
Qed.

(** [POST /receive] on a block that passed check 1, as a chain of tests. *)
Lemma receiveBlock_complete (n : node) (b : block) (i : Z) (txs : list transaction) :
  complete b = true ->
  blk_blockIndex b = Some i -> blk_transactions b = Some txs ->
  receiveBlock n b =
    if i <=? lastIndex n then (n, stale_reply)
    else if negb (i =? lastIndex n + 1) then (n, not_sequential_reply)
    else if negb (strict_eq (blk_previousBlockHash b) (JStr (lastHash n)))
    then (n, linkage_reply)
    else
      match calculateBlockHash b txs with
      | Throw _ => (n, failed_reply)
      | Ok reCalculatedHash =>
          if negb (strict_eq (JStr reCalculatedHash) (blk_hash b))
          then (n, hash_mismatch_reply)
          else
            match calculateMerkleRoot txs with
            | Throw _ => (n, failed_reply)
            | Ok receivedMerkleRoot =>
                if negb (strict_eq receivedMerkleRoot (blk_merkleRoot b))
                then (n, merkle_mismatch_reply)
                else
                  match addBlockToBlockchain n b with
                  | (n1, Throw _) => (n1, failed_reply)
                  | (n1, Ok _) =>
                      (removeTransactionsFromMempool n1 (map tx_transactionId txs),
                       accepted_reply)
                  end
            end
      end.
Proof.
  unfold complete, receiveBlock. intros Hc Hi Ht. rewrite Hi, Ht in *.
  destruct (truthy (blk_timestamp b)), (truthy (blk_merkleRoot b)),
    (truthy (blk_previousBlockHash b)), (truthy (blk_hash b));
    try discriminate Hc; reflexivity.
Qed.

Lemma complete_fields (b : block) :
  complete b = true ->
  exists i txs, blk_blockIndex b = Some i /\ blk_transactions b = Some txs.
Proof.
  unfold complete. destruct (blk_blockIndex b), (blk_transactions b); try discriminate.
  eauto.
Qed.

Lemma strict_eq_str_false (s : string) (v : jsval) :
  v <> JStr s -> strict_eq v (JStr s) = false.
Proof.
  intros H. destruct (strict_eq v (JStr s)) eqn:E; [|reflexivity].
  apply strict_eq_true in E. contradiction.
Qed.

Lemma strict_eq_str_false_l (s : string) (v : jsval) :
  v <> JStr s -> strict_eq (JStr s) v = false.
Proof.
  intros H. destruct (strict_eq (JStr s) v) eqn:E; [|reflexivity].
  apply strict_eq_true in E. congruence.
Qed.

Lemma strict_eq_refl_str (s : string) : strict_eq (JStr s) (JStr s) = true.
Proof. simpl. apply String.eqb_refl. Qed.

Ltac unfold_replies :=
  unfold missing_fields_reply, stale_reply, not_sequential_reply, linkage_reply,
    hash_mismatch_reply, merkle_mismatch_reply, accepted_reply, failed_reply in *.

(** What an accepted block went through, and the node it leaves. *)
Lemma receiveBlock_accepted (n n1 : node) (b : block) :
  receiveBlock n b = (n1, accepted_reply) ->
  exists txs h row rows,
    complete b = true /\
    blk_blockIndex b = Some (lastIndex n + 1) /\
    blk_transactions b = Some txs /\
    blk_previousBlockHash b = JStr (lastHash n) /\
    calculateBlockHash b txs = Ok h /\ blk_hash b = JStr h /\
    calculateMerkleRoot txs = Ok (blk_merkleRoot b) /\
    heads b row /\
    bc_id row = bchain_seq (db n) + 1 /\
    Forall2 (confirms (bc_id row)) txs rows /\
    n1 = removeTransactionsFromMempool
           (with_db n (mkDb (bchain (db n) ++ [row]) (bc_id row)
                            (mempool_transactions (db n))
                            (confirmed_transactions (db n) ++ rows)))
           (map tx_transactionId txs).
Proof.
  intros H. destruct (complete b) eqn:Hc.
  2:{ rewrite (receiveBlock_incomplete n b Hc) in H. unfold_replies. discriminate H. }
  destruct (complete_fields b Hc) as [i [txs [Hi Ht]]].
  rewrite (receiveBlock_complete n b i txs Hc Hi Ht) in H. unfold_replies.
  destruct (i <=? lastIndex n); [discriminate H|].
  destruct (i =? lastIndex n + 1) eqn:Ei; unfold negb in H; [|discriminate H].
  apply Z.eqb_eq in Ei. subst i.
  destruct (strict_eq (blk_previousBlockHash b) (JStr (lastHash n))) eqn:Ep;
    unfold negb in H; [|discriminate H].
  apply strict_eq_true in Ep.
  destruct (calculateBlockHash b txs) as [h|] eqn:Eh; [|discriminate H].
  destruct (strict_eq (JStr h) (blk_hash b)) eqn:Ehh; unfold negb in H; [|discriminate H].
  apply strict_eq_true in Ehh.
  destruct (calculateMerkleRoot txs) as [root|] eqn:Er; [|discriminate H].
  destruct (strict_eq root (blk_merkleRoot b)) eqn:Err; unfold negb in H; [|discriminate H].
  apply strict_eq_true in Err. subst root.
  destruct (addBlock_cases n b)
    as [[e E]|[txs' [row [rows [Ht' [Hrow [Hid [_ [Hrows E]]]]]]]]];
    rewrite E in H; [discriminate H|].
  assert (txs' = txs) by congruence. subst txs'.
  inversion H; subst.
  exists txs, h, row, rows.
  repeat match goal with |- _ /\ _ => split end;
    first [assumption | reflexivity | symmetry; assumption].
Qed.

(** C5, as stated, fails on ill-typed fields: a block whose [timestamp] is
    a number, not a string, passes every check and is appended to the
    chain. *)
Lemma ill_typed_block_is_accepted :
  is_str (blk_timestamp numeric_timestamp_block) = false /\
  snd (receiveBlock project_node numeric_timestamp_block) = accepted_reply /\
  bchain (db project_node) = [] /\
  map bc_timestamp (bchain (db (fst (receiveBlock project_node numeric_timestamp_block)))) = ["1"].
Proof. vm_compute. repeat split. Qed.

(** C5, amended: a received block that fails a stage of the pipeline, as
    the handler tests it (a required field missing or falsy, whatever the
    types of the fields that are there; an index beyond the last index plus
    one; a [previousBlockHash] other than the last block's hash; a header
    hash other than the recomputed one; a merkle root other than the
    recomputed one), is answered with status 400 and the message of that
    stage, and the node, chain and mempool included, is unchanged. *)
Theorem failed_stage_rejects (n : node) (b : block) (r : rejection) :
  fails_stage n b r ->
  receiveBlock n b = (n, rejection_reply r) /\ status (rejection_reply r) = 400.
Proof.
  intros H. split; [|destruct r; reflexivity].
  destruct H as [Hc|i Hc Hi Hlt|Hc Hi Hp|txs h Hc Hi Hp Ht Hh Hne
                 |txs h root Hc Hi Hp Ht Hh Heq Hr Hne].
  - now apply receiveBlock_incomplete.
  - destruct (complete_fields b Hc) as [i' [txs [Hi' Ht]]].
    assert (i' = i) by congruence. subst i'.
    rewrite (receiveBlock_complete n b i txs Hc Hi Ht).
    destruct (i <=? lastIndex n) eqn:E1; [apply Z.leb_le in E1; lia|].
    destruct (i =? lastIndex n + 1) eqn:E2; [apply Z.eqb_eq in E2; lia|].
    reflexivity.
  - destruct (complete_fields b Hc) as [i' [txs [Hi' Ht]]].
    rewrite (receiveBlock_complete n b _ txs Hc Hi Ht).
    destruct (_ <=? _) eqn:E1; [apply Z.leb_le in E1; lia|].
    rewrite Z.eqb_refl. cbn [negb].
    now rewrite (strict_eq_str_false _ _ Hp).
  - rewrite (receiveBlock_complete n b _ txs Hc Hi Ht).
    destruct (_ <=? _) eqn:E1; [apply Z.leb_le in E1; lia|].
    rewrite Z.eqb_refl, Hp, strict_eq_refl_str, Hh. cbn [negb].
    now rewrite (strict_eq_str_false_l _ _ Hne).
  - rewrite (receiveBlock_complete n b _ txs Hc Hi Ht).
    destruct (_ <=? _) eqn:E1; [apply Z.leb_le in E1; lia|].
    rewrite Z.eqb_refl, Hp, strict_eq_refl_str, Hh, Heq, strict_eq_refl_str, Hr, Hne.
    reflexivity.
Qed.

(** C5, an instance: a block that does not link to the genesis block is
    answered with the linkage error. *)
Lemma failed_stage_rejects_witness :
  receiveBlock genesis_node unlinked_block = (genesis_node, linkage_reply) /\
  status linkage_reply = 400.
Proof.
  apply (failed_stage_rejects genesis_node unlinked_block LinkageMismatch).
  apply fails_linkage.
  - reflexivity.
  - reflexivity.
  - vm_compute. intros H. discriminate H.
Defined.

(** *** Stale and duplicate blocks (C6) *)

Lemma remove_keeps_bchain (n : node) (ids : list jsval) :
  bchain (db (removeTransactionsFromMempool n ids)) = bchain (db n).
Proof. destruct ids; reflexivity. Qed.

Lemma in_last {A : Type} (l : list A) (x : A) : In x (l ++ [x]).
Proof. apply in_or_app. right. now left. Qed.

Lemma lastIndex_extended (n n1 : node) (row : bchain_row) :
  bchain (db n1) = bchain (db n) ++ [row] ->
  lastIndex n < bc_blockIndex row ->
  lastIndex n1 = bc_blockIndex row.
Proof.
  intros Hchain Hlt. unfold lastIndex at 1.
  pose proof (getLastBlock_spec n1) as H.
  destruct (getLastBlock n1) as [m|].
  - destruct H as [Hin Hall]. rewrite Hchain in Hin, Hall.
    apply in_app_or in Hin. destruct Hin as [Hin|[<-|[]]]; [|reflexivity].
    pose proof (lastIndex_bound n m Hin).
    pose proof (Hall row (in_last _ _)). lia.
  - rewrite Hchain in H. destruct (bchain (db n)); discriminate H.
Qed.

Lemma lastHash_extended (n n1 : node) (row : bchain_row) :
  bchain (db n1) = bchain (db n) ++ [row] ->
  lastIndex n < bc_blockIndex row ->
  lastHash n1 = bc_hash row.
Proof.
  intros Hchain Hlt. unfold lastHash.
  pose proof (getLastBlock_spec n1) as H.
  destruct (getLastBlock n1) as [m|].
  - destruct H as [Hin Hall]. rewrite Hchain in Hin, Hall.
    apply in_app_or in Hin. destruct Hin as [Hin|[<-|[]]]; [|reflexivity].
    pose proof (lastIndex_bound n m Hin).
    pose proof (Hall row (in_last _ _)). lia.
  - rewrite Hchain in H. destruct (bchain (db n)); discriminate H.
Qed.

Lemma filter_index_none (n : node) (i : Z) :
  lastIndex n < i ->
  filter (fun r => bc_blockIndex r =? i) (bchain (db n)) = [].
Proof.
  intros Hlt. pose proof (lastIndex_bound n) as Hb.
  induction (bchain (db n)) as [|r l IH]; [reflexivity|]. simpl.
  destruct (bc_blockIndex r =? i) eqn:E.
  - apply Z.eqb_eq in E. pose proof (Hb r (or_introl eq_refl)). lia.
  - apply IH. intros x Hx. apply Hb. now right.
Qed.

(** C6, as stated, fails: a block whose index is not above the last index
    but which lacks a required field is answered with the error of check 1,
    not with the silent success. *)
Lemma stale_incomplete_block_is_rejected :
  blk_blockIndex stale_incomplete_block = Some 0 /\
  lastIndex genesis_node = 0 /\
  receiveBlock genesis_node stale_incomplete_block = (genesis_node, missing_fields_reply) /\
  status missing_fields_reply = 400.
Proof. repeat split. Qed.

(** C6, amended: a received block that passes check 1 (required fields
    present) and whose [blockIndex] is at most the last index is answered
    with status 200 and the node is unchanged; and a block that has just
    been accepted is, when received again, such a block: the second
    reception changes nothing and the chain holds one row of its index. *)
Theorem stale_block_is_noop (n : node) (b : block) (i : Z) :
  complete b = true -> blk_blockIndex b = Some i ->
  (i <= lastIndex n ->
     receiveBlock n b = (n, stale_reply) /\ status stale_reply = 200) /\
  (forall n1, receiveBlock n b = (n1, accepted_reply) ->
     receiveBlock n1 b = (n1, stale_reply) /\
     List.length (filter (fun r => bc_blockIndex r =? i) (bchain (db n1))) = 1%nat).
Proof.
  intros Hc Hi.
  assert (Hstale : forall m, i <= lastIndex m -> receiveBlock m b = (m, stale_reply)).
  { intros m Hle. destruct (complete_fields b Hc) as [i' [txs [Hi' Ht]]].
    assert (i' = i) by congruence. subst i'.
    rewrite (receiveBlock_complete m b i txs Hc Hi Ht).
    apply Z.leb_le in Hle. now rewrite Hle. }
  split.
  - intros Hle. split; [now apply Hstale|reflexivity].
  - intros n1 Hacc.
    destruct (receiveBlock_accepted n n1 b Hacc)
      as [txs [h [row [rows [_ [Hi' [_ [_ [_ [_ [_ [Hrow [_ [_ ->]]]]]]]]]]]]]].
    assert (Hix : bc_blockIndex row = i).
    { destruct Hrow as [Hrow _]. congruence. }
    assert (Hlt : lastIndex n < bc_blockIndex row) by (rewrite Hix; assert (i = lastIndex n + 1) by congruence; lia).
    match goal with |- receiveBlock ?m b = _ /\ _ => set (n1 := m) end.
    assert (Hchain : bchain (db n1) = bchain (db n) ++ [row]).
    { unfold n1. now rewrite remove_keeps_bchain. }
    split.
    + apply Hstale. rewrite (lastIndex_extended n n1 row Hchain Hlt). lia.
    + rewrite Hchain, filter_app, (filter_index_none n i) by lia.
      simpl. rewrite Hix, Z.eqb_refl. reflexivity.
Qed.

(** C6, an instance: the block that links to the genesis block, received
    a second time. *)
Lemma stale_block_is_noop_witness :
  receiveBlock (fst (receiveBlock genesis_node linked_block)) linked_block
  = (fst (receiveBlock genesis_node linked_block), stale_reply) /\
  List.length (filter (fun r => bc_blockIndex r =? 1)
                 (bchain (db (fst (receiveBlock genesis_node linked_block))))) = 1%nat.
Proof.
  apply (stale_block_is_noop genesis_node linked_block 1).
  - reflexivity.
  - reflexivity.
  - vm_compute. reflexivity.
Defined.

(* ================================================================== *)
(** ** Initial chain synchronization (C7) *)
(* ================================================================== *)

(** A block as [GET /chain] sends it carries lightweight transactions, which
    have no [projId]: the INSERT of its first confirmed row violates
    NOT NULL, so [addBlockToBlockchain] rolls back and rejects. *)
Lemma chain_block_with_transactions_is_refused (n : node) (r : bchain_row) :
  bc_transactions r <> [] ->
  exists e, addBlockToBlockchain n (block_of_row r) = (n, Throw e).
Proof.
  intros Hne.
  destruct (addBlock_cases n (block_of_row r))
    as [H|[txs [row [rows [Ht [_ [_ [_ [Hrows _]]]]]]]]]; [exact H|].
  exfalso. simpl in Ht. inversion Ht; subst txs; clear Ht.
  destruct (bc_transactions r) as [|l ls]; [now apply Hne|].
  simpl in Hrows. inversion Hrows as [|tx crow txs' rows' Hc _]; subst.
  destruct Hc as [_ [_ [Hp _]]]. simpl in Hp. discriminate Hp.
Qed.

(** C7, the code at a failing input: the authority holds the genesis block
    and one mined block; a joining node that fetches this chain keeps the
    genesis block only, because the commit of block 1 is rejected by the
    NOT NULL constraint on [confirmed_transactions.projId] and the loop is
    left through its [catch]. *)
Lemma sync_stops_at_first_block_with_transactions :
  map bc_blockIndex (bchain (db authority_mined)) = [0; 1] /\
  List.length (get_chain authority_mined) = 2%nat /\
  snd (applyChain joiner (get_chain authority_mined))
  = Throw (SqliteError (NotNullFailed "confirmed_transactions.projId")) /\
  map bc_blockIndex
      (bchain (db (synchronize joiner (Ok (Some (get_chain authority_mined)))))) = [0].
Proof. vm_compute. repeat split. Qed.

(* ================================================================== *)
(** ** Reception of a transaction from a peer (C8) *)
(* ================================================================== *)

Lemma existsb_id_in (id : string) (rows : list mempool_row) :
  existsb (fun r => String.eqb (m_transaction_id r) id) rows = true
  <-> In id (map m_transaction_id rows).
Proof.
  induction rows as [|r rows IH]; simpl; [split; [discriminate|tauto]|].
  rewrite orb_true_iff, IH, String.eqb_eq. tauto.
Qed.

(** [createTransaction] on a transaction that carries string identity
    fields: the outcome is decided by [submitterId] and by the ids in the
    mempool, and by nothing else. *)
Lemma createTransaction_supplied (n : node) (uuid now : string) (t : transaction)
    (id ts raw rh : string) :
  tx_transactionId t = JStr id -> tx_timestamp t = JStr ts ->
  tx_rawDataJson t = JStr raw -> tx_rowHash t = JStr rh ->
  id <> "" -> ts <> "" -> raw <> "" -> rh <> "" ->
  tx_projId t <> JUndefined ->
  createTransaction n uuid now t =
    match Sql.bind_text (tx_submitterId t) with
    | None => (n, Throw (SqliteError (NotNullFailed "mempool_transactions.submitter_id")))
    | Some sb =>
        if existsb (fun r => String.eqb (m_transaction_id r) id)
                   (mempool_transactions (db n))
        then (n, Throw (SqliteError (UniqueFailed "mempool_transactions.transaction_id")))
        else
          (with_db n
             (mkDb (bchain (db n)) (bchain_seq (db n))
                   (mempool_transactions (db n)
                    ++ [pending_row id (ToString (tx_projId t)) ts sb raw rh t])
                   (confirmed_transactions (db n))),
           Ok (mkTx (JStr id) (JStr ts) (JStr rh) (JStr (ToString (tx_projId t)))
                    (JStr raw) (tx_submitterId t) (tx_stationID t)
                    (tx_SO2 t) (tx_NO2 t) (tx_PM10 t) (tx_PM2_5 t)))
    end.
Proof.
  intros Hid Hts Hraw Hrh Nid Nts Nraw Nrh Hpj.
  apply truthy_str in Nid, Nts, Nraw, Nrh.
  assert (Epj : strict_eq (tx_projId t) JUndefined = false).
  { destruct (tx_projId t); try reflexivity. contradiction. }
  unfold createTransaction, finalRowHash, finalTransactionId, finalTimestamp,
    finalProjId, rawDataForHash, js_or.
  rewrite Hid, Hts, Hraw, Hrh, Nid, Nts, Nraw, Nrh, Epj, andb_false_r.
  unfold Sql.insert_mempool. cbn [Sql.bind_text Sql.not_null bind].
  destruct (Sql.bind_text (tx_submitterId t)) as [sb|]; cbn [Sql.not_null bind];
    [|reflexivity].
  destruct (existsb _ _); reflexivity.
Qed.

(** C8, as stated, fails in its last case: a transaction that carries the
    five required fields, whose hash is right and whose id is new, is not
    inserted when it has no [submitterId]; the reception ends with status
    500 and the mempool is unchanged. *)
Lemma transaction_without_submitter_is_not_inserted :
  strict_eq (JStr (sha256 ("t1" +++ "2024-01-01T00:00:01.000Z" +++ "{}")))
            (tx_rowHash peer_transaction) = true /\
  mempool_transactions (db joiner) = [] /\
  receiveTransaction joiner "u" "2024-01-01T00:00:02.000Z" peer_transaction
  = (joiner, tx_failed_reply).
Proof. vm_compute. repeat split. Qed.

Lemma js_or_truthy (v w : jsval) : truthy w = true -> truthy (js_or v w) = true.
Proof. intros H. unfold js_or. destruct (truthy v) eqn:E; assumption. Qed.

Lemma js_or_left (v w : jsval) : truthy v = true -> js_or v w = v.
Proof. intros H. unfold js_or. now rewrite H. Qed.

(** [createTransaction] on a transaction whose four generated fields are
    truthy and whose [projId] is defined: nothing is generated. *)
Lemma createTransaction_complete (p : node) (uuid now : string) (t : transaction) :
  truthy (tx_transactionId t) = true -> truthy (tx_timestamp t) = true ->
  truthy (tx_rawDataJson t) = true -> truthy (tx_rowHash t) = true ->
  strict_eq (tx_projId t) JUndefined = false ->
  createTransaction p uuid now t
  = match Sql.insert_mempool (db p) (JStr (ToString (tx_projId t)))
            (tx_transactionId t) (tx_timestamp t)
            (tx_submitterId t) (tx_stationID t)
            (tx_SO2 t) (tx_NO2 t) (tx_PM10 t) (tx_PM2_5 t)
            (tx_rawDataJson t) (tx_rowHash t) with
    | Throw e => (p, Throw e)
    | Ok d =>
        (with_db p d,
         Ok (mkTx (tx_transactionId t) (tx_timestamp t) (tx_rowHash t)
                  (JStr (ToString (tx_projId t)))
                  (tx_rawDataJson t) (tx_submitterId t) (tx_stationID t)
                  (tx_SO2 t) (tx_NO2 t) (tx_PM10 t) (tx_PM2_5 t)))
    end.
Proof.
  intros Hid Hts Hraw Hrh Hpj. unfold createTransaction.
  rewrite Hpj, andb_false_r.
  unfold finalRowHash, finalProjId, finalTransactionId, finalTimestamp, rawDataForHash.
  rewrite Hrh, Hpj.
  rewrite (js_or_left _ _ Hid), (js_or_left _ _ Hts), (js_or_left _ _ Hraw).
  reflexivity.
Qed.

(** [POST /receive] on a transaction that passed its first check. *)
Lemma receiveTransaction_complete (n : node) (uuid now : string) (t : transaction) :
  truthy (tx_transactionId t) = true -> truthy (tx_timestamp t) = true ->
  truthy (tx_rawDataJson t) = true -> truthy (tx_rowHash t) = true ->
  strict_eq (tx_projId t) JUndefined = false ->
  receiveTransaction n uuid now t
  = match sha256_update (js_add (js_add (tx_transactionId t) (tx_timestamp t))
                                (tx_rawDataJson t)) with
    | Throw _ => (n, tx_failed_reply)
    | Ok reCalculatedHash =>
        if negb (strict_eq (JStr reCalculatedHash) (tx_rowHash t))
        then (n, tx_mismatch_reply)
        else
          match Sql.insert_mempool (db n) (JStr (ToString (tx_projId t)))
                  (tx_transactionId t) (tx_timestamp t)
                  (tx_submitterId t) (tx_stationID t)
                  (tx_SO2 t) (tx_NO2 t) (tx_PM10 t) (tx_PM2_5 t)
                  (tx_rawDataJson t) (tx_rowHash t) with
          | Ok d => (with_db n d, tx_accepted_reply t)
          | Throw e =>
              if is_duplicate_id e then (n, tx_duplicate_reply) else (n, tx_failed_reply)
          end
    end.
Proof.
  intros Hid Hts Hraw Hrh Hpj. unfold receiveTransaction.
  rewrite Hid, Hts, Hraw, Hrh, Hpj. cbn [negb orb].
  destruct (sha256_update _) as [h|]; [|reflexivity].
  destruct (negb _); [reflexivity|].
  rewrite (createTransaction_complete n uuid now t Hid Hts Hraw Hrh Hpj).
  destruct (Sql.insert_mempool _ _ _ _ _ _ _ _ _ _ _ _); reflexivity.
Qed.

(** [a + b + c] is a string as soon as one of the three is. *)
Lemma js_add_text (a b c : jsval) :
  is_str a || is_str b || is_str c = true ->
  exists s, js_add (js_add a b) c = JStr s.
Proof.
  destruct a as [| |[]|x| |x], b as [| |[]|y| |y], c as [| |[]|z| |z];
    simpl; intros H; try discriminate H; eexists; reflexivity.
Qed.

Lemma js_add_not_text (a b c : jsval) :
  is_str a = false -> is_str b = false -> is_str c = false ->
  sha256_update (js_add (js_add a b) c) = Throw TypeError.
Proof.
  destruct a as [| |[]|x| |x], b as [| |[]|y| |y], c as [| |[]|z| |z];
    simpl; intros Ha Hb Hc; try discriminate; reflexivity.
Qed.

(** A value that passes [if (v)] binds to a text. *)
Lemma truthy_bound (v : jsval) :
  truthy v = true -> exists s, Sql.bind_text v = Some s.
Proof. destruct v as [| |[]|x| |x]; simpl; intros H; try discriminate H; eauto. Qed.

(** C8, amended.  A received transaction one of whose required fields is
    missing or falsy is answered 400 (missing fields).  Otherwise, when
    none of [transactionId], [timestamp] and [rawDataJson] is a string,
    their sum is not a string, the digest cannot be taken and the answer
    is 500.  Otherwise the sum is a string (for three strings, their
    concatenation): a [rowHash] other than its digest is answered 400
    (hash mismatch); with the right hash, a transaction whose
    [submitterId] binds to NULL is answered 500 (the NOT NULL constraint
    of the mempool table); with a [submitterId], an id that is in the
    mempool is answered 409 and any other is inserted and answered 201.
    The node is unchanged in every case but the last.  The numbers of the
    transaction, if any, are integers below 10^15 in absolute value. *)
Theorem remote_transaction_admission (n : node) (uuid now : string) (t : transaction) :
  let hashed := js_add (js_add (tx_transactionId t) (tx_timestamp t)) (tx_rawDataJson t) in
  ((truthy (tx_transactionId t) = false \/ truthy (tx_timestamp t) = false \/
    truthy (tx_rowHash t) = false \/ truthy (tx_rawDataJson t) = false \/
    tx_projId t = JUndefined) ->
   receiveTransaction n uuid now t = (n, tx_missing_reply)) /\
  (forall id ts raw : string,
     tx_transactionId t = JStr id -> tx_timestamp t = JStr ts ->
     tx_rawDataJson t = JStr raw -> hashed = JStr ((id +++ ts) +++ raw)) /\
  (truthy (tx_transactionId t) = true -> truthy (tx_timestamp t) = true ->
   truthy (tx_rowHash t) = true -> truthy (tx_rawDataJson t) = true ->
   tx_projId t <> JUndefined ->
   (is_str (tx_transactionId t) = false -> is_str (tx_timestamp t) = false ->
    is_str (tx_rawDataJson t) = false ->
    receiveTransaction n uuid now t = (n, tx_failed_reply)) /\
   (is_str (tx_transactionId t) || is_str (tx_timestamp t) || is_str (tx_rawDataJson t)
    = true ->
    small_transaction t = true ->
    exists s id ts raw,
      hashed = JStr s /\
      Sql.bind_text (tx_transactionId t) = Some id /\
      Sql.bind_text (tx_timestamp t) = Some ts /\
      Sql.bind_text (tx_rawDataJson t) = Some raw /\
      (tx_rowHash t <> JStr (sha256 s) ->
       receiveTransaction n uuid now t = (n, tx_mismatch_reply)) /\
      (tx_rowHash t = JStr (sha256 s) ->
       (Sql.bind_text (tx_submitterId t) = None ->
        receiveTransaction n uuid now t = (n, tx_failed_reply)) /\
       (forall sb, Sql.bind_text (tx_submitterId t) = Some sb ->
          (In id (map m_transaction_id (mempool_transactions (db n))) ->
           receiveTransaction n uuid now t = (n, tx_duplicate_reply)) /\
          (~ In id (map m_transaction_id (mempool_transactions (db n))) ->
           receiveTransaction n uuid now t =
             (with_db n
                (mkDb (bchain (db n)) (bchain_seq (db n))
                      (mempool_transactions (db n)
                       ++ [pending_row id (ToString (tx_projId t)) ts sb raw
                                       (sha256 s) t])
                      (confirmed_transactions (db n))),
              tx_accepted_reply t)))))).
Proof.
  cbv zeta. split; [|split].
  - intros H. unfold receiveTransaction.
    assert (E : negb (truthy (tx_transactionId t)) || negb (truthy (tx_timestamp t))
                || negb (truthy (tx_rowHash t)) || negb (truthy (tx_rawDataJson t))
                || strict_eq (tx_projId t) JUndefined = true).
    { destruct H as [-> | [-> | [-> | [-> | ->]]]]; simpl;
        rewrite ?orb_true_r; reflexivity. }
    now rewrite E.
  - intros id ts raw -> -> ->. reflexivity.
  - intros Tid Tts Trh Traw Hpj.
    assert (Epj : strict_eq (tx_projId t) JUndefined = false).
    { destruct (tx_projId t); try reflexivity. contradiction. }
    pose proof (receiveTransaction_complete n uuid now t Tid Tts Traw Trh Epj) as Hstart.
    split.
    + intros Sid Sts Sraw.
      now rewrite Hstart, (js_add_not_text _ _ _ Sid Sts Sraw).
    + intros Hs _.
      destruct (js_add_text _ _ _ Hs) as [s Es].
      destruct (truthy_bound _ Tid) as [id Eid].
      destruct (truthy_bound _ Tts) as [ts Ets].
      destruct (truthy_bound _ Traw) as [raw Eraw].
      exists s, id, ts, raw.
      split; [exact Es|]. split; [exact Eid|]. split; [exact Ets|]. split; [exact Eraw|].
      rewrite Es in Hstart. cbn [sha256_update] in Hstart.
      split.
      * intros Hne. rewrite Hstart, (strict_eq_str_false_l _ _ Hne). reflexivity.
      * intros Heq. rewrite Hstart, Heq, strict_eq_refl_str. cbn [negb].
        unfold Sql.insert_mempool. rewrite Eid, Ets, Eraw.
        cbn [Sql.bind_text Sql.not_null bind].
        split.
        -- intros ->. reflexivity.
        -- intros sb ->. cbn [Sql.not_null bind]. split.
           ++ intros Hin. apply existsb_id_in in Hin. rewrite Hin. reflexivity.
           ++ intros Hnin.
              destruct (existsb _ _) eqn:E; [apply existsb_id_in in E; contradiction|].
              reflexivity.
Qed.

(** C8, an instance: a complete transaction with a new id is inserted, and a
    transaction whose hashed fields are numbers is answered 500. *)
Lemma remote_transaction_admission_witness :
  receiveTransaction joiner "u" "2024-01-01T00:00:02.000Z" peer_transaction_complete
  = (with_db joiner
       (mkDb [] 0
             [pending_row "t1" "2" "2024-01-01T00:00:01.000Z" "operator-1" "{}"
                (sha256 (("t1" +++ "2024-01-01T00:00:01.000Z") +++ "{}"))
                peer_transaction_complete] []),
     tx_accepted_reply peer_transaction_complete) /\
  receiveTransaction joiner "u" "2024-01-01T00:00:02.000Z" numeric_transaction
  = (joiner, tx_failed_reply).
Proof.
  split.
  - destruct (remote_transaction_admission joiner "u" "2024-01-01T00:00:02.000Z"
                peer_transaction_complete) as [_ [_ H]].
    assert (Hr : truthy (tx_rowHash peer_transaction_complete) = true)
      by (vm_compute; reflexivity).
    destruct (H eq_refl eq_refl Hr eq_refl ltac:(discriminate)) as [_ H2].
    destruct (H2 eq_refl eq_refl) as [s [id [ts [raw [Es [Eid [Ets [Eraw [_ H3]]]]]]]]].
    cbn in Es, Eid, Ets, Eraw.
    inversion Es; inversion Eid; inversion Ets; inversion Eraw; subst s id ts raw.
    destruct (H3 eq_refl) as [_ H4].
    destruct (H4 "operator-1" eq_refl) as [_ H5].
    apply H5. simpl. tauto.
  - destruct (remote_transaction_admission joiner "u" "2024-01-01T00:00:02.000Z"
                numeric_transaction) as [_ [_ H]].
    destruct (H eq_refl eq_refl eq_refl eq_refl ltac:(discriminate)) as [H2 _].
    apply H2; reflexivity.
Defined.

(* ================================================================== *)
(** ** Broadcast to the peers (C9) *)
(* ================================================================== *)

Lemma broadcast_all (post : string -> bool) (urls : list string) :
  forallb post urls = true -> broadcast post urls = Ok tt.
Proof.
  induction urls as [|u urls IH]; simpl; [reflexivity|].
  intros H. apply andb_true_iff in H. destruct H as [-> H]. now apply IH.
Qed.

Lemma broadcast_some_fails (post : string -> bool) (urls : list string) :
  forallb post urls = false -> exists url, broadcast post urls = Throw (RequestFailed url).
Proof.
  induction urls as [|u urls IH]; simpl; [discriminate|].
  destruct (post u); simpl; [exact IH|eauto].
Qed.

(** C9, as stated, fails: with the one peer unreachable, the submission of
    a reading is answered with status 500 although the reading is in the
    mempool, and the mining request is answered with status 500 although
    the block is in the chain. *)
Lemma unreachable_peer_is_reported_as_failure :
  (let r := submitTransaction (authority_with_peer authority_started)
              "7d3c1a52-0000-4000-8000-000000000001" "2024-01-01T00:00:01.000Z"
              no_peer_answers (reading "1") in
   status (snd r) = 500 /\
   List.length (mempool_transactions (db (fst r))) = 1%nat) /\
  (let r := post_mine (authority_with_peer authority_pending)
              "2024-01-01T00:01:00.000Z" no_peer_answers in
   status (snd r) = 500 /\
   map bc_blockIndex (bchain (db (fst r))) = [0; 1]).
Proof. vm_compute. repeat split. Qed.

(** C9, amended: the answers of the peers have no effect on the local
    state.  Once [createTransaction] has stored the transaction, the node
    after [POST /submit] is the node after that insertion, whatever the
    peers answer; once the new block is committed, the node after
    [POST /mine] is the node after the commit and the pruning of the
    mempool.  The reply, however, tells the difference: it is the success
    (201, 200) when every peer answered and the error 500 as soon as one
    peer failed. *)
Theorem peer_failure_keeps_commit_but_is_reported
    (n : node) (uuid now : string) (post : string -> bool) (t : transaction) :
  (forall n1 tx,
     createTransaction n uuid now t = (n1, Ok tx) ->
     fst (submitTransaction n uuid now post t) = n1 /\
     (forallb post (networkNodes n1) = true ->
      snd (submitTransaction n uuid now post t)
      = mkReply 201 "Transaction created locally and broadcast successfully."
                (TxPayload tx)) /\
     (forallb post (networkNodes n1) = false ->
      snd (submitTransaction n uuid now post t)
      = mkReply 500 "Transaction broadcast failed." NoPayload)) /\
  (forall b n1,
     (BLOCK_SIZE <= getMempoolCount n)%nat ->
     buildBlock n now = Ok b ->
     addBlockToBlockchain n b = (n1, Ok tt) ->
     let n2 := removeTransactionsFromMempool n1
                 (map tx_transactionId (getTransactionsForBlock n BLOCK_SIZE)) in
     fst (post_mine n now post) = n2 /\
     (forallb post (networkNodes n2) = true ->
      snd (post_mine n now post)
      = mkReply 200 "Block mined and broadcast successfully." (BlockPayload b)) /\
     (forallb post (networkNodes n2) = false ->
      snd (post_mine n now post) = mkReply 500 "Failed to mine block." NoPayload)).
Proof.
  split.
  - intros n1 tx Hc. unfold submitTransaction. rewrite Hc.
    destruct (forallb post (networkNodes n1)) eqn:Hall.
    + rewrite (broadcast_all _ _ Hall). split; [reflexivity|split; [intros _; reflexivity|discriminate]].
    + destruct (broadcast_some_fails _ _ Hall) as [url ->].
      split; [reflexivity|split; [discriminate|intros _; reflexivity]].
  - intros b n1 Hge Hb Hadd n2.
    apply Nat.ltb_ge in Hge.
    unfold post_mine, mineBlockInternal. rewrite Hge, Hb, Hadd. fold n2.
    destruct (forallb post (networkNodes n2)) eqn:Hall.
    + rewrite (broadcast_all _ _ Hall). split; [reflexivity|split; [intros _; reflexivity|discriminate]].
    + destruct (broadcast_some_fails _ _ Hall) as [url ->].
      split; [reflexivity|split; [discriminate|intros _; reflexivity]].
Qed.

(* ================================================================== *)
(** ** Local submission (C10) *)
(* ================================================================== *)

Lemma insert_mempool_ok (d d' : database)
    (pj id ts sb st : jsval) (so2 no2 pm10 pm2_5 : option Z) (raw rh : jsval) :
  Sql.insert_mempool d pj id ts sb st so2 no2 pm10 pm2_5 raw rh = Ok d' ->
  exists row,
    d' = mkDb (bchain d) (bchain_seq d) (mempool_transactions d ++ [row])
              (confirmed_transactions d) /\
    Sql.bind_text id = Some (m_transaction_id row) /\
    Sql.bind_text pj = Some (m_projId row) /\
    Sql.bind_text ts = Some (m_timestamp row) /\
    Sql.bind_text raw = Some (m_raw_data_json row) /\
    Sql.bind_text rh = Some (m_rowHash row) /\
    ~ In (m_transaction_id row) (map m_transaction_id (mempool_transactions d)).
Proof.
  unfold Sql.insert_mempool. intros H. insert_ok H.
  inversion H; subst; clear H.
  eexists; split; [reflexivity|]. simpl. repeat split; try assumption.
  intros Hin. apply existsb_id_in in Hin. congruence.
Qed.

(** C10, as stated, fails: a supplied [transactionId] that is the empty
    string is not used; the stored and returned id is the generated one. *)
Lemma supplied_empty_id_is_replaced :
  tx_transactionId payload_with_empty_id = JStr "" /\
  (let r := createTransaction project_node "7d3c1a52-0000-4000-8000-000000000001"
              "2024-01-01T00:00:01.000Z" payload_with_empty_id in
   map m_transaction_id (mempool_transactions (db (fst r)))
   = ["7d3c1a520000400080000000000000" +++ "01"] /\
   match snd r with
   | Ok tx => tx_transactionId tx = JStr ("7d3c1a520000400080000000000000" +++ "01")
   | Throw _ => False
   end).
Proof. vm_compute. repeat split. Qed.

(** C10, amended.  When [createTransaction] stores a payload, each of
    [transactionId], [timestamp], [rawDataJson] and [rowHash] of the stored
    and returned transaction is the supplied value when that value is
    truthy (present and not empty) and the generated one otherwise;
    [projId] is the string form of the supplied value unless it is
    undefined.  A supplied [rowHash] is never compared with
    [sha256 (transactionId ++ timestamp ++ rawDataJson)]: it is returned as
    it is, and it is what the mempool row holds.  The numbers of the
    payload, if any, are integers below 10^15 in absolute value. *)
Theorem local_submission_keeps_supplied_fields
    (n n1 : node) (uuid now : string) (t tx : transaction) :
  small_transaction t = true -> small (theProj n) = true ->
  createTransaction n uuid now t = (n1, Ok tx) ->
  tx_transactionId tx
  = (if truthy (tx_transactionId t) then tx_transactionId t
     else JStr (strip_dashes uuid)) /\
  tx_timestamp tx = (if truthy (tx_timestamp t) then tx_timestamp t else JStr now) /\
  tx_rawDataJson tx
  = (if truthy (tx_rawDataJson t) then tx_rawDataJson t
     else JStr (raw_payload_json t)) /\
  tx_projId tx
  = JStr (ToString (if strict_eq (tx_projId t) JUndefined then theProj n
                    else tx_projId t)) /\
  (truthy (tx_rowHash t) = true -> tx_rowHash tx = tx_rowHash t) /\
  (truthy (tx_rowHash t) = false ->
   sha256_update (js_add (js_add (tx_transactionId tx) (tx_timestamp tx))
                         (tx_rawDataJson tx))
   = Ok (ToString (tx_rowHash tx))) /\
  exists row,
    mempool_transactions (db n1) = mempool_transactions (db n) ++ [row] /\
    Sql.bind_text (tx_transactionId tx) = Some (m_transaction_id row) /\
    Sql.bind_text (tx_timestamp tx) = Some (m_timestamp row) /\
    Sql.bind_text (tx_rawDataJson tx) = Some (m_raw_data_json row) /\
    Sql.bind_text (tx_projId tx) = Some (m_projId row) /\
    Sql.bind_text (tx_rowHash tx) = Some (m_rowHash row) /\
    forall post,
      forallb post (networkNodes n1) = true ->
      submitTransaction n uuid now post t
      = (n1, mkReply 201 "Transaction created locally and broadcast successfully."
                     (TxPayload tx)).
Proof.
  intros _ _ H. pose proof H as Hc. unfold createTransaction in H.
  destruct (strict_eq (theProj n) JUndefined && strict_eq (tx_projId t) JUndefined);
    [discriminate H|].
  destruct (finalRowHash uuid now t) as [rh|] eqn:Erh; [|discriminate H].
  destruct (Sql.insert_mempool _ _ _ _ _ _ _ _ _ _ _ _) as [d|] eqn:Ei; [|discriminate H].
  inversion H; subst; clear H. simpl.
  apply insert_mempool_ok in Ei.
  destruct Ei as [row [-> [Hid [Hpj [Hts [Hraw [Hrh _]]]]]]].
  unfold finalRowHash in Erh.
  repeat match goal with |- _ /\ _ => split end; try reflexivity.
  - intros Ht. rewrite Ht in Erh. now inversion Erh.
  - intros Ht. rewrite Ht in Erh.
    destruct (sha256_update _) as [h|] eqn:Eh; simpl in Erh; [|discriminate Erh].
    inversion Erh; subst. reflexivity.
  - exists row. repeat match goal with |- _ /\ _ => split end; try assumption.
    + reflexivity.
    + intros post Hall. unfold submitTransaction. rewrite Hc.
      simpl networkNodes in *. now rewrite (broadcast_all _ _ Hall).
Qed.

(** C10, an instance: the supplied [rowHash] is returned although it is
    not the digest of the other supplied fields. *)
Lemma local_submission_keeps_supplied_fields_witness :
  tx_rowHash (snd wrong_hash_stored) = JStr "not-a-digest" /\
  strict_eq (JStr (sha256 (("t9" +++ "2024-01-01T00:00:09.000Z") +++ "{}")))
            (JStr "not-a-digest") = false.
Proof.
  assert (E : createTransaction project_node "u" "2024-01-01T00:00:10.000Z"
                payload_with_wrong_hash
              = (fst wrong_hash_stored, Ok (snd wrong_hash_stored)))
    by (vm_compute; reflexivity).
  destruct (local_submission_keeps_supplied_fields project_node (fst wrong_hash_stored)
              "u" "2024-01-01T00:00:10.000Z" payload_with_wrong_hash
              (snd wrong_hash_stored) eq_refl eq_refl E)
    as [_ [_ [_ [_ [H _]]]]].
  split.
  - apply H. reflexivity.
  - vm_compute. reflexivity.
Defined.

(* ================================================================== *)
(** ** Stored blocks can be verified from their own fields (C1) *)
(* ================================================================== *)

(** C1, as stated, fails on the genesis block: the chain of the authority
    right after [initDb] is the genesis row; the merkle root recomputed from
    its (empty) transaction list is the digest of the empty-list label, not
    the stored [merkleRoot], and the recomputed header hash is not the
    stored [hash]. *)
Lemma genesis_block_does_not_verify :
  bchain (db authority_started) = [genesis_row] /\
  calculateMerkleRoot (stored_transactions genesis_row) = Ok (JStr empty_merkle_root) /\
  String.eqb empty_merkle_root (bc_merkleRoot genesis_row) = false /\
  match calculateBlockHash (block_of_row genesis_row) (stored_transactions genesis_row) with
  | Ok h => String.eqb h (bc_hash genesis_row)
  | Throw _ => true
  end = false.
Proof. vm_compute. repeat split. Qed.

(** *** What recomputation reads survives the storage *)

Lemma json_value_roundtrip (v : jsval) : json_value (json_roundtrip v) = json_value v.
Proof. destruct v; reflexivity. Qed.

Lemma transactionsForBlockHash_stored (txs : list transaction) :
  transactionsForBlockHash (map tx_of_light (lightweightTransactions txs))
  = transactionsForBlockHash txs.
Proof.
  unfold transactionsForBlockHash, lightweightTransactions. f_equal.
  rewrite !map_map. apply map_ext. intros tx. unfold json_object. simpl.
  now rewrite !json_value_roundtrip.
Qed.

Lemma calculateMerkleRoot_ext (txs1 txs2 : list transaction) :
  map tx_rowHash txs1 = map tx_rowHash txs2 ->
  calculateMerkleRoot txs1 = calculateMerkleRoot txs2.
Proof.
  intros H. pose proof (f_equal (@List.length jsval) H) as Hlen.
  rewrite !length_map in Hlen.
  unfold calculateMerkleRoot.
  destruct txs1, txs2; try discriminate Hlen; [reflexivity|].
  now rewrite H, Hlen.
Qed.

Lemma rowHash_stored (txs : list transaction) :
  forallb (fun tx => is_str (tx_rowHash tx)) txs = true ->
  map tx_rowHash (map tx_of_light (lightweightTransactions txs)) = map tx_rowHash txs.
Proof.
  intros H. unfold lightweightTransactions. rewrite !map_map.
  apply map_ext_in. intros tx Hin. simpl.
  rewrite forallb_forall in H. specialize (H tx Hin).
  apply is_str_true in H. destruct H as [s ->]. reflexivity.
Qed.

Lemma bind_text_str (v : jsval) (s : string) :
  is_str v = true -> Sql.bind_text v = Some s -> v = JStr s.
Proof.
  intros Hs Hb. apply is_str_true in Hs. destruct Hs as [s' ->].
  simpl in Hb. congruence.
Qed.

(** The row written for a block that passed the hash and merkle tests, and
    whose [timestamp] and leaf digests are strings, verifies. *)
Lemma stored_row_verifies (b : block) (txs : list transaction) (row : bchain_row)
    (p h : string) :
  blk_transactions b = Some txs -> heads b row ->
  is_str (blk_timestamp b) = true ->
  forallb (fun tx => is_str (tx_rowHash tx)) txs = true ->
  blk_previousBlockHash b = JStr p ->
  calculateBlockHash b txs = Ok h -> blk_hash b = JStr h ->
  calculateMerkleRoot txs = Ok (blk_merkleRoot b) ->
  verifies row.
Proof.
  intros Ht [Hix [Hts [Hnc [Hh [Hp [Hmr Hl]]]]]] Sts Srh Ep Eh Ehh Er.
  destruct (calculateMerkleRoot_str txs Srh) as [root Eroot].
  assert (Emr : blk_merkleRoot b = JStr root) by congruence.
  rewrite Emr in Hmr. simpl in Hmr.
  rewrite Ehh in Hh. simpl in Hh. rewrite Ep in Hp. simpl in Hp.
  apply (bind_text_str _ _ Sts) in Hts.
  inversion Hmr; inversion Hh; inversion Hp; subst; clear Hmr Hh Hp.
  unfold verifies, stored_transactions. rewrite (Hl txs Ht). split.
  - rewrite (calculateMerkleRoot_ext _ txs (rowHash_stored txs Srh)). congruence.
  - rewrite <- Eh. unfold calculateBlockHash, blockHashInput.
    rewrite transactionsForBlockHash_stored. simpl.
    now rewrite Hix, Hts, Emr, Ep, Hnc.
Qed.

(** *** Every operation appends verifying rows only *)

Lemma createTransaction_keeps_bchain (n : node) (uuid now : string) (t : transaction) :
  bchain (db (fst (createTransaction n uuid now t))) = bchain (db n).
Proof.
  unfold createTransaction.
  destruct (_ && _); [reflexivity|].
  destruct (finalRowHash uuid now t); [|reflexivity].
  destruct (Sql.insert_mempool _ _ _ _ _ _ _ _ _ _ _ _) as [d|] eqn:E; [|reflexivity].
  apply insert_mempool_ok in E. destruct E as [row [-> _]]. reflexivity.
Qed.

Lemma submitTransaction_keeps_bchain (n : node) (uuid now : string)
    (post : string -> bool) (t : transaction) :
  bchain (db (fst (submitTransaction n uuid now post t))) = bchain (db n).
Proof.
  unfold submitTransaction.
  pose proof (createTransaction_keeps_bchain n uuid now t) as H.
  destruct (createTransaction n uuid now t) as [n' [tx|e]]; simpl in H; [|exact H].
  destruct (broadcast post _); exact H.
Qed.

Lemma receiveTransaction_keeps_bchain (n : node) (uuid now : string) (t : transaction) :
  bchain (db (fst (receiveTransaction n uuid now t))) = bchain (db n).
Proof.
  unfold receiveTransaction.
  destruct (_ || _); [reflexivity|].
  destruct (sha256_update _); [|reflexivity].
  destruct (negb _); [reflexivity|].
  pose proof (createTransaction_keeps_bchain n uuid now t) as H.
  destruct (createTransaction n uuid now t) as [n' [tx|e]]; simpl in H; [exact H|].
  destruct (is_duplicate_id e); exact H.
Qed.

Lemma mineBlockInternal_extends (n : node) (now : string) (post : string -> bool) :
  extends_by verifies n (fst (mineBlockInternal n now post)).
Proof.
  unfold mineBlockInternal.
  destruct (getMempoolCount n <? BLOCK_SIZE)%nat; [now left|].
  destruct (buildBlock_ok n now) as [root [h [Er [Eb Eh]]]]. cbv zeta in Er, Eb, Eh.
  rewrite Eb.
  match type of Eb with _ = Ok ?b => set (newBlock := b) in * end.
  destruct (addBlock_cases n newBlock)
    as [[e ->]|[txs [row [rows [Ht [Hrow [_ [_ [_ ->]]]]]]]]]; [now left|].
  right. exists row. split.
  - clear Ht.
    apply (stored_row_verifies newBlock (map tx_of_row (chosen_rows n)) row
             (lastHash n) h); try reflexivity; try assumption.
    apply tx_of_row_str.
  - destruct (broadcast post _); simpl; now rewrite remove_keeps_bchain.
Qed.

Lemma receiveBlock_extends (n : node) (b : block) :
  well_typed b = true ->
  extends_by verifies n (fst (receiveBlock n b)).
Proof.
  intros Hw. destruct (receiveBlock n b) as [n1 r] eqn:E. simpl.
  destruct (complete b) eqn:Hc.
  2:{ rewrite (receiveBlock_incomplete n b Hc) in E. inversion E. now left. }
  destruct (complete_fields b Hc) as [i [txs [Hi Ht]]].
  pose proof E as E'. rewrite (receiveBlock_complete n b i txs Hc Hi Ht) in E'.
  destruct (i <=? lastIndex n); [inversion E'; now left|].
  destruct (negb (i =? lastIndex n + 1)); [inversion E'; now left|].
  destruct (negb (strict_eq (blk_previousBlockHash b) (JStr (lastHash n))));
    [inversion E'; now left|].
  destruct (calculateBlockHash b txs) as [h|]; [|inversion E'; now left].
  destruct (negb (strict_eq (JStr h) (blk_hash b))); [inversion E'; now left|].
  destruct (calculateMerkleRoot txs) as [root|]; [|inversion E'; now left].
  destruct (negb (strict_eq root (blk_merkleRoot b))); [inversion E'; now left|].
  destruct (addBlock_cases n b) as [[e Ea]|[txs' [row [rows [_ [_ [_ [_ [_ Ea]]]]]]]]];
    rewrite Ea in E'; [inversion E'; now left|].
  assert (r = accepted_reply) by (now inversion E'). subst r. clear E' Ea.
  destruct (receiveBlock_accepted n n1 b E)
    as [txs2 [h2 [row2 [rows2 [_ [_ [Ht2 [Hp [Eh [Ehh [Er [Hrow [_ [_ ->]]]]]]]]]]]]]].
  right. exists row2. split.
  - unfold well_typed in Hw. rewrite Ht2 in Hw. apply andb_true_iff in Hw.
    destruct Hw as [Hts Hrh].
    now apply (stored_row_verifies b txs2 row2 (lastHash n) h2).
  - now rewrite remove_keeps_bchain.
Qed.

Lemma initDb_chain (n0 n : node) (now : string) :
  bchain (db n0) = [] -> initDb n0 now = Ok n ->
  bchain (db n) = [] \/ exists row, is_genesis row /\ bchain (db n) = [row].
Proof.
  intros Hempty. unfold initDb. rewrite Hempty. simpl.
  destruct (String.eqb _ _).
  - unfold Sql.insert_bchain. rewrite Hempty. simpl. intros H. inversion H; subst.
    right. eexists. split; [|reflexivity]. repeat split.
  - intros H. inversion H; subst. now left.
Qed.

(** *** Synchronization copies rows *)

Lemma copied_row_sound (r row : bchain_row) :
  bc_transactions r = [] -> heads (block_of_row r) row ->
  sound_row r -> sound_row row.
Proof.
  intros Hnil [Hix [Hts [Hnc [Hh [Hp [Hmr Hl]]]]]] Hs. simpl in *.
  specialize (Hl _ eq_refl). rewrite Hnil in Hl. simpl in Hl.
  inversion Hix; inversion Hts; inversion Hnc; inversion Hh; inversion Hp;
    inversion Hmr; clear Hix Hts Hnc Hh Hp Hmr.
  assert (E : block_of_row row = block_of_row r).
  { unfold block_of_row. rewrite Hl, Hnil. congruence. }
  destruct Hs as [[G1 [G2 [G3 [G4 G5]]]]|[V1 V2]].
  - left. unfold is_genesis. repeat split; congruence.
  - right. unfold verifies, stored_transactions in *.
    rewrite E, Hl. rewrite Hnil in V1, V2. simpl in *. split; congruence.
Qed.

Lemma applyChain_sound (rows : list bchain_row) :
  forall n,
    Forall sound_row rows ->
    Forall sound_row (bchain (db n)) ->
    Forall sound_row (bchain (db (fst (applyChain n (map block_of_row rows))))).
Proof.
  induction rows as [|r rows IH]; intros n Hrows Hn; simpl; [exact Hn|].
  inversion Hrows as [|? ? Hr Hrest]; subst.
  destruct (addBlock_cases n (block_of_row r))
    as [[e ->]|[txs [row [rows' [Ht [Hrow [_ [_ [_ E]]]]]]]]]; [exact Hn|].
  destruct (bc_transactions r) as [|l ls] eqn:Hnil.
  - rewrite E. simpl. apply IH; [assumption|].
    simpl. apply Forall_app. split; [assumption|].
    constructor; [|constructor].
    now apply (copied_row_sound r row Hnil Hrow).
  - destruct (chain_block_with_transactions_is_refused n r) as [e E'].
    + rewrite Hnil. discriminate.
    + rewrite E' in E. discriminate E.
Qed.

Lemma insert_by_index_perm (r : bchain_row) (l : list bchain_row) :
  Permutation (Sql.insert_by_index r l) (r :: l).
Proof.
  induction l as [|x l IH]; simpl; [reflexivity|].
  destruct (_ <=? _); [reflexivity|].
  rewrite IH. apply perm_swap.
Qed.

Lemma order_by_index_perm (l : list bchain_row) :
  Permutation (Sql.order_by_index l) l.
Proof.
  induction l as [|r l IH]; simpl; [reflexivity|].
  rewrite insert_by_index_perm. now constructor.
Qed.

(** *** The nodes the operations can produce *)

Lemma extends_sound (n n' : node) :
  extends_by verifies n n' ->
  Forall sound_row (bchain (db n)) -> Forall sound_row (bchain (db n')).
Proof.
  intros [->|[row [Hrow ->]]] H; [exact H|].
  apply Forall_app. split; [exact H|]. constructor; [now right|constructor].
Qed.

Lemma receiveBlock_extends_marked (marked : block -> Prop) (n : node) (b : block) :
  well_typed b = true \/ marked b ->
  extends_by (fun r => verifies r \/ row_of marked r) n (fst (receiveBlock n b)).
Proof.
  intros [Hw|Hm].
  - destruct (receiveBlock_extends n b Hw) as [E|[row [Hrow E]]]; [now left|].
    right. exists row. split; [now left | exact E].
  - destruct (receiveBlock n b) as [n1 r] eqn:E. simpl.
    destruct (complete b) eqn:Hc.
    2:{ rewrite (receiveBlock_incomplete n b Hc) in E. inversion E. now left. }
    destruct (complete_fields b Hc) as [i [txs [Hi Ht]]].
    pose proof E as E'. rewrite (receiveBlock_complete n b i txs Hc Hi Ht) in E'.
    destruct (i <=? lastIndex n); [inversion E'; now left|].
    destruct (negb (i =? lastIndex n + 1)); [inversion E'; now left|].
    destruct (negb (strict_eq (blk_previousBlockHash b) (JStr (lastHash n))));
      [inversion E'; now left|].
    destruct (calculateBlockHash b txs) as [h|]; [|inversion E'; now left].
    destruct (negb (strict_eq (JStr h) (blk_hash b))); [inversion E'; now left|].
    destruct (calculateMerkleRoot txs) as [root|]; [|inversion E'; now left].
    destruct (negb (strict_eq root (blk_merkleRoot b))); [inversion E'; now left|].
    destruct (addBlock_cases n b) as [[e Ea]|[txs' [row [rows [_ [_ [_ [_ [_ Ea]]]]]]]]];
      rewrite Ea in E'; [inversion E'; now left|].
    assert (r = accepted_reply) by (now inversion E'). subst r. clear E' Ea.
    destruct (receiveBlock_accepted n n1 b E)
      as [txs2 [h2 [row2 [rows2 [_ [_ [Ht2 [Hp [Eh [Ehh [Er [Hrow [_ [_ ->]]]]]]]]]]]]]].
    right. exists row2. split.
    + right. exists b. split; [exact Hm|].
      destruct Hrow as [_ [_ [_ [Hh _]]]]. rewrite Ehh in Hh. simpl in Hh.
      congruence.
    + now rewrite remove_keeps_bchain.
Qed.

Lemma copied_row_sound_marked (marked : block -> Prop) (r row : bchain_row) :
  bc_transactions r = [] -> heads (block_of_row r) row ->
  sound_or marked r -> sound_or marked row.
Proof.
  intros Hnil Hrow [Hg|[Hv|[b [Hm Hb]]]].
  - destruct (copied_row_sound r row Hnil Hrow (or_introl Hg)) as [G|V];
      [now left | right; now left].
  - destruct (copied_row_sound r row Hnil Hrow (or_intror Hv)) as [G|V];
      [now left | right; now left].
  - right. right. exists b. split; [exact Hm|].
    destruct Hrow as [_ [_ [_ [Hh _]]]]. simpl in Hh. congruence.
Qed.

Lemma applyChain_sound_marked (marked : block -> Prop) (rows : list bchain_row) :
  forall n,
    Forall (sound_or marked) rows ->
    Forall (sound_or marked) (bchain (db n)) ->
    Forall (sound_or marked) (bchain (db (fst (applyChain n (map block_of_row rows))))).
Proof.
  induction rows as [|r rows IH]; intros n Hrows Hn; simpl; [exact Hn|].
  inversion Hrows as [|? ? Hr Hrest]; subst.
  destruct (addBlock_cases n (block_of_row r))
    as [[e ->]|[txs [row [rows' [Ht [Hrow [_ [_ [_ E]]]]]]]]]; [exact Hn|].
  destruct (bc_transactions r) as [|l ls] eqn:Hnil.
  - rewrite E. simpl. apply IH; [assumption|].
    simpl. apply Forall_app. split; [assumption|].
    constructor; [|constructor].
    now apply (copied_row_sound_marked marked r row Hnil Hrow).
  - destruct (chain_block_with_transactions_is_refused n r) as [e E'].
    + rewrite Hnil. discriminate.
    + rewrite E' in E. discriminate E.
Qed.

Lemma reachable_sound_marked (marked : block -> Prop) (n : node) :
  reachable_by (fun b => well_typed b = true \/ marked b) n ->
  Forall (sound_or marked) (bchain (db n)).
Proof.
  intros H.
  induction H as [n0 n now Hempty Hinit
                 |n uuid now post t _ IH
                 |n uuid now t _ IH
                 |n now post _ IH
                 |n b _ IH Hw
                 |n a _ IHn _ IHa
                 |n e _ IH].
  - destruct (initDb_chain n0 n now Hempty Hinit) as [->|[row [Hg ->]]].
    + constructor.
    + constructor; [now left|constructor].
  - now rewrite submitTransaction_keeps_bchain.
  - now rewrite receiveTransaction_keeps_bchain.
  - destruct (mineBlockInternal_extends n now post) as [->|[row [Hrow ->]]]; [exact IH|].
    apply Forall_app. split; [exact IH|]. constructor; [right; now left|constructor].
  - destruct (receiveBlock_extends_marked marked n b Hw) as [->|[row [Hrow ->]]]; [exact IH|].
    apply Forall_app. split; [exact IH|]. constructor; [now right|constructor].
  - unfold synchronize. destruct (getLastBlock n); [exact IHn|].
    destruct (String.eqb _ _); [exact IHn|].
    unfold get_chain, getAllBlocks. apply applyChain_sound_marked; [|exact IHn].
    eapply Permutation_Forall; [|exact IHa].
    symmetry. apply order_by_index_perm.
  - unfold synchronize. destruct (getLastBlock n); [exact IH|].
    destruct (String.eqb _ _); exact IH.
Qed.

(** The row written for a well-typed block that is accepted verifies,
    whatever the node holds. *)
Lemma accepted_block_verifies (n n1 : node) (b : block) :
  receiveBlock n b = (n1, accepted_reply) -> well_typed b = true ->
  exists row,
    bchain (db n1) = bchain (db n) ++ [row] /\
    blk_hash b = JStr (bc_hash row) /\ verifies row.
Proof.
  intros E Hw.
  destruct (receiveBlock_accepted n n1 b E)
    as [txs [h [row [rows [_ [_ [Ht [Hp [Eh [Ehh [Er [Hrow [_ [_ ->]]]]]]]]]]]]]].
  exists row. split; [now rewrite remove_keeps_bchain|]. split.
  - destruct Hrow as [_ [_ [_ [Hh _]]]]. rewrite Ehh in Hh. simpl in Hh. congruence.
  - unfold well_typed in Hw. rewrite Ht in Hw. apply andb_true_iff in Hw.
    destruct Hw as [Hts Hrh].
    now apply (stored_row_verifies b txs row (lastHash n) h).
Qed.

(** C1, amended.  The row written for a received block that is well typed
    (a string [timestamp] and string leaf digests, [blockIndex] and [nonce]
    being integers) verifies: recomputing [merkleRoot] and [hash] from its
    own stored fields gives the stored values, whatever the node holds and
    whatever it received before.  So let a node, and the nodes whose chain
    it copies at its start, be sent any blocks, and mark those that are not
    well typed: every block of its chain verifies, but for the genesis
    block, which holds the two fixed digests of [initDb], and for the rows
    that carry the [hash] of a marked block. *)
Theorem stored_blocks_verify_except_genesis (marked : block -> Prop) (n : node) :
  (forall b n1,
     receiveBlock n b = (n1, accepted_reply) -> well_typed b = true ->
     exists row,
       bchain (db n1) = bchain (db n) ++ [row] /\
       blk_hash b = JStr (bc_hash row) /\ verifies row) /\
  (reachable_by (fun b => well_typed b = true \/ marked b) n ->
   Forall (fun r => is_genesis r \/ verifies r \/ row_of marked r) (bchain (db n))).
Proof.
  split.
  - intros b n1. apply accepted_block_verifies.
  - exact (reachable_sound_marked marked n).
Qed.

(** The authority after its first block is a reachable node. *)
Lemma authority_mined_reachable_by (admitted : block -> Prop) :
  reachable_by admitted authority_mined.
Proof.
  unfold authority_mined, authority_pending, submit_reading.
  apply reach_mine. do 5 apply reach_submit.
  apply (reach_init _ authority_fresh authority_started "2024-01-01T00:00:00.000Z").
  - reflexivity.
  - vm_compute. reflexivity.
Defined.

(** C1, an instance: the first block of the authority at a project node
    that has copied the genesis block, and the chain of the authority
    after that block, no block marked. *)
Lemma stored_blocks_verify_except_genesis_witness :
  (exists row,
     bchain (db (fst (receiveBlock joiner_in_step first_block)))
     = bchain (db joiner_in_step) ++ [row] /\
     blk_hash first_block = JStr (bc_hash row) /\ verifies row) /\
  Forall (fun r => is_genesis r \/ verifies r \/ row_of (fun _ => False) r)
         (bchain (db authority_mined)) /\
  map bc_blockIndex (bchain (db authority_mined)) = [0; 1].
Proof.
  split; [|split].
  - apply (proj1 (stored_blocks_verify_except_genesis (fun _ => False) joiner_in_step)
             first_block (fst (receiveBlock joiner_in_step first_block))).
    + vm_compute. reflexivity.
    + vm_compute. reflexivity.
  - apply (proj2 (stored_blocks_verify_except_genesis (fun _ => False) authority_mined)).
    apply authority_mined_reachable_by.
  - vm_compute. reflexivity.
Defined.



(* ================================================================== *)
(** ** Further properties of the ledger *)
(* ================================================================== *)

(** *** The chain is linked *)

Lemma linked_from_app (rows : list bchain_row) :
  forall i prev row,
    linked_from i prev (rows ++ [row]) <->
    linked_from i prev rows /\
    bc_blockIndex row = fst (tip i prev rows) /\
    bc_previousBlockHash row = snd (tip i prev rows).
Proof.
  induction rows as [|r rows IH]; intros i prev row; simpl.
  - tauto.
  - rewrite IH. tauto.
Qed.

Lemma tip_app (rows : list bchain_row) :
  forall i prev row,
    tip i prev (rows ++ [row]) = (fst (tip i prev rows) + 1, bc_hash row).
Proof.
  induction rows as [|r rows IH]; intros i prev row; simpl; [reflexivity|apply IH].
Qed.

Lemma linked_from_lower (rows : list bchain_row) :
  forall i prev r, linked_from i prev rows -> In r rows -> i <= bc_blockIndex r.
Proof.
  induction rows as [|x rows IH]; intros i prev r H Hin; [destruct Hin|].
  destruct H as [Hx [_ Hrest]]. destruct Hin as [<-|Hin]; [lia|].
  specialize (IH _ _ _ Hrest Hin). lia.
Qed.

(** In a linked list of rows the row of greatest index is the last one. *)
Lemma linked_from_max (rows : list bchain_row) :
  forall i prev m,
    linked_from i prev rows -> In m rows ->
    (forall r, In r rows -> bc_blockIndex r <= bc_blockIndex m) ->
    tip i prev rows = (bc_blockIndex m + 1, bc_hash m).
Proof.
  induction rows as [|x rows IH]; intros i prev m H Hin Hmax; [destruct Hin|].
  destruct H as [Hx [_ Hrest]]. simpl.
  destruct rows as [|y rows].
  - destruct Hin as [<-|[]]. simpl. now rewrite Hx.
  - apply (IH _ _ m Hrest).
    + destruct Hin as [<-|Hin]; [|exact Hin].
      pose proof (Hmax y (or_intror (or_introl eq_refl))) as Hy.
      destruct Hrest as [Hyi _]. lia.
    + intros r Hr. apply Hmax. now right.
Qed.

Lemma linked_tip (n : node) :
  linked (bchain (db n)) ->
  tip 0 "0" (bchain (db n)) = (lastIndex n + 1, lastHash n).
Proof.
  intros H. unfold lastIndex, lastHash.
  pose proof (getLastBlock_spec n) as Hl.
  destruct (getLastBlock n) as [m|].
  - destruct Hl as [Hin Hmax]. now apply (linked_from_max _ 0 "0" m).
  - rewrite Hl. reflexivity.
Qed.

(** A row appended for a block of index [lastIndex + 1] that names the
    last hash keeps the chain linked. *)
Lemma linked_extended (n : node) (b : block) (row : bchain_row) :
  linked (bchain (db n)) -> heads b row ->
  blk_blockIndex b = Some (lastIndex n + 1) ->
  blk_previousBlockHash b = JStr (lastHash n) ->
  linked (bchain (db n) ++ [row]).
Proof.
  intros Hl [Hix [_ [_ [_ [Hp _]]]]] Ei Ep.
  apply linked_from_app. rewrite (linked_tip n Hl).
  rewrite Ep in Hp. simpl in Hp. split; [exact Hl|]. simpl. split; congruence.
Qed.

Lemma mineBlockInternal_linked (n : node) (now : string) (post : string -> bool) :
  linked (bchain (db n)) -> linked (bchain (db (fst (mineBlockInternal n now post)))).
Proof.
  intros Hl. unfold mineBlockInternal.
  destruct (getMempoolCount n <? BLOCK_SIZE)%nat; [exact Hl|].
  destruct (buildBlock_ok n now) as [root [h [_ [Eb _]]]]. cbv zeta in Eb.
  rewrite Eb.
  match type of Eb with _ = Ok ?b => set (newBlock := b) in * end.
  destruct (addBlock_cases n newBlock)
    as [[e ->]|[txs [row [rows [_ [Hrow [_ [_ [_ ->]]]]]]]]]; [exact Hl|].
  assert (Hnew : linked (bchain (db n) ++ [row]))
    by (apply (linked_extended n newBlock row Hl Hrow); reflexivity).
  destruct (broadcast post _); simpl; now rewrite remove_keeps_bchain.
Qed.

Lemma receiveBlock_linked (n : node) (b : block) :
  linked (bchain (db n)) -> linked (bchain (db (fst (receiveBlock n b)))).
Proof.
  intros Hl. destruct (receiveBlock n b) as [n1 r] eqn:E. simpl.
  assert (Hcases : n1 = n \/ r = accepted_reply).
  { destruct (complete b) eqn:Hc.
    2:{ rewrite (receiveBlock_incomplete n b Hc) in E. inversion E. now left. }
    destruct (complete_fields b Hc) as [i [txs [Hi Ht]]].
    rewrite (receiveBlock_complete n b i txs Hc Hi Ht) in E.
    repeat match type of E with
           | (if ?c then _ else _) = _ => destruct c; [inversion E; now left|]
           | match ?c with Ok _ => _ | Throw _ => _ end = _ =>
               destruct c; [|inversion E; now left]
           end.
    destruct (addBlock_cases n b) as [[e Ea]|[? [? [? [_ [_ [_ [_ [_ Ea]]]]]]]]];
      rewrite Ea in E; inversion E; auto. }
  destruct Hcases as [->| ->]; [exact Hl|].
  destruct (receiveBlock_accepted n n1 b E)
    as [txs [h [row [rows [_ [Hi [_ [Hp [_ [_ [_ [Hrow [_ [_ ->]]]]]]]]]]]]]].
  rewrite remove_keeps_bchain. simpl.
  now apply (linked_extended n b row).
Qed.

Lemma insert_by_index_first (r : bchain_row) (rows : list bchain_row) :
  (forall x, In x rows -> bc_blockIndex r <= bc_blockIndex x) ->
  Sql.insert_by_index r rows = r :: rows.
Proof.
  destruct rows as [|x rows]; simpl; [reflexivity|]. intros H.
  pose proof (H x (or_introl eq_refl)) as Hx. apply Z.leb_le in Hx. now rewrite Hx.
Qed.

(** [ORDER BY blockIndex ASC] returns a linked chain as it is stored. *)
Lemma order_by_index_linked (rows : list bchain_row) :
  forall i prev, linked_from i prev rows -> Sql.order_by_index rows = rows.
Proof.
  induction rows as [|r rows IH]; intros i prev H; [reflexivity|].
  destruct H as [Hr [_ Hrest]]. simpl. rewrite (IH _ _ Hrest).
  apply insert_by_index_first. intros x Hx.
  pose proof (linked_from_lower _ _ _ x Hrest Hx). lia.
Qed.

Lemma applyChain_linked (rows : list bchain_row) :
  forall n i prev,
    linked_from i prev rows ->
    linked (bchain (db n)) -> tip 0 "0" (bchain (db n)) = (i, prev) ->
    linked (bchain (db (fst (applyChain n (map block_of_row rows))))).
Proof.
  induction rows as [|r rows IH]; intros n i prev Hrows Hn Htip; simpl; [exact Hn|].
  destruct Hrows as [Hri [Hrp Hrest]].
  destruct (addBlock_cases n (block_of_row r))
    as [[e ->]|[txs [row [rows' [Ht [Hrow [_ [_ [_ ->]]]]]]]]]; [exact Hn|].
  clear Ht. simpl.
  destruct Hrow as [Hix [_ [_ [Hh [Hp _]]]]]. simpl in Hix, Hh, Hp.
  inversion Hix; inversion Hh; inversion Hp.
  assert (Hnew : linked (bchain (db n) ++ [row])).
  { apply linked_from_app. rewrite Htip. split; [exact Hn|]. simpl. split; congruence. }
  apply (IH _ (i + 1) (bc_hash r)); [exact Hrest| |].
  - now rewrite remove_keeps_bchain.
  - rewrite remove_keeps_bchain. simpl. rewrite tip_app, Htip. simpl. congruence.
Qed.

(** X1: in the chain of every reachable node, whatever blocks its peers
    send, the rows carry the indices 0, 1, 2, ... in insertion order, the
    first names the previous hash ['0'] and every other one names the
    [hash] of the row before it. *)
Theorem reachable_chain_is_linked (n : node) :
  reachable_unrestricted n -> linked (bchain (db n)).
Proof.
  intros H. unfold reachable_unrestricted in H.
  induction H as [n0 n now Hempty Hinit
                 |n uuid now post t _ IH
                 |n uuid now t _ IH
                 |n now post _ IH
                 |n b _ IH _
                 |n a _ IHn _ IHa
                 |n e _ IH].
  - destruct (initDb_chain n0 n now Hempty Hinit) as [->|[row [Hg ->]]].
    + exact I.
    + destruct Hg as [G1 [_ [_ [G4 _]]]]. unfold linked. simpl. auto.
  - now rewrite submitTransaction_keeps_bchain.
  - now rewrite receiveTransaction_keeps_bchain.
  - now apply mineBlockInternal_linked.
  - now apply receiveBlock_linked.
  - unfold synchronize. pose proof (getLastBlock_spec n) as Hl.
    destruct (getLastBlock n); [exact IHn|].
    destruct (String.eqb _ _); [exact IHn|].
    unfold get_chain, getAllBlocks. rewrite (order_by_index_linked _ _ _ IHa).
    apply (applyChain_linked _ n 0 "0"); [exact IHa|exact IHn|].
    now rewrite Hl.
  - unfold synchronize. destruct (getLastBlock n); [exact IH|].
    destruct (String.eqb _ _); exact IH.
Qed.

(** X1, an instance: the chain of the authority after its first block. *)
Lemma reachable_chain_is_linked_witness :
  linked (bchain (db authority_mined)).
Proof.
  apply (reachable_chain_is_linked authority_mined).
  apply authority_mined_reachable_by.
Defined.

(** *** Pruning after a commit *)

Lemma delete_mempool_removes (d : database) (ids : list jsval) (v : jsval) (id : string) :
  In v ids -> Sql.bind_text v = Some id ->
  ~ In id (map m_transaction_id (mempool_transactions (Sql.delete_mempool d ids))).
Proof.
  intros Hin Hb H. simpl in H. apply in_map_iff in H. destruct H as [r [Hr Hf]].
  apply filter_In in Hf. destruct Hf as [_ Hf]. apply negb_true_iff in Hf.
  assert (E : existsb (fun o => match o with
                                | Some s => String.eqb (m_transaction_id r) s
                                | None => false
                                end) (map Sql.bind_text ids) = true).
  { apply existsb_exists. exists (Some id). split.
    - rewrite <- Hb. now apply in_map.
    - rewrite Hr. apply String.eqb_refl. }
  congruence.
Qed.

Lemma remove_removes (n : node) (ids : list jsval) (v : jsval) (id : string) :
  In v ids -> Sql.bind_text v = Some id ->
  ~ In id (map m_transaction_id
               (mempool_transactions (db (removeTransactionsFromMempool n ids)))).
Proof.
  intros Hin Hb. destruct ids as [|x ids]; [destruct Hin|].
  now apply (delete_mempool_removes (db n) (x :: ids) v).
Qed.

(** X2: when a received block is accepted, and when a block is mined, no
    row of the mempool is left with the id of one of its transactions,
    the id being a string. *)
Theorem committed_ids_leave_the_mempool
    (n n1 : node) (b : block) (txs : list transaction) (tx : transaction) (id : string) :
  blk_transactions b = Some txs -> In tx txs ->
  tx_transactionId tx = JStr id ->
  (receiveBlock n b = (n1, accepted_reply) \/
   exists now post, mineBlockInternal n now post = (n1, Ok (BlockMined b))) ->
  ~ In id (map m_transaction_id (mempool_transactions (db n1))).
Proof.
  intros Ht Hin Hid [Hacc|[now [post Hm]]].
  - destruct (receiveBlock_accepted n n1 b Hacc)
      as [txs' [h [row [rows [_ [_ [Ht' [_ [_ [_ [_ [_ [_ [_ ->]]]]]]]]]]]]]].
    assert (txs' = txs) by congruence. subst txs'.
    apply (remove_removes _ _ (tx_transactionId tx)); [now apply in_map|].
    now rewrite Hid.
  - unfold mineBlockInternal in Hm.
    destruct (getMempoolCount n <? BLOCK_SIZE)%nat; [discriminate Hm|].
    destruct (buildBlock_ok n now) as [root [h [_ [Eb _]]]]. cbv zeta in Eb.
    rewrite Eb in Hm.
    destruct (addBlockToBlockchain n _) as [n' [u|e]]; [|discriminate Hm].
    destruct (broadcast post _); [|discriminate Hm].
    inversion Hm; subst; clear Hm. simpl in Ht. inversion Ht; subst txs.
    unfold getTransactionsForBlock. fold (chosen_rows n).
    apply (remove_removes _ _ (tx_transactionId tx)); [now apply in_map|].
    now rewrite Hid.
Qed.

(** X2, an instance: the block the authority mines out of its five
    readings. *)
Lemma committed_ids_leave_the_mempool_witness :
  ~ In "7d3c1a52000040008000000000000001"
       (map m_transaction_id (mempool_transactions (db authority_mined))).
Proof.
  apply (committed_ids_leave_the_mempool authority_pending authority_mined first_block
           (map tx_of_row (chosen_rows authority_pending))
           (tx_of_row (hd blank_row (chosen_rows authority_pending)))).
  - vm_compute. reflexivity.
  - vm_compute. now left.
  - vm_compute. reflexivity.
  - right. exists "2024-01-01T00:01:00.000Z", all_peers_answer.
    vm_compute. reflexivity.
Defined.

(** *** What synchronization leaves alone *)

(** X3: the loop of the initial synchronization, run on a chain as
    [GET /chain] sends it, changes neither the confirmed transactions nor
    the mempool: the only blocks it can commit are blocks without
    transactions. *)
Theorem synchronization_confirms_nothing (rows : list bchain_row) (n : node) :
  confirmed_transactions (db (fst (applyChain n (map block_of_row rows))))
  = confirmed_transactions (db n) /\
  mempool_transactions (db (fst (applyChain n (map block_of_row rows))))
  = mempool_transactions (db n).
Proof.
  revert n. induction rows as [|r rows IH]; intros n; simpl; [split; reflexivity|].
  destruct (addBlock_cases n (block_of_row r))
    as [[e ->]|[txs [row [rows' [Ht [_ [_ [_ [Hrows E]]]]]]]]]; [split; reflexivity|].
  assert (Hnil : bc_transactions r = []).
  { destruct (bc_transactions r) as [|l ls] eqn:Hl; [reflexivity|]. exfalso.
    destruct (chain_block_with_transactions_is_refused n r) as [e E'].
    - rewrite Hl. discriminate.
    - rewrite E' in E. discriminate E. }
  simpl in Ht. rewrite Hnil in Ht. simpl in Ht. inversion Ht; subst txs.
  inversion Hrows; subst rows'. rewrite E, Hnil. simpl.
  match goal with |- context [applyChain ?m _] => destruct (IH m) as [-> ->] end.
  simpl. now rewrite app_nil_r.
Qed.

(* ================================================================== *)
(** ** The tables and the directory of a node in service *)
(* ================================================================== *)

(** *** The directory *)

Lemma existsb_eqb_in (url : string) (l : list string) :
  existsb (String.eqb url) l = true <-> In url l.
Proof.
  rewrite existsb_exists. split.
  - intros [x [Hin E]]. apply String.eqb_eq in E. now subst.
  - intros Hin. exists url. split; [exact Hin | apply String.eqb_refl].
Qed.

Lemma add_node_cases (n : node) (url : string) :
  (In url (networkNodes n) \/ url = myNodeUrl n) /\ add_node n url = n \/
  ~ In url (networkNodes n) /\ url <> myNodeUrl n /\
  add_node n url = mkNode (db n) (theProj n) (myNodeUrl n) (networkNodes n ++ [url]).
Proof.
  unfold add_node.
  destruct (existsb (String.eqb url) (networkNodes n)) eqn:E; simpl.
  - left. split; [|reflexivity]. left. now apply existsb_eqb_in.
  - destruct (String.eqb url (myNodeUrl n)) eqn:E2; simpl.
    + left. split; [|reflexivity]. right. now apply String.eqb_eq.
    + right. split; [|split; [|reflexivity]].
      * intros Hin. apply existsb_eqb_in in Hin. congruence.
      * now apply String.eqb_neq.
Qed.

Lemma add_node_fixed (n : node) (url : string) :
  db (add_node n url) = db n /\ theProj (add_node n url) = theProj n /\
  myNodeUrl (add_node n url) = myNodeUrl n.
Proof.
  destruct (add_node_cases n url) as [[_ ->]|[_ [_ ->]]]; simpl; auto.
Qed.

Lemma add_node_in (n : node) (url u : string) :
  In u (networkNodes (add_node n url)) <->
  In u (networkNodes n) \/ (u = url /\ url <> myNodeUrl n).
Proof.
  destruct (add_node_cases n url) as [[H ->]|[Hn [Hs ->]]]; simpl.
  - split; [auto|]. intros [Hin|[-> Hne]]; [exact Hin|]. destruct H; [assumption|contradiction].
  - rewrite in_app_iff. simpl. split.
    + intros [Hin|[<-|[]]]; auto.
    + intros [Hin|[-> _]]; auto.
Qed.

Lemma add_node_ok (n : node) (url : string) :
  directory_ok n -> directory_ok (add_node n url).
Proof.
  intros [Hnd Hself]. unfold directory_ok.
  destruct (add_node_cases n url) as [[_ ->]|[Hn [Hs ->]]]; simpl; [auto|].
  split.
  - apply NoDup_app; [exact Hnd | constructor; [intros []|constructor] |].
    intros x Hx [<-|[]]. contradiction.
  - rewrite in_app_iff. simpl. intros [H|[H|[]]]; [contradiction|congruence].
Qed.

Lemma add_node_prefix (n : node) (url : string) :
  exists added, networkNodes (add_node n url) = networkNodes n ++ added.
Proof.
  destruct (add_node_cases n url) as [[_ ->]|[_ [_ ->]]]; simpl.
  - exists []. now rewrite app_nil_r.
  - now exists [url].
Qed.

Lemma fold_add_node_fixed (l : list string) :
  forall n, db (fold_left add_node l n) = db n /\
            theProj (fold_left add_node l n) = theProj n /\
            myNodeUrl (fold_left add_node l n) = myNodeUrl n.
Proof.
  induction l as [|u l IH]; intros n; simpl; [auto|].
  destruct (IH (add_node n u)) as [A [B C]].
  destruct (add_node_fixed n u) as [A' [B' C']]. repeat split; congruence.
Qed.

Lemma fold_add_node_in (l : list string) :
  forall n u, In u (networkNodes (fold_left add_node l n)) <->
              In u (networkNodes n) \/ (In u l /\ u <> myNodeUrl n).
Proof.
  induction l as [|x l IH]; intros n u; simpl.
  - tauto.
  - rewrite IH, add_node_in. destruct (add_node_fixed n x) as [_ [_ ->]].
    split.
    + intros [[H|[-> H]]|[H1 H2]]; auto.
    + intros [H|[[<-|H] H2]]; auto.
Qed.

Lemma fold_add_node_ok (l : list string) :
  forall n, directory_ok n -> directory_ok (fold_left add_node l n).
Proof.
  induction l as [|x l IH]; intros n H; simpl; [exact H|].
  apply IH, add_node_ok, H.
Qed.

Lemma fold_add_node_prefix (l : list string) :
  forall n, exists added, networkNodes (fold_left add_node l n) = networkNodes n ++ added.
Proof.
  induction l as [|x l IH]; intros n; simpl.
  - exists []. now rewrite app_nil_r.
  - destruct (IH (add_node n x)) as [a2 E2]. destruct (add_node_prefix n x) as [a1 E1].
    exists (a1 ++ a2). now rewrite E2, E1, app_assoc.
Qed.

(** A list of addresses that are all known or the node's own adds nothing. *)
Lemma fold_add_node_known (l : list string) :
  forall n, (forall u, In u l -> In u (networkNodes n) \/ u = myNodeUrl n) ->
            fold_left add_node l n = n.
Proof.
  induction l as [|x l IH]; intros n H; simpl; [reflexivity|].
  destruct (add_node_cases n x) as [[_ E]|[Hn [Hs _]]].
  - rewrite E. apply IH. intros u Hu. apply H. now right.
  - destruct (H x (or_introl eq_refl)); contradiction.
Qed.

(** *** What the commits keep *)

(** A DELETE leaves the values of a UNIQUE column distinct. *)
Lemma NoDup_map_filter {Row Key : Type} (column : Row -> Key) (keep : Row -> bool)
    (rows : list Row) (Hrows : NoDup (map column rows)) :
  NoDup (map column (filter keep rows)).
Proof.
  induction rows as [|a l IH]; simpl in *; [constructor|].
  inversion Hrows as [|x xs Hnin Hnd]; subst.
  destruct (keep a); simpl; [|now apply IH].
  constructor; [|now apply IH].
  intros Hin. apply Hnin. apply in_map_iff in Hin. destruct Hin as [y [E Hy]].
  apply filter_In in Hy. apply in_map_iff. exists y. tauto.
Qed.

Lemma NoDup_snoc {A : Type} (l : list A) (a : A) :
  NoDup l -> ~ In a l -> NoDup (l ++ [a]).
Proof.
  intros Hnd Hnin. apply NoDup_app; [exact Hnd | constructor; [intros []|constructor] |].
  intros x Hx [<-|[]]. contradiction.
Qed.

Lemma bind_text_roundtrip (v : jsval) :
  Sql.bind_text (json_roundtrip v) = Sql.bind_text v.
Proof. destruct v; reflexivity. Qed.

Lemma existsb_confirmed_in (id : string) (rows : list confirmed_row) :
  existsb (fun r => String.eqb (c_transaction_id r) id) rows = true
  <-> In id (map c_transaction_id rows).
Proof.
  rewrite existsb_exists, in_map_iff. split.
  - intros [r [Hin E]]. apply String.eqb_eq in E. eauto.
  - intros [r [E Hin]]. exists r. split; [exact Hin|]. now apply String.eqb_eq.
Qed.

Lemma existsb_index_in (i : Z) (rows : list bchain_row) :
  existsb (fun r => bc_blockIndex r =? i) rows = true <-> In i (map bc_blockIndex rows).
Proof.
  rewrite existsb_exists, in_map_iff. split.
  - intros [r [Hin E]]. apply Z.eqb_eq in E. eauto.
  - intros [r [E Hin]]. exists r. split; [exact Hin|]. now apply Z.eqb_eq.
Qed.

(** An INSERT into [confirmed_transactions] that succeeds writes an id
    the table did not hold. *)
Lemma insert_confirmed_fresh (d d' : database) (block_id : Z) (tx : transaction) :
  Sql.insert_confirmed d block_id tx = Ok d' ->
  exists row, confirms block_id tx row /\
    ~ In (c_transaction_id row) (map c_transaction_id (confirmed_transactions d)) /\
    d' = mkDb (bchain d) (bchain_seq d) (mempool_transactions d)
              (confirmed_transactions d ++ [row]).
Proof.
  unfold Sql.insert_confirmed. intros H. insert_ok H.
  inversion H; subst; clear H.
  eexists; split; [|split; [|reflexivity]].
  - unfold confirms; simpl. repeat split; assumption.
  - simpl. intros Hin. apply existsb_confirmed_in in Hin. congruence.
Qed.

Lemma insert_confirmed_all_unique (txs : list transaction) :
  forall (d d' : database) (block_id : Z),
    insert_confirmed_all d block_id txs = Ok d' ->
    NoDup (map c_transaction_id (confirmed_transactions d)) ->
    NoDup (map c_transaction_id (confirmed_transactions d')).
Proof.
  induction txs as [|tx txs IH]; simpl; intros d d' block_id H Hnd.
  - now inversion H; subst.
  - destruct (Sql.insert_confirmed d block_id tx) as [d1|] eqn:E; simpl in H; [|discriminate].
    apply (IH d1 d' block_id H).
    apply insert_confirmed_fresh in E. destruct E as [row [_ [Hfresh ->]]]. simpl.
    rewrite map_app. simpl. now apply NoDup_snoc.
Qed.

Lemma confirms_lists (block_id : Z) (txs : list transaction) (rows : list confirmed_row) :
  Forall2 (confirms block_id) txs rows ->
  Forall2 lists (lightweightTransactions txs) rows.
Proof.
  induction 1 as [|tx row txs rows H _ IH]; simpl; constructor; [|exact IH].
  unfold lists; simpl. rewrite !bind_text_roundtrip. split; apply H.
Qed.

Lemma confirms_block_id (block_id : Z) (txs : list transaction) (rows : list confirmed_row) :
  Forall2 (confirms block_id) txs rows ->
  Forall (fun c => c_block_id c = block_id) rows.
Proof.
  induction 1 as [|tx row txs rows H _ IH]; constructor; [apply H | exact IH].
Qed.

Lemma filter_all {A : Type} (p : A -> bool) (l : list A) :
  Forall (fun x => p x = true) l -> filter p l = l.
Proof.
  induction 1 as [|x l H _ IH]; simpl; [reflexivity|]. now rewrite H, IH.
Qed.

Lemma filter_none {A : Type} (p : A -> bool) (l : list A) :
  Forall (fun x => p x = false) l -> filter p l = [].
Proof.
  induction 1 as [|x l H _ IH]; simpl; [reflexivity|]. now rewrite H, IH.
Qed.

(** A commit keeps the tables consistent. *)
Lemma addBlock_store_ok (n : node) (b : block) :
  store_ok (db n) -> store_ok (db (fst (addBlockToBlockchain n b))).
Proof.
  intros Hok.
  unfold addBlockToBlockchain.
  destruct (blk_transactions b) as [txs|] eqn:Htx; [|exact Hok].
  destruct (Sql.insert_bchain _ _ _ _ _ _ _ _) as [[d1 id]|e] eqn:E1;
    [|simpl; exact Hok].
  destruct (insert_confirmed_all d1 id txs) as [d2|e] eqn:E2; [|simpl; exact Hok].
  simpl.
  pose proof (insert_confirmed_all_unique _ _ _ _ E2) as Huniq.
  destruct (insert_bchain_ok _ _ _ _ _ Htx E1) as [row [Hrow [Hid [Hseq [Hfresh ->]]]]].
  apply insert_confirmed_all_ok in E2. destruct E2 as [rows [Hrows ->]]. simpl in *.
  destruct Hok as [Hm Hc Hi Hids Hb Hr Hcb].
  assert (Hnew : Forall (fun c => c_block_id c = id) rows)
    by (eapply confirms_block_id; eassumption).
  rewrite Forall_forall in Hb, Hr, Hcb, Hnew.
  assert (Hold : forall c, In c (confirmed_transactions (db n)) ->
                           c_block_id c <= bchain_seq (db n)).
  { intros c Hc'. specialize (Hr c Hc').
    apply in_map_iff in Hr. destruct Hr as [r [<- Hin]]. now apply Hb. }
  constructor; simpl.
  - exact Hm.
  - now apply Huniq.
  - rewrite map_app. simpl. apply NoDup_snoc; [exact Hi|].
    intros Hin. apply existsb_index_in in Hin. congruence.
  - rewrite map_app. simpl. apply NoDup_snoc; [exact Hids|].
    intros Hin. apply in_map_iff in Hin. destruct Hin as [r [E Hin]].
    specialize (Hb r Hin). lia.
  - apply Forall_app. split.
    + apply Forall_forall. intros r Hin. specialize (Hb r Hin). lia.
    + constructor; [lia|constructor].
  - apply Forall_app. split.
    + apply Forall_forall. intros c Hin. rewrite map_app, in_app_iff. left. now apply Hr.
    + apply Forall_forall. intros c Hin. rewrite map_app, in_app_iff. right.
      simpl. left. rewrite Hid. symmetry. now apply Hnew.
  - apply Forall_app. split.
    + apply Forall_forall. intros r Hin.
      unfold rows_of_block in *. simpl. rewrite filter_app.
      rewrite (filter_none _ rows).
      * rewrite app_nil_r. now apply Hcb.
      * apply Forall_forall. intros c Hc'. specialize (Hnew c Hc'). specialize (Hb r Hin).
        apply Z.eqb_neq. lia.
    + constructor; [|constructor].
      unfold rows_of_block. simpl. rewrite filter_app.
      rewrite (filter_none _ (confirmed_transactions (db n))).
      * rewrite (filter_all _ rows).
        -- destruct Hrow as [_ [_ [_ [_ [_ [_ Hl]]]]]]. rewrite (Hl txs Htx).
           eapply confirms_lists; eassumption.
        -- apply Forall_forall. intros c Hc'. specialize (Hnew c Hc'). apply Z.eqb_eq. lia.
      * apply Forall_forall. intros c Hc'. specialize (Hold c Hc').
        apply Z.eqb_neq. lia.
Qed.

Lemma remove_store_ok (n : node) (ids : list jsval) :
  store_ok (db n) -> store_ok (db (removeTransactionsFromMempool n ids)).
Proof.
  intros Hok. unfold removeTransactionsFromMempool.
  destruct ids as [|i ids]; [exact Hok|].
  destruct Hok as [Hm Hc Hi Hids Hb Hr Hcb].
  constructor; simpl; try assumption.
  now apply NoDup_map_filter.
Qed.

Lemma createTransaction_cases (n : node) (uuid now : string) (t : transaction) :
  (exists e, createTransaction n uuid now t = (n, Throw e)) \/
  (exists row tx,
      ~ In (m_transaction_id row) (map m_transaction_id (mempool_transactions (db n))) /\
      createTransaction n uuid now t
      = (with_db n (mkDb (bchain (db n)) (bchain_seq (db n))
                         (mempool_transactions (db n) ++ [row])
                         (confirmed_transactions (db n))), Ok tx)).
Proof.
  unfold createTransaction.
  destruct (strict_eq (theProj n) JUndefined && strict_eq (tx_projId t) JUndefined);
    [left; eauto|].
  destruct (finalRowHash uuid now t) as [rh|e]; [|left; eauto].
  destruct (Sql.insert_mempool _ _ _ _ _ _ _ _ _ _ _ _) as [d|e] eqn:E; [|left; eauto].
  right. apply insert_mempool_ok in E.
  destruct E as [row [-> [_ [_ [_ [_ [_ Hfresh]]]]]]].
  eauto.
Qed.

Lemma createTransaction_store_ok (n : node) (uuid now : string) (t : transaction) :
  store_ok (db n) -> store_ok (db (fst (createTransaction n uuid now t))).
Proof.
  intros Hok.
  destruct (createTransaction_cases n uuid now t) as [[e ->]|[row [tx [Hfresh ->]]]];
    [exact Hok|].
  simpl. destruct Hok as [Hm Hc Hi Hids Hb Hr Hcb].
  constructor; simpl; try assumption.
  rewrite map_app. simpl. now apply NoDup_snoc.
Qed.

Lemma submitTransaction_fst (n : node) (uuid now : string) (post : string -> bool)
    (t : transaction) :
  fst (submitTransaction n uuid now post t) = fst (createTransaction n uuid now t).
Proof.
  unfold submitTransaction.
  destruct (createTransaction n uuid now t) as [n' [tx|e]]; [|reflexivity].
  simpl. destruct (broadcast post (networkNodes n')); reflexivity.
Qed.

Lemma receiveTransaction_fst (n : node) (uuid now : string) (t : transaction) :
  fst (receiveTransaction n uuid now t) = n \/
  fst (receiveTransaction n uuid now t) = fst (createTransaction n uuid now t).
Proof.
  unfold receiveTransaction.
  destruct (_ || _); [now left|].
  destruct (sha256_update _); [|now left].
  destruct (negb _); [now left|].
  right. destruct (createTransaction n uuid now t) as [n' [tx|e]]; [reflexivity|].
  simpl. destruct (is_duplicate_id e); reflexivity.
Qed.

Lemma mineBlockInternal_fst (n : node) (now : string) (post : string -> bool) :
  fst (mineBlockInternal n now post) = n \/
  exists b, buildBlock n now = Ok b /\
    snd (addBlockToBlockchain n b) = Ok tt /\
    fst (mineBlockInternal n now post)
    = removeTransactionsFromMempool (fst (addBlockToBlockchain n b))
        (map tx_transactionId (getTransactionsForBlock n BLOCK_SIZE)).
Proof.
  unfold mineBlockInternal.
  destruct (getMempoolCount n <? BLOCK_SIZE)%nat; [now left|].
  destruct (buildBlock n now) as [b|e] eqn:Eb; [|now left].
  destruct (addBlock_cases n b) as [[e E]|[txs [row [rows [_ [_ [_ [_ [_ E]]]]]]]]].
  - rewrite E. now left.
  - right. exists b. split; [reflexivity|]. rewrite E. simpl.
    split; [reflexivity|].
    destruct (broadcast post _); reflexivity.
Qed.

Lemma receiveBlock_fst (n : node) (b : block) :
  fst (receiveBlock n b) = n \/
  exists txs, blk_transactions b = Some txs /\
    snd (addBlockToBlockchain n b) = Ok tt /\
    fst (receiveBlock n b)
    = removeTransactionsFromMempool (fst (addBlockToBlockchain n b))
        (map tx_transactionId txs).
Proof.
  unfold receiveBlock.
  destruct (blk_blockIndex b) as [i|]; [|now left].
  destruct (blk_transactions b) as [txs|] eqn:Htx; [|now left].
  destruct (_ || _); [now left|].
  destruct (i <=? lastIndex n); [now left|].
  destruct (negb (i =? _)); [now left|].
  destruct (negb (strict_eq _ _)); [now left|].
  destruct (calculateBlockHash b txs); [|now left].
  destruct (negb (strict_eq _ _)); [now left|].
  destruct (calculateMerkleRoot txs); [|now left].
  destruct (negb (strict_eq _ _)); [now left|].
  destruct (addBlock_cases n b) as [[e E]|[txs' [row [rows [_ [_ [_ [_ [_ E]]]]]]]]].
  - rewrite E. now left.
  - right. exists txs. rewrite E. simpl. auto.
Qed.

Lemma applyChain_store_ok (fullChain : list block) :
  forall n, store_ok (db n) -> store_ok (db (fst (applyChain n fullChain))).
Proof.
  induction fullChain as [|b rest IH]; intros n Hok; simpl; [exact Hok|].
  pose proof (addBlock_store_ok n b Hok) as H1.
  destruct (addBlockToBlockchain n b) as [n1 [u|e]]; simpl in *; [|exact H1].
  destruct (blk_transactions b) as [txs|]; [|exact H1].
  apply IH. now apply remove_store_ok.
Qed.

Lemma synchronize_store_ok (n : node) (fetched : result (option (list block))) :
  store_ok (db n) -> store_ok (db (synchronize n fetched)).
Proof.
  intros Hok. unfold synchronize.
  destruct (getLastBlock n); [exact Hok|].
  destruct (String.eqb _ _); [exact Hok|].
  destruct fetched as [[c|]|e]; try exact Hok.
  now apply applyChain_store_ok.
Qed.

Lemma empty_store_ok : store_ok (mkDb [] 0 [] []).
Proof. constructor; simpl; constructor. Qed.

Lemma initDb_store_ok (n n1 : node) (now : string) :
  store_ok (db n) -> initDb n now = Ok n1 -> store_ok (db n1).
Proof.
  intros Hok. unfold initDb.
  destruct (0 <? List.length (bchain (db n)))%nat eqn:El;
    [intros H; inversion H; subst; exact Hok|].
  destruct (String.eqb _ _); [|intros H; inversion H; subst; exact Hok].
  apply Nat.ltb_ge in El.
  destruct (bchain (db n)) as [|r rs] eqn:Ech; [|simpl in El; lia].
  unfold Sql.insert_bchain. rewrite Ech. simpl. intros H. inversion H; subst; clear H.
  simpl. destruct Hok as [Hm Hc Hi Hids Hb Hr Hcb]. rewrite Ech in *.
  constructor; simpl; try assumption.
  - constructor; [intros []|constructor].
  - constructor; [intros []|constructor].
  - constructor; [simpl; lia|constructor].
  - rewrite Forall_forall in Hr. apply Forall_forall. intros c Hin. destruct (Hr c Hin).
  - constructor; [|constructor]. unfold rows_of_block. simpl.
    rewrite filter_none; [constructor|].
    rewrite Forall_forall in Hr. apply Forall_forall. intros c Hin. destruct (Hr c Hin).
Qed.

Lemma register_node_db (n : node) (u : option string) :
  db (fst (register_node n u)) = db n.
Proof.
  unfold register_node. destruct u as [url|]; [|reflexivity].
  destruct (negb _); [reflexivity|]. simpl. apply add_node_fixed.
Qed.

Lemma register_nodes_bulk_db (n : node) (l : option (list string)) :
  db (fst (register_nodes_bulk n l)) = db n.
Proof.
  unfold register_nodes_bulk. destruct l as [l|]; [|reflexivity].
  simpl. apply fold_add_node_fixed.
Qed.

Lemma register_and_broadcast_node_fst (n : node) (u : option string)
    (answered : request -> bool) :
  fst (fst (register_and_broadcast_node n u answered)) = fst (register_node n u).
Proof.
  unfold register_and_broadcast_node, register_node. destruct u as [url|]; [|reflexivity].
  destruct (negb _); [reflexivity|].
  destruct (answered _); reflexivity.
Qed.

(** Every node in service keeps its tables consistent. *)
Lemma in_service_store_ok (n : node) : in_service n -> store_ok (db n).
Proof.
  induction 1 as [proj url now n H | n n1 proj url now _ IH H | n fetched _ IH
                 | n uuid now post t _ IH | n uuid now t _ IH | n now post _ IH
                 | n b _ IH | n u _ IH | n l _ IH | n u answered _ IH].
  - eapply initDb_store_ok; [|exact H]. simpl. exact empty_store_ok.
  - eapply initDb_store_ok; [|exact H]. simpl. exact IH.
  - now apply synchronize_store_ok.
  - rewrite submitTransaction_fst. now apply createTransaction_store_ok.
  - destruct (receiveTransaction_fst n uuid now t) as [->| ->];
      [exact IH | now apply createTransaction_store_ok].
  - destruct (mineBlockInternal_fst n now post) as [->|[b [_ [_ ->]]]]; [exact IH|].
    now apply remove_store_ok, addBlock_store_ok.
  - destruct (receiveBlock_fst n b) as [->|[txs [_ [_ ->]]]]; [exact IH|].
    now apply remove_store_ok, addBlock_store_ok.
  - now rewrite register_node_db.
  - now rewrite register_nodes_bulk_db.
  - now rewrite register_and_broadcast_node_fst, register_node_db.
Qed.

(** The authority after its first block is a node in service. *)
Lemma authority_mined_in_service : in_service authority_mined.
Proof.
  unfold authority_mined, authority_pending, submit_reading.
  apply service_mine. do 5 apply service_submit.
  apply (service_start (JStr "0") "http://localhost:3000" "2024-01-01T00:00:00.000Z").
  vm_compute. reflexivity.
Defined.

Lemma authority_with_directory_in_service : in_service authority_with_directory.
Proof.
  unfold authority_with_directory.
  apply service_register_nodes_bulk, service_register_node, authority_mined_in_service.
Defined.

(** X5: in a node in service no transaction id is pending twice, none is
    confirmed twice and no block index is stored twice. *)
Theorem stored_ids_are_unique (n : node) :
  in_service n ->
  NoDup (map m_transaction_id (mempool_transactions (db n))) /\
  NoDup (map c_transaction_id (confirmed_transactions (db n))) /\
  NoDup (map bc_blockIndex (bchain (db n))).
Proof.
  intros H. apply in_service_store_ok in H. destruct H. auto.
Qed.

(** X5, an instance: the authority after its first block. *)
Lemma stored_ids_are_unique_witness :
  NoDup (map m_transaction_id (mempool_transactions (db authority_mined))) /\
  NoDup (map c_transaction_id (confirmed_transactions (db authority_mined))) /\
  NoDup (map bc_blockIndex (bchain (db authority_mined))).
Proof. exact (stored_ids_are_unique authority_mined authority_mined_in_service). Defined.

Lemma lists_lists_text (l : light_tx) (c : confirmed_row) : lists l c -> lists_text l c.
Proof. intros [H1 H2]. split; now apply bind_text_kept. Qed.

(** X6: in a node in service every confirmed row carries the id of a stored
    block, and the confirmed rows that carry the id of a block are, one for
    one and up to the order in which they were written, the transactions
    its row lists: where the listed id and row hash are strings, they are
    the id and the row hash of the confirmed row. *)
Theorem confirmed_rows_match_their_block (n : node) :
  in_service n ->
  (forall c, In c (confirmed_transactions (db n)) ->
             exists r, In r (bchain (db n)) /\ bc_id r = c_block_id c) /\
  (forall r, In r (bchain (db n)) ->
             exists arranged,
               Permutation arranged (rows_of_block (db n) r) /\
               Forall2 lists_text (bc_transactions r) arranged).
Proof.
  intros H. apply in_service_store_ok in H. destruct H as [_ _ _ _ _ Hr Hcb].
  rewrite Forall_forall in *. split.
  - intros c Hc. specialize (Hr c Hc). apply in_map_iff in Hr.
    destruct Hr as [r [E Hin]]. eauto.
  - intros r Hin. exists (rows_of_block (db n) r). split; [apply Permutation_refl|].
    specialize (Hcb r Hin).
    induction Hcb as [|l c ls cs Hl _ IH]; constructor;
      [now apply lists_lists_text | exact IH].
Qed.

(** X6, an instance: the authority after its first block. *)
Lemma confirmed_rows_match_their_block_witness :
  (forall c, In c (confirmed_transactions (db authority_mined)) ->
             exists r, In r (bchain (db authority_mined)) /\ bc_id r = c_block_id c) /\
  (forall r, In r (bchain (db authority_mined)) ->
             exists arranged,
               Permutation arranged (rows_of_block (db authority_mined) r) /\
               Forall2 lists_text (bc_transactions r) arranged).
Proof.
  exact (confirmed_rows_match_their_block authority_mined authority_mined_in_service).
Defined.

(** The directory of a node in service. *)
Lemma in_service_directory_ok (n : node) : in_service n -> directory_ok n.
Proof.
  assert (Hempty : forall d p u, directory_ok (mkNode d p u [])).
  { intros. split; simpl; [constructor | intros []]. }
  assert (Hinit : forall n0 n1 now, initDb n0 now = Ok n1 ->
                                    networkNodes n1 = networkNodes n0 /\
                                    myNodeUrl n1 = myNodeUrl n0).
  { intros n0 n1 now. unfold initDb. destruct (_ <? _)%nat; [intros H; now inversion H|].
    destruct (String.eqb _ _); [|intros H; now inversion H].
    destruct (Sql.insert_bchain _ _ _ _ _ _ _ _); simpl; intros H; inversion H.
    auto. }
  assert (Hdb : forall n d, directory_ok n -> directory_ok (with_db n d)).
  { intros n0 d H. exact H. }
  assert (Hremove : forall n ids, directory_ok n ->
                                  directory_ok (removeTransactionsFromMempool n ids)).
  { intros n0 ids H. unfold removeTransactionsFromMempool. destruct ids; exact H. }
  assert (Hadd : forall n b, directory_ok n ->
                             directory_ok (fst (addBlockToBlockchain n b))).
  { intros n0 b H.
    destruct (addBlock_cases n0 b) as [[e ->]|[txs [row [rows [_ [_ [_ [_ [_ ->]]]]]]]]];
      exact H. }
  assert (Hcreate : forall n uuid now t, directory_ok n ->
                                         directory_ok (fst (createTransaction n uuid now t))).
  { intros n0 uuid now t H.
    destruct (createTransaction_cases n0 uuid now t) as [[e ->]|[row [tx [_ ->]]]];
      exact H. }
  assert (Happly : forall c n, directory_ok n -> directory_ok (fst (applyChain n c))).
  { induction c as [|b rest IHc]; intros n0 H; simpl; [exact H|].
    pose proof (Hadd n0 b H) as H1.
    destruct (addBlockToBlockchain n0 b) as [n1 [u|e]]; simpl in *; [|exact H1].
    destruct (blk_transactions b); [|exact H1]. apply IHc. now apply Hremove. }
  induction 1 as [proj url now n H | n n1 proj url now _ IH H | n fetched _ IH
                 | n uuid now post t _ IH | n uuid now t _ IH | n now post _ IH
                 | n b _ IH | n u _ IH | n l _ IH | n u answered _ IH].
  - destruct (Hinit _ _ _ H) as [E1 E2]. unfold directory_ok. rewrite E1, E2. simpl.
    split; [constructor | intros []].
  - destruct (Hinit _ _ _ H) as [E1 E2]. unfold directory_ok. rewrite E1, E2. simpl.
    split; [constructor | intros []].
  - unfold synchronize. destruct (getLastBlock n); [exact IH|].
    destruct (String.eqb _ _); [exact IH|].
    destruct fetched as [[c|]|e]; try exact IH. now apply Happly.
  - rewrite submitTransaction_fst. now apply Hcreate.
  - destruct (receiveTransaction_fst n uuid now t) as [->| ->];
      [exact IH | now apply Hcreate].
  - destruct (mineBlockInternal_fst n now post) as [->|[b [_ [_ ->]]]]; [exact IH|].
    now apply Hremove, Hadd.
  - destruct (receiveBlock_fst n b) as [->|[txs [_ [_ ->]]]]; [exact IH|].
    now apply Hremove, Hadd.
  - unfold register_node. destruct u as [url|]; [|exact IH].
    destruct (negb _); [exact IH|]. simpl. now apply add_node_ok.
  - unfold register_nodes_bulk. destruct l as [l|]; [|exact IH].
    simpl. now apply fold_add_node_ok.
  - rewrite register_and_broadcast_node_fst.
    unfold register_node. destruct u as [url|]; [|exact IH].
    destruct (negb _); [exact IH|]. simpl. now apply add_node_ok.
Qed.

(** X7: the directory of a node in service never holds the node's own
    address and holds no address twice, whatever addresses (strings, or
    none) the registration requests carry and in whatever order they
    come. *)
Theorem directory_holds_each_peer_once (n : node) :
  in_service n ->
  NoDup (networkNodes n) /\ ~ In (myNodeUrl n) (networkNodes n).
Proof. apply in_service_directory_ok. Qed.

(** X7, an instance: the authority after two registrations that name
    one peer twice and the authority itself. *)
Lemma directory_holds_each_peer_once_witness :
  networkNodes authority_with_directory
  = ["http://localhost:3001"; "http://localhost:3002"] /\
  NoDup (networkNodes authority_with_directory) /\
  ~ In (myNodeUrl authority_with_directory) (networkNodes authority_with_directory).
Proof.
  split; [reflexivity|].
  exact (directory_holds_each_peer_once authority_with_directory
           authority_with_directory_in_service).
Defined.

(** *** Registrations *)

(** X8: bulk registration.  The directory after [POST /register-nodes-bulk]
    holds the addresses it held, in their places, and after them the listed
    addresses that were not known and are not the node's own; sending the
    same list again changes nothing. *)
Theorem bulk_registration_adds_unknown_addresses (n : node) (allNodes : list string) :
  let n1 := fst (register_nodes_bulk n (Some allNodes)) in
  (forall u, In u (networkNodes n1) <->
             In u (networkNodes n) \/ (In u allNodes /\ u <> myNodeUrl n)) /\
  (exists added, networkNodes n1 = networkNodes n ++ added) /\
  db n1 = db n /\
  register_nodes_bulk n1 (Some allNodes)
  = (n1, mkDirectoryReply 200 "Bulk registration successful." None).
Proof.
  simpl. split; [|split; [|split]].
  - intros u. apply fold_add_node_in.
  - apply fold_add_node_prefix.
  - apply fold_add_node_fixed.
  - f_equal. apply fold_add_node_known. intros u Hu.
    destruct (fold_add_node_fixed allNodes n) as [_ [_ ->]].
    destruct (String.eqb u (myNodeUrl n)) eqn:E.
    + right. now apply String.eqb_eq.
    + left. apply fold_add_node_in. right. split; [exact Hu|]. now apply String.eqb_neq.
Qed.

(** X9: one round trip of a registration.  [POST
    /register-and-broadcast-node] with the address of a new node adds the
    address to the directory, unless it is known or the node's own, and
    keeps it there whatever the peers answer; the last request it sends
    goes to the new node and lists the directory and the node's own
    address; the answer is 200 when that request is answered and 500
    otherwise.  The new node, on handling that request, knows the
    addresses it knew, the node it registered with and every address that
    node knows, its own left out. *)
Theorem registration_round_trip (a b : node) (url : string) (answered : request -> bool) :
  url <> "" -> myNodeUrl b = url ->
  let a1 := fst (fst (register_and_broadcast_node a (Some url) answered)) in
  let reply := snd (fst (register_and_broadcast_node a (Some url) answered)) in
  let sent := snd (register_and_broadcast_node a (Some url) answered) in
  let bulk := (url +++ "/network/register-nodes-bulk",
               AllNetworkNodes (networkNodes a1 ++ [myNodeUrl a])) in
  (forall u, In u (networkNodes a1) <->
             In u (networkNodes a) \/ (u = url /\ url <> myNodeUrl a)) /\
  (exists relays, sent = relays ++ [bulk]) /\
  dr_status reply = (if answered bulk then 200 else 500) /\
  (forall u, In u (networkNodes
                     (fst (register_nodes_bulk b (Some (networkNodes a1 ++ [myNodeUrl a])))))
             <-> In u (networkNodes b)
                 \/ (u <> url /\ (In u (networkNodes a) \/ u = myNodeUrl a))).
Proof.
  intros Hne Hb. cbv zeta.
  assert (Ha1 : fst (fst (register_and_broadcast_node a (Some url) answered))
                = add_node a url).
  { rewrite register_and_broadcast_node_fst. unfold register_node.
    now rewrite (proj2 (truthy_str url) Hne). }
  rewrite Ha1.
  destruct (add_node_fixed a url) as [_ [_ Hself]].
  split; [intros u; apply add_node_in|]. split; [|split].
  - unfold register_and_broadcast_node. rewrite (proj2 (truthy_str url) Hne).
    cbn [negb]. rewrite Hself.
    destruct (answered _); simpl; eexists; reflexivity.
  - unfold register_and_broadcast_node. rewrite (proj2 (truthy_str url) Hne).
    cbn [negb]. rewrite Hself.
    destruct (answered _); reflexivity.
  - intros u. simpl. rewrite fold_add_node_in, Hb, in_app_iff, add_node_in. simpl.
    split.
    + intros [H|[[[H|[H1 H2]]|[H|[]]] H3]]; auto. contradiction.
    + intros [H|[H1 [H|H]]]; auto 6.
Qed.

(** X9, an instance: a project node registers with the authority. *)
Lemma registration_round_trip_witness :
  let a1 := fst (fst (register_and_broadcast_node authority_mined
                        (Some "http://localhost:3001") every_request_answered)) in
  let reply := snd (fst (register_and_broadcast_node authority_mined
                           (Some "http://localhost:3001") every_request_answered)) in
  let sent := snd (register_and_broadcast_node authority_mined
                     (Some "http://localhost:3001") every_request_answered) in
  let bulk := ("http://localhost:3001" +++ "/network/register-nodes-bulk",
               AllNetworkNodes (networkNodes a1 ++ [myNodeUrl authority_mined])) in
  (forall u, In u (networkNodes a1) <->
             In u (networkNodes authority_mined)
             \/ (u = "http://localhost:3001"
                 /\ "http://localhost:3001" <> myNodeUrl authority_mined)) /\
  (exists relays, sent = relays ++ [bulk]) /\
  dr_status reply = (if every_request_answered bulk then 200 else 500) /\
  (forall u, In u (networkNodes
                     (fst (register_nodes_bulk joiner
                             (Some (networkNodes a1 ++ [myNodeUrl authority_mined])))))
             <-> In u (networkNodes joiner)
                 \/ (u <> "http://localhost:3001"
                     /\ (In u (networkNodes authority_mined)
                         \/ u = myNodeUrl authority_mined))).
Proof.
  apply (registration_round_trip authority_mined joiner "http://localhost:3001"
           every_request_answered).
  - discriminate.
  - reflexivity.
Defined.

(* ================================================================== *)
(** ** The production of a block, in full (C4) *)
(* ================================================================== *)

(** *** Digests are not empty *)

Lemma hex_word_nonempty (w : Z) : Sha256.hex_word w <> "".
Proof. unfold Sha256.hex_word. simpl. discriminate. Qed.

Lemma compress_nonempty (h block : list Z) : h <> [] -> Sha256.compress h block <> [].
Proof.
  unfold Sha256.compress, Sha256.list_of. destruct h as [|x h]; [congruence|].
  intros _. cbv zeta. cbn [combine map]. discriminate.
Qed.

Lemma blocks_nonempty (fuel : nat) :
  forall ws h, h <> [] -> Sha256.blocks fuel ws h <> [].
Proof.
  induction fuel as [|f IH]; intros ws h Hh; destruct ws as [|w ws];
    cbn [Sha256.blocks]; try exact Hh.
  apply IH. now apply compress_nonempty.
Qed.

Lemma sha256_nonempty (s : string) : sha256 s <> "".
Proof.
  unfold sha256, Sha256.hexdigest, Sha256.digest_words.
  pose proof (blocks_nonempty
                (List.length (Sha256.words_of
                                (List.length (Sha256.pad (Sha256.bytes_of_string s)))
                                (Sha256.pad (Sha256.bytes_of_string s))))
                (Sha256.words_of (List.length (Sha256.pad (Sha256.bytes_of_string s)))
                                 (Sha256.pad (Sha256.bytes_of_string s)))
                Sha256.H0 ltac:(discriminate)) as H.
  cbv zeta.
  destruct (Sha256.blocks _ _ _) as [|w ws]; [congruence|].
  pose proof (hex_word_nonempty w) as Hw.
  cbn [map String.concat].
  destruct (Sha256.hex_word w) as [|c r]; [congruence|].
  destruct (map Sha256.hex_word ws); cbn [String.append]; discriminate.
Qed.

Lemma digest_truthy (v : jsval) : digest v -> truthy v = true.
Proof. intros [x ->]. apply truthy_str, sha256_nonempty. Qed.

Lemma sha256_update_ok (v : jsval) (h : string) :
  sha256_update v = Ok h -> exists s, v = JStr s /\ h = sha256 s.
Proof. destruct v; simpl; intros H; inversion H; eauto. Qed.

Lemma pair_up_digest (hashes r : list jsval) :
  pair_up hashes = Ok r -> Forall digest r.
Proof.
  revert r.
  induction hashes as [hashes IH] using (well_founded_induction
    (Wf_nat.well_founded_ltof _ (@List.length jsval))).
  destruct hashes as [|a [|b rest]]; simpl; intros r H.
  - inversion H. constructor.
  - destruct (sha256_update (js_add a JUndefined)) as [h|] eqn:E; simpl in H; inversion H.
    apply sha256_update_ok in E. destruct E as [s [_ ->]].
    constructor; [now exists s | constructor].
  - destruct (sha256_update (js_add a b)) as [h|] eqn:E; simpl in H; [|discriminate].
    destruct (pair_up rest) as [r'|] eqn:E'; simpl in H; [|discriminate].
    inversion H; subst. apply sha256_update_ok in E. destruct E as [s [_ ->]].
    constructor; [now exists s|].
    apply (IH rest); [unfold Wf_nat.ltof; simpl; lia | exact E'].
Qed.

Lemma merkle_loop_digest (fuel : nat) :
  forall hashes r, Forall digest hashes -> merkle_loop fuel hashes = Ok r -> Forall digest r.
Proof.
  induction fuel as [|f IH]; intros hashes r Hd H; simpl in H.
  - now inversion H; subst.
  - destruct (1 <? List.length hashes)%nat; [|now inversion H; subst].
    destruct (pair_up (duplicate_last hashes)) as [nh|] eqn:E; simpl in H; [|discriminate].
    apply (IH nh r); [|exact H]. eapply pair_up_digest; eassumption.
Qed.

(** The root of two or more leaves, when it is a string, is a digest. *)
Lemma merkle_root_is_digest (txs : list transaction) (v : jsval) :
  (2 <= List.length txs)%nat -> calculateMerkleRoot txs = Ok v ->
  v = JUndefined \/ digest v.
Proof.
  intros Hlen. unfold calculateMerkleRoot.
  destruct txs as [|tx txs]; [simpl in Hlen; lia|].
  remember (tx :: txs) as l eqn:El. clear El.
  destruct (List.length l) as [|f] eqn:Ef; [lia|].
  simpl merkle_loop. rewrite length_map, Ef.
  replace (1 <? S f)%nat with true by (symmetry; apply Nat.ltb_lt; lia).
  destruct (pair_up (duplicate_last (map tx_rowHash l))) as [nh|] eqn:E; simpl; [|discriminate].
  destruct (merkle_loop f nh) as [r|] eqn:E2; simpl; [|discriminate].
  intros H. inversion H; subst; clear H.
  assert (Hd : Forall digest r).
  { eapply merkle_loop_digest; [|exact E2]. eapply pair_up_digest; eassumption. }
  destruct r as [|x r]; [now left|]. right. simpl. now inversion Hd.
Qed.

(** *** The rows a block takes *)

Lemma order_by_timestamp_length (l : list mempool_row) :
  List.length (Sql.order_by_timestamp l) = List.length l.
Proof. apply Permutation_length, order_by_timestamp_perm. Qed.

Lemma chosen_rows_length (n : node) :
  (BLOCK_SIZE <= getMempoolCount n)%nat -> List.length (chosen_rows n) = BLOCK_SIZE.
Proof.
  intros H. unfold chosen_rows. rewrite length_firstn, order_by_timestamp_length.
  unfold getMempoolCount in H. lia.
Qed.

Lemma chosen_left_perm (n : node) :
  Permutation (chosen_rows n ++ left_rows n) (mempool_transactions (db n)).
Proof.
  unfold chosen_rows, left_rows. rewrite firstn_skipn. apply order_by_timestamp_perm.
Qed.

Lemma chosen_left_unique (n : node) :
  NoDup (map m_transaction_id (mempool_transactions (db n))) ->
  NoDup (map m_transaction_id (chosen_rows n) ++ map m_transaction_id (left_rows n)).
Proof.
  intros H. rewrite <- map_app.
  eapply Permutation_NoDup; [|exact H].
  apply Permutation_map, Permutation_sym, chosen_left_perm.
Qed.

Lemma chosen_unique (n : node) :
  NoDup (map m_transaction_id (mempool_transactions (db n))) ->
  NoDup (map m_transaction_id (chosen_rows n)).
Proof.
  intros H. apply chosen_left_unique in H. now apply NoDup_app_remove_r in H.
Qed.

Lemma getTransactionsForBlock_chosen (n : node) :
  getTransactionsForBlock n BLOCK_SIZE = map tx_of_row (chosen_rows n).
Proof. reflexivity. Qed.

(** *** The commit of pending rows *)

Lemma bind_text_station (r : mempool_row) :
  Sql.bind_text (tx_stationID (tx_of_row r)) = m_station_id r.
Proof. unfold tx_of_row; simpl. destruct (m_station_id r); reflexivity. Qed.

Lemma insert_confirmed_pending (d : database) (block_id : Z) (r : mempool_row) :
  Sql.insert_confirmed d block_id (tx_of_row r)
  = if existsb (fun c => String.eqb (c_transaction_id c) (m_transaction_id r))
               (confirmed_transactions d)
    then Throw (SqliteError (UniqueFailed "confirmed_transactions.transaction_id"))
    else Ok (mkDb (bchain d) (bchain_seq d) (mempool_transactions d)
                  (confirmed_transactions d ++ [confirmed_of_pending block_id r])).
Proof.
  unfold Sql.insert_confirmed. cbn [tx_of_row tx_transactionId tx_projId tx_timestamp
    tx_submitterId tx_rawDataJson tx_rowHash tx_SO2 tx_NO2 tx_PM10 tx_PM2_5
    Sql.bind_text Sql.not_null bind].
  destruct (existsb _ _); cbn [Sql.unique bind]; [reflexivity|].
  rewrite bind_text_station. reflexivity.
Qed.

(** Pending rows with distinct ids, none of them confirmed, are all
    confirmed by the INSERTs of a commit. *)
Lemma insert_confirmed_rows_ok (rows : list mempool_row) :
  forall (d : database) (block_id : Z),
    NoDup (map m_transaction_id rows) ->
    (forall r, In r rows ->
               ~ In (m_transaction_id r) (map c_transaction_id (confirmed_transactions d))) ->
    insert_confirmed_all d block_id (map tx_of_row rows)
    = Ok (mkDb (bchain d) (bchain_seq d) (mempool_transactions d)
               (confirmed_transactions d ++ map (confirmed_of_pending block_id) rows)).
Proof.
  induction rows as [|r rows IH]; intros d block_id Hnd Hfresh; simpl.
  - rewrite app_nil_r. now destruct d.
  - rewrite insert_confirmed_pending.
    destruct (existsb _ _) eqn:E.
    + apply existsb_confirmed_in in E. exfalso. apply (Hfresh r); [now left | exact E].
    + simpl bind. inversion Hnd as [|x xs Hnin Hnd']; subst.
      rewrite IH; simpl.
      * now rewrite <- app_assoc.
      * exact Hnd'.
      * intros r' Hr'. rewrite map_app, in_app_iff. simpl.
        intros [Hin|[Heq|[]]].
        -- apply (Hfresh r'); [now right | exact Hin].
        -- apply Hnin. rewrite Heq. now apply in_map.
Qed.

(** As soon as one of the pending rows carries a confirmed id, the
    INSERTs fail on the UNIQUE constraint of the confirmed table. *)
Lemma insert_confirmed_rows_blocked (rows : list mempool_row) :
  forall (d : database) (block_id : Z),
    replayed (map c_transaction_id (confirmed_transactions d)) rows ->
    insert_confirmed_all d block_id (map tx_of_row rows)
    = Throw (SqliteError (UniqueFailed "confirmed_transactions.transaction_id")).
Proof.
  induction rows as [|r rows IH]; intros d block_id [x [Hx Hin]]; [destruct Hx|].
  simpl. rewrite insert_confirmed_pending.
  destruct (existsb _ _) eqn:E; [reflexivity|].
  simpl bind. apply IH. exists x. simpl. split.
  - destruct Hx as [->|Hx]; [|exact Hx].
    apply existsb_confirmed_in in Hin. congruence.
  - rewrite map_app, in_app_iff. now left.
Qed.

(** The block row of a block of pending rows is written when its index is
    above the indices of the chain. *)
Lemma insert_pending_block (p : node) (i : Z) (now prev root h : string)
    (rows : list mempool_row) :
  (forall r, In r (bchain (db p)) -> bc_blockIndex r < i) ->
  Sql.insert_bchain (db p) (Some i) (JStr now)
    (lightweightTransactions (map tx_of_row rows)) (Some 0)
    (JStr h) (JStr prev) (JStr root)
  = Ok (mkDb (bchain (db p)
              ++ [row_of_pending (bchain_seq (db p) + 1) i now prev root h rows])
             (bchain_seq (db p) + 1)
             (mempool_transactions (db p)) (confirmed_transactions (db p)),
        bchain_seq (db p) + 1).
Proof.
  intros Habove. unfold Sql.insert_bchain. simpl.
  destruct (existsb _ _) eqn:E; [|reflexivity].
  apply existsb_exists in E. destruct E as [r [Hin E]]. apply Z.eqb_eq in E.
  pose proof (Habove r Hin). lia.
Qed.

Lemma existsb_bound_ids (id : string) (rows : list mempool_row) :
  existsb (fun o => match o with
                    | Some s => String.eqb id s
                    | None => false
                    end)
          (map Sql.bind_text (map tx_transactionId (map tx_of_row rows)))
  = existsb (fun c => String.eqb id (m_transaction_id c)) rows.
Proof. induction rows as [|r rows IH]; simpl; [reflexivity | now rewrite IH]. Qed.

Lemma Permutation_filter {A : Type} (p : A -> bool) (l l' : list A) :
  Permutation l l' -> Permutation (filter p l) (filter p l').
Proof.
  induction 1 as [|x l l' _ IH|x y l|l l' l'' _ IH1 _ IH2]; simpl.
  - constructor.
  - destruct (p x); [now constructor | exact IH].
  - destruct (p x), (p y); try apply Permutation_refl. apply perm_swap.
  - eapply Permutation_trans; eassumption.
Qed.

Lemma NoDup_app_disjoint {A : Type} (l l' : list A) (x : A) :
  NoDup (l ++ l') -> In x l -> ~ In x l'.
Proof.
  induction l as [|a l IH]; simpl; intros H Hin; [destruct Hin|].
  inversion H as [|y ys Hnin Hnd]; subst.
  destruct Hin as [->|Hin]; [|now apply IH].
  intros Hx. apply Hnin. apply in_app_iff. now right.
Qed.

(** Deleting the ids of the chosen rows leaves the rows not chosen. *)
Lemma delete_chosen (n : node) (d : database) :
  mempool_transactions d = mempool_transactions (db n) ->
  NoDup (map m_transaction_id (mempool_transactions (db n))) ->
  Permutation
    (mempool_transactions
       (Sql.delete_mempool d (map tx_transactionId (map tx_of_row (chosen_rows n)))))
    (left_rows n).
Proof.
  intros Hd Hnd. unfold Sql.delete_mempool. simpl. rewrite Hd.
  set (p := fun r : mempool_row => negb (existsb _ _)).
  eapply Permutation_trans.
  - apply Permutation_filter, Permutation_sym, chosen_left_perm.
  - rewrite filter_app.
    pose proof (chosen_left_unique n Hnd) as Hu.
    rewrite (filter_none p (chosen_rows n)), (filter_all p (left_rows n)).
    + apply Permutation_refl.
    + apply Forall_forall. intros r Hr. unfold p. rewrite existsb_bound_ids.
      apply negb_true_iff. destruct (existsb _ _) eqn:E; [|reflexivity].
      apply existsb_exists in E. destruct E as [c [Hc E]]. apply String.eqb_eq in E.
      exfalso. apply (NoDup_app_disjoint _ _ (m_transaction_id c) Hu).
      * now apply in_map.
      * rewrite <- E. now apply in_map.
    + apply Forall_forall. intros r Hr. unfold p. rewrite existsb_bound_ids.
      apply negb_false_iff. apply existsb_exists. exists r. split; [exact Hr|].
      apply String.eqb_refl.
Qed.

Lemma addBlock_pending (p : node) (i : Z) (now prev root h : string)
    (rows : list mempool_row) :
  (forall r, In r (bchain (db p)) -> bc_blockIndex r < i) ->
  addBlockToBlockchain p (block_of_pending i now prev root h rows)
  = match insert_confirmed_all
            (mkDb (bchain (db p)
                   ++ [row_of_pending (bchain_seq (db p) + 1) i now prev root h rows])
                  (bchain_seq (db p) + 1)
                  (mempool_transactions (db p)) (confirmed_transactions (db p)))
            (bchain_seq (db p) + 1) (map tx_of_row rows) with
    | Throw e => (p, Throw e)
    | Ok d2 => (with_db p d2, Ok tt)
    end.
Proof.
  intros Habove. unfold addBlockToBlockchain, block_of_pending.
  cbn [blk_transactions blk_blockIndex blk_timestamp
       blk_nonce blk_hash blk_previousBlockHash blk_merkleRoot].
  rewrite insert_pending_block by exact Habove.
  destruct (insert_confirmed_all _ _ _); [reflexivity|].
  now rewrite with_db_same.
Qed.

Lemma above_last (n : node) (r : bchain_row) :
  In r (bchain (db n)) -> bc_blockIndex r < lastIndex n + 1.
Proof. intros H. pose proof (lastIndex_bound n r H). lia. Qed.

(** The block [buildBlock] makes, in full. *)
Lemma buildBlock_pending (n : node) (now : string) :
  exists root h,
    calculateMerkleRoot (map tx_of_row (chosen_rows n)) = Ok (JStr root) /\
    buildBlock n now
    = Ok (block_of_pending (lastIndex n + 1) now (lastHash n) root h (chosen_rows n)) /\
    calculateBlockHash
      (block_of_pending (lastIndex n + 1) now (lastHash n) root h (chosen_rows n))
      (map tx_of_row (chosen_rows n)) = Ok h.
Proof. exact (buildBlock_ok n now). Qed.

Lemma heads_pending (id i : Z) (now prev root h : string) (rows : list mempool_row) :
  heads (block_of_pending i now prev root h rows)
        (row_of_pending id i now prev root h rows).
Proof.
  unfold heads, block_of_pending, row_of_pending; simpl. repeat split; try reflexivity.
  intros txs E. now inversion E.
Qed.

Lemma distinct_NoDup (l : list string) : distinct l = true -> NoDup l.
Proof.
  induction l as [|x l IH]; simpl; intros H; [constructor|].
  apply andb_true_iff in H. destruct H as [H1 H2].
  constructor; [|now apply IH].
  intros Hin. apply negb_true_iff in H1.
  assert (E : existsb (String.eqb x) l = true)
    by (apply existsb_exists; exists x; split; [exact Hin | apply String.eqb_refl]).
  congruence.
Qed.

Lemma replayed_by_search (ids : list string) (rows : list mempool_row) :
  existsb (fun r => existsb (String.eqb (m_transaction_id r)) ids) rows = true ->
  replayed ids rows.
Proof.
  intros H. apply existsb_exists in H. destruct H as [r [Hr H]].
  exists r. split; [exact Hr|]. now apply existsb_eqb_in.
Qed.

(** A tick that commits: the node and the result of [mineBlockInternal]
    when five or more transactions are pending under distinct ids and none
    of the five oldest is confirmed. *)
Lemma mineBlockInternal_commits (n : node) (now : string) (post : string -> bool) :
  (BLOCK_SIZE <= getMempoolCount n)%nat ->
  NoDup (map m_transaction_id (mempool_transactions (db n))) ->
  (forall r, In r (chosen_rows n) ->
             ~ In (m_transaction_id r) (map c_transaction_id (confirmed_transactions (db n)))) ->
  exists root h,
    buildBlock n now
    = Ok (block_of_pending (lastIndex n + 1) now (lastHash n) root h (chosen_rows n)) /\
    fst (mineBlockInternal n now post)
    = committed n (lastIndex n + 1) now (lastHash n) root h (chosen_rows n) /\
    snd (mineBlockInternal n now post)
    = match broadcast post (networkNodes n) with
      | Ok _ => Ok (BlockMined (block_of_pending (lastIndex n + 1) now (lastHash n)
                                                 root h (chosen_rows n)))
      | Throw e => Throw e
      end /\
    bchain (db (committed n (lastIndex n + 1) now (lastHash n) root h (chosen_rows n)))
    = bchain (db n)
      ++ [row_of_pending (bchain_seq (db n) + 1) (lastIndex n + 1) now (lastHash n)
                         root h (chosen_rows n)] /\
    confirmed_transactions
      (db (committed n (lastIndex n + 1) now (lastHash n) root h (chosen_rows n)))
    = confirmed_transactions (db n)
      ++ map (confirmed_of_pending (bchain_seq (db n) + 1)) (chosen_rows n) /\
    Permutation
      (mempool_transactions
         (db (committed n (lastIndex n + 1) now (lastHash n) root h (chosen_rows n))))
      (left_rows n).
Proof.
  intros Hcount Hnd Hfresh.
  destruct (buildBlock_pending n now) as [root [h [Hroot [Hb Hh]]]].
  pose proof (chosen_rows_length n Hcount) as Hlen.
  exists root, h.
  set (b := block_of_pending (lastIndex n + 1) now (lastHash n) root h (chosen_rows n)) in *.
  set (n1 := committed n (lastIndex n + 1) now (lastHash n) root h (chosen_rows n)).
  assert (Hn1 : fst (mineBlockInternal n now post) = n1 /\
                snd (mineBlockInternal n now post)
                = match broadcast post (networkNodes n) with
                  | Ok _ => Ok (BlockMined b)
                  | Throw e => Throw e
                  end).
  { unfold mineBlockInternal.
    replace (getMempoolCount n <? BLOCK_SIZE)%nat with false
      by (symmetry; apply Nat.ltb_ge; exact Hcount).
    rewrite Hb. unfold b. rewrite addBlock_pending by apply above_last.
    rewrite insert_confirmed_rows_ok; [|now apply chosen_unique | exact Hfresh].
    cbn [mempool_transactions confirmed_transactions bchain bchain_seq].
    rewrite getTransactionsForBlock_chosen.
    fold (committed n (lastIndex n + 1) now (lastHash n) root h (chosen_rows n)). fold n1.
    assert (E : networkNodes n1 = networkNodes n).
    { unfold n1, committed, removeTransactionsFromMempool.
      destruct (map tx_transactionId _); reflexivity. }
    rewrite E. destruct (broadcast post (networkNodes n)); split; reflexivity. }
  destruct Hn1 as [Hn1 Hres].
  split; [exact Hb|]. split; [exact Hn1|]. split; [exact Hres|].
  assert (Hids : map tx_transactionId (map tx_of_row (chosen_rows n)) <> []).
  { destruct (chosen_rows n); [simpl in Hlen; unfold BLOCK_SIZE in Hlen; lia|discriminate]. }
  unfold n1, committed, removeTransactionsFromMempool.
  destruct (map tx_transactionId (map tx_of_row (chosen_rows n))) as [|i ids] eqn:Ei;
    [congruence|].
  rewrite <- Ei. simpl. repeat split.
  now apply delete_chosen.
Qed.

(** C4: a tick of the producer.  With fewer than five pending transactions
    [mineBlockInternal] answers with the notice and leaves the node as it
    is.  Otherwise the block it builds holds five transactions, the rows of
    the mempool of least timestamp, in ascending timestamp order; its
    [blockIndex] is the last block's plus one and its [previousBlockHash] is
    the last block's [hash]; a block that [mineBlockInternal] returns is
    that block; and, the pending ids being distinct and none of the five
    confirmed already, the block is produced: its row is appended to the
    chain, the five rows leave the mempool, and it is the block returned
    when every peer answers. *)
Theorem mining_takes_five_oldest (n : node) (now : string) (post : string -> bool) :
  ((getMempoolCount n < BLOCK_SIZE)%nat ->
     mineBlockInternal n now post = (n, Ok (NotMiningYet (getMempoolCount n))) /\
     fst (post_mine n now post) = n /\
     status (snd (post_mine n now post)) = 200) /\
  ((BLOCK_SIZE <= getMempoolCount n)%nat ->
     exists newBlock,
       buildBlock n now = Ok newBlock /\
       blk_transactions newBlock = Some (map tx_of_row (chosen_rows n)) /\
       List.length (chosen_rows n) = 5%nat /\
       Permutation (chosen_rows n ++ left_rows n) (mempool_transactions (db n)) /\
       StronglySorted ts_le (chosen_rows n) /\
       (forall c r, In c (chosen_rows n) -> In r (left_rows n) -> ts_le c r) /\
       (forall last, getLastBlock n = Some last ->
                     blk_blockIndex newBlock = Some (bc_blockIndex last + 1) /\
                     blk_previousBlockHash newBlock = JStr (bc_hash last)) /\
       (forall n' b, mineBlockInternal n now post = (n', Ok (BlockMined b)) ->
                     b = newBlock) /\
       (NoDup (map m_transaction_id (mempool_transactions (db n))) ->
        (forall r, In r (chosen_rows n) ->
                   ~ In (m_transaction_id r)
                        (map c_transaction_id (confirmed_transactions (db n)))) ->
        exists row,
          heads newBlock row /\
          bchain (db (fst (mineBlockInternal n now post))) = bchain (db n) ++ [row] /\
          Permutation (mempool_transactions (db (fst (mineBlockInternal n now post))))
                      (left_rows n) /\
          miningTick n now post = fst (mineBlockInternal n now post) /\
          (forallb post (networkNodes n) = true ->
           snd (mineBlockInternal n now post) = Ok (BlockMined newBlock)))).
Proof.
  split.
  - intros Hlt. apply Nat.ltb_lt in Hlt.
    unfold post_mine, mineBlockInternal. rewrite Hlt. simpl. auto.
  - intros Hge.
    destruct (buildBlock_ok n now) as [root [h [_ [Eb _]]]].
    eexists. split; [exact Eb|]. simpl.
    pose proof (order_by_timestamp_sorted (mempool_transactions (db n))) as Hs.
    destruct (sorted_firstn BLOCK_SIZE _ Hs) as [Hsorted Hle].
    repeat match goal with |- _ /\ _ => split end.
    + reflexivity.
    + unfold chosen_rows. rewrite length_firstn.
      rewrite (Permutation_length (order_by_timestamp_perm _)).
      unfold getMempoolCount, BLOCK_SIZE in *. lia.
    + unfold chosen_rows, left_rows. rewrite firstn_skipn.
      apply order_by_timestamp_perm.
    + exact Hsorted.
    + exact Hle.
    + intros last H. split.
      * unfold lastIndex. now rewrite H.
      * unfold lastHash. now rewrite H.
    + intros n' b Hm. unfold mineBlockInternal in Hm.
      apply Nat.ltb_ge in Hge. rewrite Hge, Eb in Hm.
      destruct (addBlockToBlockchain n _) as [n1 [u|e]]; [|discriminate Hm].
      destruct (broadcast post _); [|discriminate Hm].
      now inversion Hm.
    + intros Hnd Hfresh.
      destruct (mineBlockInternal_commits n now post Hge Hnd Hfresh)
        as [root' [h' [Eb' [Hfst [Hsnd [Hchain [_ Hleft]]]]]]].
      cbv zeta in Eb. rewrite Eb in Eb'. inversion Eb'; subst root' h'.
      eexists. split; [apply heads_pending|].
      rewrite Hfst. split; [exact Hchain|]. split; [exact Hleft|]. split.
      * unfold miningTick. rewrite Hfst.
        replace (MINE_THRESHOLD <=? getMempoolCount n)%nat with true; [reflexivity|].
        symmetry. apply Nat.leb_le. exact Hge.
      * intros Hall. rewrite Hsnd, (broadcast_all _ _ Hall). reflexivity.
Qed.

(** C4, an instance: the tick of the authority with five readings pending. *)
Lemma mining_takes_five_oldest_witness :
  exists newBlock row,
    buildBlock authority_pending "2024-01-01T00:01:00.000Z" = Ok newBlock /\
    blk_transactions newBlock = Some (map tx_of_row (chosen_rows authority_pending)) /\
    List.length (chosen_rows authority_pending) = 5%nat /\
    blk_blockIndex newBlock = Some 1 /\
    blk_previousBlockHash newBlock = JStr genesis_hash /\
    heads newBlock row /\
    bchain (db authority_mined) = bchain (db authority_pending) ++ [row] /\
    Permutation (mempool_transactions (db authority_mined)) (left_rows authority_pending).
Proof.
  assert (Hge : (BLOCK_SIZE <= getMempoolCount authority_pending)%nat)
    by (apply Nat.leb_le; vm_compute; reflexivity).
  destruct (proj2 (mining_takes_five_oldest authority_pending
                     "2024-01-01T00:01:00.000Z" all_peers_answer) Hge)
    as [newBlock [Hb [Ht [Hlen [_ [_ [_ [Hlast [_ Hcommit]]]]]]]]].
  assert (Hg : getLastBlock authority_pending = Some genesis_row)
    by (vm_compute; reflexivity).
  destruct (Hlast genesis_row Hg) as [Hix Hp].
  assert (Hnd : NoDup (map m_transaction_id (mempool_transactions (db authority_pending))))
    by (apply distinct_NoDup; vm_compute; reflexivity).
  assert (Hfresh : forall r, In r (chosen_rows authority_pending) ->
                     ~ In (m_transaction_id r)
                          (map c_transaction_id
                               (confirmed_transactions (db authority_pending)))).
  { assert (E : confirmed_transactions (db authority_pending) = [])
      by (vm_compute; reflexivity).
    rewrite E. intros r _ []. }
  destruct (Hcommit Hnd Hfresh) as [row [Hrow [Hchain [Hleft _]]]].
  exists newBlock, row. unfold authority_mined.
  repeat match goal with |- _ /\ _ => split end; assumption.
Defined.

(** X10: a tick that commits.  When five or more transactions are pending
    under distinct ids and none of the five oldest is confirmed already,
    [mineBlockInternal] appends the block it built to the chain, appends
    one confirmed row per chosen transaction, carrying the id of the new
    block row and the columns of the pending row (in the order in which
    their INSERTs complete), and leaves in the mempool the rows it did not
    choose; the answers of the peers decide on the result it returns, not
    on the node. *)
Theorem mining_commits_the_five_oldest (n : node) (now : string) (post : string -> bool) :
  (BLOCK_SIZE <= getMempoolCount n)%nat ->
  NoDup (map m_transaction_id (mempool_transactions (db n))) ->
  (forall r, In r (chosen_rows n) ->
             ~ In (m_transaction_id r) (map c_transaction_id (confirmed_transactions (db n)))) ->
  exists b row n1 rows,
    buildBlock n now = Ok b /\ heads b row /\
    bc_id row = bchain_seq (db n) + 1 /\
    fst (mineBlockInternal n now post) = n1 /\
    bchain (db n1) = bchain (db n) ++ [row] /\
    confirmed_transactions (db n1) = confirmed_transactions (db n) ++ rows /\
    Permutation rows (map (confirmed_of_pending (bc_id row)) (chosen_rows n)) /\
    Permutation (mempool_transactions (db n1)) (left_rows n) /\
    (forallb post (networkNodes n) = true ->
     snd (mineBlockInternal n now post) = Ok (BlockMined b)) /\
    (forallb post (networkNodes n) = false ->
     exists url, snd (mineBlockInternal n now post) = Throw (RequestFailed url)).
Proof.
  intros Hcount Hnd Hfresh.
  destruct (mineBlockInternal_commits n now post Hcount Hnd Hfresh)
    as [root [h [Hb [Hfst [Hsnd [Hchain [Hconf Hleft]]]]]]].
  exists (block_of_pending (lastIndex n + 1) now (lastHash n) root h (chosen_rows n)),
         (row_of_pending (bchain_seq (db n) + 1) (lastIndex n + 1) now (lastHash n)
                         root h (chosen_rows n)),
         (committed n (lastIndex n + 1) now (lastHash n) root h (chosen_rows n)),
         (map (confirmed_of_pending (bchain_seq (db n) + 1)) (chosen_rows n)).
  split; [exact Hb|]. split; [apply heads_pending|]. split; [reflexivity|].
  split; [exact Hfst|]. split; [exact Hchain|]. split; [exact Hconf|].
  split; [apply Permutation_refl|]. split; [exact Hleft|]. split.
  - intros Ep. now rewrite Hsnd, (broadcast_all _ _ Ep).
  - intros Ep. destruct (broadcast_some_fails _ _ Ep) as [url Eu]. exists url.
    rewrite Hsnd, Eu. reflexivity.
Qed.

(** X10, an instance: the tick of the authority with five readings
    pending. *)
Lemma mining_commits_the_five_oldest_witness :
  exists b row n1 rows,
    buildBlock authority_pending "2024-01-01T00:01:00.000Z" = Ok b /\ heads b row /\
    bc_id row = bchain_seq (db authority_pending) + 1 /\
    fst (mineBlockInternal authority_pending "2024-01-01T00:01:00.000Z" all_peers_answer)
    = n1 /\
    bchain (db n1) = bchain (db authority_pending) ++ [row] /\
    confirmed_transactions (db n1)
    = confirmed_transactions (db authority_pending) ++ rows /\
    Permutation rows
      (map (confirmed_of_pending (bc_id row)) (chosen_rows authority_pending)) /\
    Permutation (mempool_transactions (db n1)) (left_rows authority_pending) /\
    (forallb all_peers_answer (networkNodes authority_pending) = true ->
     snd (mineBlockInternal authority_pending "2024-01-01T00:01:00.000Z" all_peers_answer)
     = Ok (BlockMined b)) /\
    (forallb all_peers_answer (networkNodes authority_pending) = false ->
     exists url,
       snd (mineBlockInternal authority_pending "2024-01-01T00:01:00.000Z"
              all_peers_answer) = Throw (RequestFailed url)).
Proof.
  apply (mining_commits_the_five_oldest authority_pending "2024-01-01T00:01:00.000Z"
           all_peers_answer).
  - vm_compute. repeat constructor.
  - apply distinct_NoDup. vm_compute. reflexivity.
  - assert (E : confirmed_transactions (db authority_pending) = [])
      by (vm_compute; reflexivity).
    rewrite E. intros r _ [].
Defined.

(** X11: a confirmed id in the mempool stops the producer.  When one of the
    five oldest pending transactions carries the id of a confirmed
    transaction, the commit of the block fails on the UNIQUE constraint of
    the confirmed table and is rolled back: [mineBlockInternal] throws and
    the tick leaves the node, the five oldest rows included, as it was. *)
Theorem confirmed_id_among_the_oldest_stops_mining
    (n : node) (now : string) (post : string -> bool) :
  (BLOCK_SIZE <= getMempoolCount n)%nat ->
  replayed (map c_transaction_id (confirmed_transactions (db n))) (chosen_rows n) ->
  mineBlockInternal n now post
  = (n, Throw (SqliteError (UniqueFailed "confirmed_transactions.transaction_id"))) /\
  miningTick n now post = n /\
  post_mine n now post = (n, mkReply 500 "Failed to mine block." NoPayload).
Proof.
  intros Hcount Hrep.
  destruct (buildBlock_pending n now) as [root [h [Hroot [Hb Hh]]]].
  assert (E : mineBlockInternal n now post
              = (n, Throw (SqliteError (UniqueFailed "confirmed_transactions.transaction_id")))).
  { unfold mineBlockInternal.
    replace (getMempoolCount n <? BLOCK_SIZE)%nat with false
      by (symmetry; apply Nat.ltb_ge; exact Hcount).
    rewrite Hb, addBlock_pending by apply above_last.
    rewrite insert_confirmed_rows_blocked; [reflexivity|].
    exact Hrep. }
  split; [exact E|]. split.
  - unfold miningTick. rewrite E. now destruct (_ <=? _)%nat.
  - unfold post_mine. now rewrite E.
Qed.

(** X11, an instance: after its first block the authority is sent a
    reading under the id of a confirmed one, and four new readings. *)
Lemma confirmed_id_among_the_oldest_stops_mining_witness :
  mineBlockInternal authority_replayed "2024-01-01T00:03:00.000Z" all_peers_answer
  = (authority_replayed,
     Throw (SqliteError (UniqueFailed "confirmed_transactions.transaction_id"))) /\
  miningTick authority_replayed "2024-01-01T00:03:00.000Z" all_peers_answer
  = authority_replayed /\
  post_mine authority_replayed "2024-01-01T00:03:00.000Z" all_peers_answer
  = (authority_replayed, mkReply 500 "Failed to mine block." NoPayload).
Proof.
  apply (confirmed_id_among_the_oldest_stops_mining authority_replayed
           "2024-01-01T00:03:00.000Z" all_peers_answer).
  - vm_compute. repeat constructor.
  - apply replayed_by_search. vm_compute. reflexivity.
Defined.

(* ================================================================== *)
(** ** Blocks and transactions at the peers *)
(* ================================================================== *)

(** X12: the block the authority builds is accepted by a peer in step.  Let
    the authority hold five or more pending transactions under distinct
    ids.  A peer whose last block has the index and the hash of the
    authority's last block, and that has confirmed none of the chosen ids,
    answers the block that [buildBlock] makes with the acceptance: the
    block passes the five checks, its row is appended to the peer's chain
    and one confirmed row per transaction, with the columns of the
    authority's pending rows, is appended to the peer's confirmed table
    (in the order in which their INSERTs complete). *)
Theorem built_block_is_accepted_by_a_peer_in_step
    (a p : node) (now : string) (b : block) :
  (BLOCK_SIZE <= getMempoolCount a)%nat ->
  buildBlock a now = Ok b ->
  now <> "" -> lastHash a <> "" ->
  lastIndex p = lastIndex a -> lastHash p = lastHash a ->
  NoDup (map m_transaction_id (mempool_transactions (db a))) ->
  (forall r, In r (chosen_rows a) ->
             ~ In (m_transaction_id r) (map c_transaction_id (confirmed_transactions (db p)))) ->
  exists row p1 rows,
    receiveBlock p b = (p1, accepted_reply) /\
    heads b row /\
    bchain (db p1) = bchain (db p) ++ [row] /\
    confirmed_transactions (db p1) = confirmed_transactions (db p) ++ rows /\
    Permutation rows (map (confirmed_of_pending (bc_id row)) (chosen_rows a)).
Proof.
  intros Hcount Hb Hnow Hlast Hidx Hhash Hnd Hfresh.
  destruct (buildBlock_pending a now) as [root [h [Hroot [Hb' Hh]]]].
  rewrite Hb' in Hb. inversion Hb; subst b; clear Hb.
  set (rows := chosen_rows a) in *.
  set (b := block_of_pending (lastIndex a + 1) now (lastHash a) root h rows) in *.
  pose proof (chosen_rows_length a Hcount) as Hlen. fold rows in Hlen.
  assert (Hrootd : truthy (JStr root) = true).
  { destruct (merkle_root_is_digest (map tx_of_row rows) (JStr root)) as [E|D].
    - rewrite length_map, Hlen. unfold BLOCK_SIZE. lia.
    - exact Hroot.
    - discriminate.
    - now apply digest_truthy. }
  assert (Hhd : truthy (JStr h) = true).
  { unfold calculateBlockHash in Hh. apply sha256_update_ok in Hh.
    destruct Hh as [s [_ ->]]. apply truthy_str, sha256_nonempty. }
  assert (Hc : complete b = true).
  { unfold complete, b, block_of_pending.
    cbn [blk_blockIndex blk_transactions blk_timestamp blk_merkleRoot
         blk_previousBlockHash blk_hash].
    rewrite Hrootd, Hhd.
    rewrite (proj2 (truthy_str now) Hnow), (proj2 (truthy_str (lastHash a)) Hlast).
    reflexivity. }
  assert (Habove : forall r, In r (bchain (db p)) -> bc_blockIndex r < lastIndex a + 1).
  { intros r Hr. rewrite <- Hidx. now apply above_last. }
  exists (row_of_pending (bchain_seq (db p) + 1) (lastIndex a + 1) now (lastHash a)
                          root h rows).
  exists (committed p (lastIndex a + 1) now (lastHash a) root h rows).
  exists (map (confirmed_of_pending (bchain_seq (db p) + 1)) rows).
  split; [|split; [apply heads_pending|]].
  - rewrite (receiveBlock_complete p b (lastIndex a + 1) (map tx_of_row rows) Hc
               eq_refl eq_refl).
    rewrite Hidx, Hhash.
    replace (lastIndex a + 1 <=? lastIndex a) with false by (symmetry; apply Z.leb_gt; lia).
    rewrite Z.eqb_refl. cbn [negb].
    unfold b at 1. cbn [blk_previousBlockHash block_of_pending].
    rewrite strict_eq_refl_str. cbn [negb].
    rewrite Hh. unfold b at 1. cbn [blk_hash block_of_pending].
    rewrite strict_eq_refl_str. cbn [negb].
    rewrite Hroot. unfold b at 1. cbn [blk_merkleRoot block_of_pending].
    rewrite strict_eq_refl_str. cbn [negb].
    unfold b. rewrite addBlock_pending by exact Habove.
    rewrite insert_confirmed_rows_ok; [reflexivity | now apply chosen_unique | exact Hfresh].
  - unfold committed, removeTransactionsFromMempool.
    destruct (map tx_transactionId (map tx_of_row rows)); simpl;
      (split; [reflexivity|]; split; [reflexivity | apply Permutation_refl]).
Qed.

(** X12, an instance: the first block of the authority at a project
    node that has copied the genesis block. *)
Lemma built_block_is_accepted_by_a_peer_in_step_witness :
  exists row p1 rows,
    receiveBlock joiner_in_step first_block = (p1, accepted_reply) /\
    heads first_block row /\
    bchain (db p1) = bchain (db joiner_in_step) ++ [row] /\
    confirmed_transactions (db p1) = confirmed_transactions (db joiner_in_step) ++ rows /\
    Permutation rows
      (map (confirmed_of_pending (bc_id row)) (chosen_rows authority_pending)).
Proof.
  apply (built_block_is_accepted_by_a_peer_in_step authority_pending joiner_in_step
           "2024-01-01T00:01:00.000Z" first_block).
  - vm_compute. repeat constructor.
  - vm_compute. reflexivity.
  - discriminate.
  - assert (E : lastHash authority_pending = genesis_hash) by (vm_compute; reflexivity).
    rewrite E. apply sha256_nonempty.
  - vm_compute. reflexivity.
  - vm_compute. reflexivity.
  - apply distinct_NoDup. vm_compute. reflexivity.
  - assert (E : confirmed_transactions (db joiner_in_step) = [])
      by (vm_compute; reflexivity).
    rewrite E. intros r _ [].
Defined.

(** *** A created transaction at a peer *)

Lemma json_roundtrip_truthy (v : jsval) : truthy v = true -> json_roundtrip v = v.
Proof. destruct v; simpl; try reflexivity. discriminate. Qed.

Lemma raw_payload_json_nonempty (t : transaction) : raw_payload_json t <> "".
Proof. unfold raw_payload_json, json_object. simpl. discriminate. Qed.

(** X13: a transaction created by a local submission is admitted by the
    peers.  When [createTransaction] stores a payload that carries no
    [rowHash] and returns the transaction, a peer that receives this
    transaction answers 201 and stores the very row the origin stored,
    unless its mempool holds the id, in which case it answers 409 and
    keeps its mempool. *)
Theorem created_transaction_is_admitted_by_a_peer
    (a a1 p : node) (uuid now uuid' now' : string) (t tx : transaction) :
  createTransaction a uuid now t = (a1, Ok tx) ->
  truthy (tx_rowHash t) = false ->
  strip_dashes uuid <> "" -> now <> "" ->
  exists row,
    mempool_transactions (db a1) = mempool_transactions (db a) ++ [row] /\
    (~ In (m_transaction_id row) (map m_transaction_id (mempool_transactions (db p))) ->
     receiveTransaction p uuid' now' (on_the_wire tx)
     = (with_db p (mkDb (bchain (db p)) (bchain_seq (db p))
                        (mempool_transactions (db p) ++ [row])
                        (confirmed_transactions (db p))),
        tx_accepted_reply (on_the_wire tx))) /\
    (In (m_transaction_id row) (map m_transaction_id (mempool_transactions (db p))) ->
     receiveTransaction p uuid' now' (on_the_wire tx) = (p, tx_duplicate_reply)).
Proof.
  intros H Hrh Huuid Hnow.
  unfold createTransaction in H.
  destruct (strict_eq (theProj a) JUndefined && strict_eq (tx_projId t) JUndefined);
    [discriminate|].
  unfold finalRowHash in H. rewrite Hrh in H.
  set (fid := finalTransactionId uuid t) in *.
  set (fts := finalTimestamp now t) in *.
  set (raw := rawDataForHash t) in *.
  destruct (sha256_update (js_add (js_add fid fts) raw)) as [h|] eqn:Eh;
    cbn [bind] in H; [|discriminate].
  destruct (Sql.insert_mempool _ _ _ _ _ _ _ _ _ _ _ _) as [d|] eqn:Ei; [|discriminate].
  inversion H; subst a1 tx; clear H.
  assert (Tid : truthy fid = true)
    by (apply js_or_truthy, truthy_str; exact Huuid).
  assert (Tts : truthy fts = true)
    by (apply js_or_truthy, truthy_str; exact Hnow).
  assert (Traw : truthy raw = true)
    by (apply js_or_truthy, truthy_str, raw_payload_json_nonempty).
  assert (Th : truthy (JStr h) = true).
  { apply sha256_update_ok in Eh. destruct Eh as [s [_ ->]].
    apply truthy_str, sha256_nonempty. }
  unfold Sql.insert_mempool in Ei. unfold finalProjId in Ei.
  set (pj := ToString (if strict_eq (tx_projId t) JUndefined then theProj a
                       else tx_projId t)) in *.
  cbn [Sql.bind_text] in Ei.
  insert_ok Ei. cbn [Sql.not_null bind] in Ei. insert_ok Ei.
  inversion Ei; subst d; clear Ei.
  eexists. split; [reflexivity|].
  assert (Hrecv : receiveTransaction p uuid' now'
                    (on_the_wire (mkTx fid fts (JStr h) (finalProjId a t) raw
                                       (tx_submitterId t) (tx_stationID t)
                                       (tx_SO2 t) (tx_NO2 t) (tx_PM10 t) (tx_PM2_5 t)))
                  = match createTransaction p uuid' now'
                            (on_the_wire (mkTx fid fts (JStr h) (finalProjId a t) raw
                                       (tx_submitterId t) (tx_stationID t)
                                       (tx_SO2 t) (tx_NO2 t) (tx_PM10 t) (tx_PM2_5 t))) with
                    | (n', Ok _) =>
                        (n', tx_accepted_reply
                               (on_the_wire (mkTx fid fts (JStr h) (finalProjId a t) raw
                                       (tx_submitterId t) (tx_stationID t)
                                       (tx_SO2 t) (tx_NO2 t) (tx_PM10 t) (tx_PM2_5 t))))
                    | (n', Throw e) =>
                        if is_duplicate_id e then (n', tx_duplicate_reply)
                        else (n', tx_failed_reply)
                    end).
  { unfold receiveTransaction, on_the_wire.
    cbn [tx_transactionId tx_timestamp tx_rowHash tx_rawDataJson tx_projId].
    rewrite (json_roundtrip_truthy _ Tid), (json_roundtrip_truthy _ Tts),
            (json_roundtrip_truthy _ Traw).
    rewrite Tid, Tts, Traw. unfold finalProjId. cbn [json_roundtrip strict_eq truthy].
    rewrite Eh.
    replace (negb (String.eqb h "")) with true by (symmetry; exact Th).
    rewrite String.eqb_refl. cbn [negb orb].
    reflexivity. }
  assert (Hcreate : createTransaction p uuid' now'
                      (on_the_wire (mkTx fid fts (JStr h) (finalProjId a t) raw
                                       (tx_submitterId t) (tx_stationID t)
                                       (tx_SO2 t) (tx_NO2 t) (tx_PM10 t) (tx_PM2_5 t)))
                    = match Sql.insert_mempool (db p) (JStr pj) fid fts
                              (json_roundtrip (tx_submitterId t))
                              (json_roundtrip (tx_stationID t))
                              (tx_SO2 t) (tx_NO2 t) (tx_PM10 t) (tx_PM2_5 t)
                              raw (JStr h) with
                      | Throw e => (p, Throw e)
                      | Ok d =>
                          (with_db p d,
                           Ok (mkTx fid fts (JStr h) (JStr pj) raw
                                    (json_roundtrip (tx_submitterId t))
                                    (json_roundtrip (tx_stationID t))
                                    (tx_SO2 t) (tx_NO2 t) (tx_PM10 t) (tx_PM2_5 t)))
                      end).
  { rewrite (createTransaction_complete p uuid' now');
      unfold on_the_wire;
      cbn [tx_transactionId tx_timestamp tx_rowHash tx_rawDataJson tx_projId
           tx_submitterId tx_stationID tx_SO2 tx_NO2 tx_PM10 tx_PM2_5];
      rewrite ?(json_roundtrip_truthy _ Tid), ?(json_roundtrip_truthy _ Tts),
              ?(json_roundtrip_truthy _ Traw); try assumption; try reflexivity. }
  rewrite Hrecv, Hcreate. clear Hrecv Hcreate.
  unfold Sql.insert_mempool. cbn [Sql.bind_text].
  rewrite !bind_text_roundtrip. rewrite E, E0, E1, E2. cbn [Sql.not_null bind].
  split.
  - intros Hfresh.
    destruct (existsb _ (mempool_transactions (db p))) eqn:Ex.
    + apply existsb_id_in in Ex. contradiction.
    + cbn [Sql.unique bind]. reflexivity.
  - intros Hin. apply existsb_id_in in Hin. simpl in Hin. rewrite Hin.
    cbn [Sql.unique bind is_duplicate_id]. reflexivity.
Qed.

(** X13, an instance: the first reading of the authority at a project
    node. *)
Lemma created_transaction_is_admitted_by_a_peer_witness :
  exists row,
    mempool_transactions (db (fst first_reading_stored))
    = mempool_transactions (db authority_started) ++ [row] /\
    (~ In (m_transaction_id row) (map m_transaction_id (mempool_transactions (db joiner))) ->
     receiveTransaction joiner "u" "2024-01-01T00:00:02.000Z"
       (on_the_wire (snd first_reading_stored))
     = (with_db joiner (mkDb (bchain (db joiner)) (bchain_seq (db joiner))
                             (mempool_transactions (db joiner) ++ [row])
                             (confirmed_transactions (db joiner))),
        tx_accepted_reply (on_the_wire (snd first_reading_stored)))) /\
    (In (m_transaction_id row) (map m_transaction_id (mempool_transactions (db joiner))) ->
     receiveTransaction joiner "u" "2024-01-01T00:00:02.000Z"
       (on_the_wire (snd first_reading_stored))
     = (joiner, tx_duplicate_reply)).
Proof.
  apply (created_transaction_is_admitted_by_a_peer authority_started
           (fst first_reading_stored) joiner
           "7d3c1a52-0000-4000-8000-000000000001" "2024-01-01T00:00:01.000Z"
           "u" "2024-01-01T00:00:02.000Z" (reading "1") (snd first_reading_stored)).
  - vm_compute. reflexivity.
  - reflexivity.
  - vm_compute. discriminate.
  - discriminate.
Defined.

(** *** What the digests cover *)

Lemma string_append_assoc (a b c : string) : (a +++ b) +++ c = a +++ (b +++ c).
Proof. induction a as [|x a IH]; simpl; [reflexivity | now rewrite IH]. Qed.

Lemma string_append_nonempty (a b : string) : a <> "" -> a +++ b <> "".
Proof. destruct a; simpl; [congruence | discriminate]. Qed.

(** What an accepted transaction went through. *)
Lemma receiveTransaction_accepted (n : node) (uuid now : string) (t : transaction) :
  snd (receiveTransaction n uuid now t) = tx_accepted_reply t ->
  truthy (tx_transactionId t) = true /\ truthy (tx_timestamp t) = true /\
  truthy (tx_rawDataJson t) = true /\ truthy (tx_rowHash t) = true /\
  strict_eq (tx_projId t) JUndefined = false.
Proof.
  unfold receiveTransaction.
  destruct (truthy (tx_transactionId t)); [|simpl; discriminate].
  destruct (truthy (tx_timestamp t)); [|simpl; discriminate].
  destruct (truthy (tx_rowHash t)); [|simpl; discriminate].
  destruct (truthy (tx_rawDataJson t)); [|simpl; discriminate].
  destruct (strict_eq (tx_projId t) JUndefined); [simpl; discriminate|].
  auto.
Qed.

(** X14: the row hash does not fix where [transactionId] ends.  The digest
    is taken of the concatenation [transactionId + timestamp + rawDataJson]
    without separators.  So when [POST /receive] accepts a transaction, it
    also accepts, with the same [rowHash], the transaction that differs
    from it in that leading characters of [timestamp] have moved to the end
    of [transactionId], provided some [timestamp] is left and the longer id
    is not pending: it is stored under that id and that timestamp. *)
Theorem row_hash_does_not_fix_the_field_boundary
    (n : node) (uuid now : string) (t : transaction) (id p ts : string) :
  tx_transactionId t = JStr id -> tx_timestamp t = JStr (p +++ ts) -> ts <> "" ->
  snd (receiveTransaction n uuid now t) = tx_accepted_reply t ->
  ~ In (id +++ p) (map m_transaction_id (mempool_transactions (db n))) ->
  exists row,
    receiveTransaction n uuid now (with_id_and_timestamp t (id +++ p) ts)
    = (with_db n (mkDb (bchain (db n)) (bchain_seq (db n))
                       (mempool_transactions (db n) ++ [row])
                       (confirmed_transactions (db n))),
       tx_accepted_reply (with_id_and_timestamp t (id +++ p) ts)) /\
    m_transaction_id row = id +++ p /\ m_timestamp row = ts /\
    Sql.bind_text (tx_rowHash t) = Some (m_rowHash row).
Proof.
  intros Hid Hts Hne Hacc Hfresh.
  destruct (receiveTransaction_accepted n uuid now t Hacc) as [Tid [Tts [Traw [Trh Tpj]]]].
  rewrite (receiveTransaction_complete n uuid now t Tid Tts Traw Trh Tpj) in Hacc.
  rewrite Hid, Hts in Hacc.
  assert (Tid' : truthy (JStr (id +++ p)) = true).
  { apply truthy_str, string_append_nonempty. apply truthy_str. now rewrite <- Hid. }
  assert (Tts' : truthy (JStr ts) = true) by now apply truthy_str.
  rewrite (receiveTransaction_complete n uuid now (with_id_and_timestamp t (id +++ p) ts)
             Tid' Tts' Traw Trh Tpj).
  unfold with_id_and_timestamp at 1 2 3 4 5 6 7 8 9 10 11 12 13 14 15.
  cbn [tx_transactionId tx_timestamp tx_rowHash tx_projId tx_rawDataJson
       tx_submitterId tx_stationID tx_SO2 tx_NO2 tx_PM10 tx_PM2_5].
  cbn [js_add ToString] in *.
  rewrite !string_append_assoc in *.
  destruct (sha256_update _) as [h|]; [|discriminate].
  destruct (negb (strict_eq (JStr h) (tx_rowHash t))); [discriminate|].
  unfold Sql.insert_mempool in *. cbn [Sql.bind_text Sql.not_null bind] in *.
  destruct (Sql.bind_text (tx_submitterId t)) as [sb|]; cbn [Sql.not_null bind] in *;
    [|discriminate].
  destruct (Sql.bind_text (tx_rawDataJson t)) as [raw|]; cbn [Sql.not_null bind] in *;
    [|discriminate].
  destruct (Sql.bind_text (tx_rowHash t)) as [rh|]; cbn [Sql.not_null bind] in *;
    [|discriminate].
  destruct (existsb _ (mempool_transactions (db n))) eqn:Ex in |- *.
  { apply existsb_id_in in Ex. contradiction. }
  cbn [Sql.unique bind]. eexists. split; [reflexivity|]. simpl. auto.
Qed.

(** X14, an instance: the year of the timestamp moved into the id. *)
Lemma row_hash_does_not_fix_the_field_boundary_witness :
  exists row,
    receiveTransaction joiner "u" "2024-01-01T00:00:02.000Z"
      (with_id_and_timestamp peer_transaction_complete ("t1" +++ "2024")
                             "-01-01T00:00:01.000Z")
    = (with_db joiner (mkDb (bchain (db joiner)) (bchain_seq (db joiner))
                            (mempool_transactions (db joiner) ++ [row])
                            (confirmed_transactions (db joiner))),
       tx_accepted_reply
         (with_id_and_timestamp peer_transaction_complete ("t1" +++ "2024")
                                "-01-01T00:00:01.000Z")) /\
    m_transaction_id row = "t1" +++ "2024" /\
    m_timestamp row = "-01-01T00:00:01.000Z" /\
    Sql.bind_text (tx_rowHash peer_transaction_complete) = Some (m_rowHash row).
Proof.
  apply (row_hash_does_not_fix_the_field_boundary joiner "u" "2024-01-01T00:00:02.000Z"
           peer_transaction_complete "t1" "2024" "-01-01T00:00:01.000Z").
  - reflexivity.
  - reflexivity.
  - discriminate.
  - vm_compute. reflexivity.
  - intros [].
Defined.

(** When [POST /receive] accepts a transaction, it accepts it with any
    other [stationID] and measurements, and binds those. *)
Lemma receiveTransaction_remeasured
    (n n1 : node) (uuid now : string) (t : transaction)
    (stationID : jsval) (SO2 NO2 PM10 PM2_5 : option Z) :
  receiveTransaction n uuid now t = (n1, tx_accepted_reply t) ->
  exists row,
    mempool_transactions (db n1) = mempool_transactions (db n) ++ [row] /\
    receiveTransaction n uuid now (remeasured t stationID SO2 NO2 PM10 PM2_5)
    = (with_db n (mkDb (bchain (db n)) (bchain_seq (db n))
                       (mempool_transactions (db n)
                        ++ [mkMempool (m_transaction_id row) (m_projId row)
                                      (m_timestamp row) (m_submitter_id row)
                                      (Sql.bind_text stationID) SO2 NO2 PM10 PM2_5
                                      (m_raw_data_json row) (m_rowHash row)])
                       (confirmed_transactions (db n))),
       tx_accepted_reply (remeasured t stationID SO2 NO2 PM10 PM2_5)).
Proof.
  intros H.
  assert (Hacc : snd (receiveTransaction n uuid now t) = tx_accepted_reply t)
    by now rewrite H.
  destruct (receiveTransaction_accepted n uuid now t Hacc) as [Tid [Tts [Traw [Trh Tpj]]]].
  rewrite (receiveTransaction_complete n uuid now t Tid Tts Traw Trh Tpj) in H.
  rewrite (receiveTransaction_complete n uuid now
             (remeasured t stationID SO2 NO2 PM10 PM2_5) Tid Tts Traw Trh Tpj).
  unfold remeasured at 1 2 3 4 5 6 7 8 9 10 11 12 13 14 15.
  cbn [tx_transactionId tx_timestamp tx_rowHash tx_projId tx_rawDataJson
       tx_submitterId tx_stationID tx_SO2 tx_NO2 tx_PM10 tx_PM2_5].
  destruct (sha256_update _) as [h|]; [|discriminate].
  destruct (negb (strict_eq (JStr h) (tx_rowHash t))); [discriminate|].
  unfold Sql.insert_mempool in *. cbn [Sql.bind_text Sql.not_null bind] in *.
  destruct (Sql.bind_text (tx_transactionId t)) as [id|]; cbn [Sql.not_null bind] in *;
    [|discriminate].
  destruct (Sql.bind_text (tx_timestamp t)) as [ts|]; cbn [Sql.not_null bind] in *;
    [|discriminate].
  destruct (Sql.bind_text (tx_submitterId t)) as [sb|]; cbn [Sql.not_null bind] in *;
    [|discriminate].
  destruct (Sql.bind_text (tx_rawDataJson t)) as [raw|]; cbn [Sql.not_null bind] in *;
    [|discriminate].
  destruct (Sql.bind_text (tx_rowHash t)) as [rh|]; cbn [Sql.not_null bind] in *;
    [|discriminate].
  destruct (existsb _ (mempool_transactions (db n))); cbn [Sql.unique bind] in *;
    [cbn [is_duplicate_id] in H; discriminate|].
  inversion H; subst n1; clear H.
  eexists. split; reflexivity.
Qed.

(** X15: the checks of a received transaction do not cover its measurements.
    The row hash is the digest of [transactionId], [timestamp] and
    [rawDataJson]; [stationID] and the four measurements go to their
    columns as they come.  So when [POST /receive] accepts a transaction,
    it accepts it with any other station (a string, or none) and any
    other measurements as well, and stores those. *)
Theorem reception_does_not_check_the_measurements
    (n n1 : node) (uuid now : string) (t : transaction)
    (station : option string) (SO2 NO2 PM10 PM2_5 : option Z) :
  receiveTransaction n uuid now t = (n1, tx_accepted_reply t) ->
  exists row,
    mempool_transactions (db n1) = mempool_transactions (db n) ++ [row] /\
    receiveTransaction n uuid now
      (remeasured t (optional_text station) SO2 NO2 PM10 PM2_5)
    = (with_db n (mkDb (bchain (db n)) (bchain_seq (db n))
                       (mempool_transactions (db n)
                        ++ [mkMempool (m_transaction_id row) (m_projId row)
                                      (m_timestamp row) (m_submitter_id row)
                                      station SO2 NO2 PM10 PM2_5
                                      (m_raw_data_json row) (m_rowHash row)])
                       (confirmed_transactions (db n))),
       tx_accepted_reply (remeasured t (optional_text station) SO2 NO2 PM10 PM2_5)).
Proof.
  intros H.
  destruct (receiveTransaction_remeasured n n1 uuid now t (optional_text station)
              SO2 NO2 PM10 PM2_5 H) as [row [Hrow E]].
  exists row. split; [exact Hrow|].
  now rewrite (bind_text_optional _ station eq_refl) in E.
Qed.

(** X15, an instance: a relayed transaction with another station and
    other measurements. *)
Lemma reception_does_not_check_the_measurements_witness :
  exists row,
    mempool_transactions
      (db (fst (receiveTransaction joiner "u" "2024-01-01T00:00:02.000Z"
                  peer_transaction_complete)))
    = mempool_transactions (db joiner) ++ [row] /\
    receiveTransaction joiner "u" "2024-01-01T00:00:02.000Z"
      (remeasured peer_transaction_complete (optional_text (Some "station-0"))
                  (Some 0) (Some 0) None (Some 999))
    = (with_db joiner
         (mkDb (bchain (db joiner)) (bchain_seq (db joiner))
               (mempool_transactions (db joiner)
                ++ [mkMempool (m_transaction_id row) (m_projId row)
                              (m_timestamp row) (m_submitter_id row)
                              (Some "station-0")
                              (Some 0) (Some 0) None (Some 999)
                              (m_raw_data_json row) (m_rowHash row)])
               (confirmed_transactions (db joiner))),
       tx_accepted_reply
         (remeasured peer_transaction_complete (optional_text (Some "station-0"))
                     (Some 0) (Some 0) None (Some 999))).
Proof.
  apply (reception_does_not_check_the_measurements joiner
           (fst (receiveTransaction joiner "u" "2024-01-01T00:00:02.000Z"
                   peer_transaction_complete))
           "u" "2024-01-01T00:00:02.000Z" peer_transaction_complete
           (Some "station-0") (Some 0) (Some 0) None (Some 999)).
  vm_compute. reflexivity.
Defined.

Lemma same_identity_light (txs txs' : list transaction) :
  Forall2 same_identity txs txs' ->
  lightweightTransactions txs' = lightweightTransactions txs /\
  transactionsForBlockHash txs' = transactionsForBlockHash txs /\
  map tx_rowHash txs' = map tx_rowHash txs /\
  map tx_transactionId txs' = map tx_transactionId txs.
Proof.
  intros H.
  assert (E : forall (A : Type) (f : transaction -> A),
             (forall t st a b c d, f (remeasured t st a b c d) = f t) ->
             map f txs' = map f txs).
  { intros A f Hf. induction H as [|t t' l l' [st [a [b [c [d ->]]]]] _ IH];
      [reflexivity|]. simpl. now rewrite Hf, IH. }
  unfold lightweightTransactions, transactionsForBlockHash.
  repeat split; try (f_equal; apply E; reflexivity); apply E; reflexivity.
Qed.

Lemma insert_confirmed_records (d d' : database) (block_id : Z) (tx : transaction) :
  Sql.insert_confirmed d block_id tx = Ok d' ->
  exists row, records block_id tx row /\
    ~ In (c_transaction_id row) (map c_transaction_id (confirmed_transactions d)) /\
    d' = mkDb (bchain d) (bchain_seq d) (mempool_transactions d)
              (confirmed_transactions d ++ [row]).
Proof.
  unfold Sql.insert_confirmed. intros H. insert_ok H.
  inversion H; subst; clear H.
  eexists; split; [|split; [|reflexivity]].
  - unfold records, confirms; simpl. repeat split; assumption.
  - simpl. intros Hin. apply existsb_confirmed_in in Hin. congruence.
Qed.

(** The INSERT of a confirmed row succeeds or fails whatever the station
    and the measurements of the transaction are. *)
Lemma insert_confirmed_same_identity (d d1 d' : database) (block_id : Z)
    (t t' : transaction) :
  same_identity t t' ->
  Sql.insert_confirmed d block_id t = Ok d1 ->
  map c_transaction_id (confirmed_transactions d')
  = map c_transaction_id (confirmed_transactions d) ->
  exists row',
    records block_id t' row' /\
    Sql.insert_confirmed d' block_id t'
    = Ok (mkDb (bchain d') (bchain_seq d') (mempool_transactions d')
               (confirmed_transactions d' ++ [row'])) /\
    map c_transaction_id (confirmed_transactions d' ++ [row'])
    = map c_transaction_id (confirmed_transactions d1).
Proof.
  intros [st [a [b [c [e ->]]]]] H Hids.
  unfold Sql.insert_confirmed in *. unfold remeasured.
  cbn [tx_transactionId tx_timestamp tx_rowHash tx_projId tx_rawDataJson
       tx_submitterId tx_stationID tx_SO2 tx_NO2 tx_PM10 tx_PM2_5].
  insert_ok H. inversion H; subst d1; clear H.
  cbn [bind].
  assert (Hu : existsb (fun r => String.eqb (c_transaction_id r) a0)
                       (confirmed_transactions d') = false).
  { destruct (existsb _ (confirmed_transactions d')) eqn:Ex; [|reflexivity].
    apply existsb_confirmed_in in Ex. rewrite Hids in Ex.
    apply existsb_confirmed_in in Ex. congruence. }
  rewrite Hu. cbn [Sql.unique bind].
  eexists. split; [|split; [reflexivity|]].
  - unfold records, confirms; simpl. repeat split; assumption.
  - simpl. rewrite !map_app, Hids. reflexivity.
Qed.

Lemma insert_confirmed_all_same_identity (txs : list transaction) :
  forall (txs' : list transaction) (d d2 d' : database) (block_id : Z),
    Forall2 same_identity txs txs' ->
    insert_confirmed_all d block_id txs = Ok d2 ->
    map c_transaction_id (confirmed_transactions d')
    = map c_transaction_id (confirmed_transactions d) ->
    exists rows',
      Forall2 (records block_id) txs' rows' /\
      insert_confirmed_all d' block_id txs'
      = Ok (mkDb (bchain d') (bchain_seq d') (mempool_transactions d')
                 (confirmed_transactions d' ++ rows')).
Proof.
  induction txs as [|t txs IH]; intros txs' d d2 d' block_id Hs H Hids;
    inversion Hs as [|x y xs ys Hxy Hrest]; subst.
  - exists []. split; [constructor|]. simpl. rewrite app_nil_r. now destruct d'.
  - simpl in H.
    destruct (Sql.insert_confirmed d block_id t) as [d1|] eqn:E; simpl in H; [|discriminate].
    destruct (insert_confirmed_same_identity d d1 d' block_id t y Hxy E Hids)
      as [row' [Hrec [E' Hids']]].
    destruct (IH ys d1 d2
                (mkDb (bchain d') (bchain_seq d') (mempool_transactions d')
                      (confirmed_transactions d' ++ [row']))
                block_id Hrest H Hids') as [rows' [Hrecs E2]].
    exists (row' :: rows'). split; [now constructor|].
    simpl. rewrite E'. simpl bind. rewrite E2. simpl.
    now rewrite <- app_assoc.
Qed.

Lemma remeasures_same_identity (t t' : transaction) : remeasures t t' -> same_identity t t'.
Proof. intros [st [a [b [c [d ->]]]]]. unfold same_identity. eauto 6. Qed.

Lemma remeasured_rows (block_id : Z) (txs txs' : list transaction) :
  Forall2 remeasures txs txs' ->
  forall rows rows',
    Forall2 (confirms block_id) txs rows ->
    Forall2 (records block_id) txs' rows' ->
    Forall2 same_but_measured rows rows' /\ Forall2 measured txs' rows'.
Proof.
  induction 1 as [|t t' l l' [st [a [b [c [d ->]]]]] _ IH]; intros rows rows' Hc Hr.
  - inversion Hc; inversion Hr; subst. split; constructor.
  - inversion Hc as [|? row ? rs Hrow Hrs]; inversion Hr as [|? row' ? rs' Hrow' Hrs'];
      subst.
    destruct (IH rs rs' Hrs Hrs') as [IH1 IH2].
    destruct Hrow as [C1 [C2 [C3 [C4 [C5 [C6 C7]]]]]].
    destruct Hrow' as [[D1 [D2 [D3 [D4 [D5 [D6 D7]]]]]] [Hst [M1 [M2 [M3 M4]]]]].
    unfold remeasured in *.
    cbn [tx_transactionId tx_timestamp tx_rowHash tx_projId tx_rawDataJson
         tx_submitterId tx_stationID tx_SO2 tx_NO2 tx_PM10 tx_PM2_5] in *.
    split; constructor; try assumption.
    + unfold same_but_measured. repeat split; congruence.
    + unfold measured.
      cbn [tx_stationID tx_SO2 tx_NO2 tx_PM10 tx_PM2_5].
      repeat split; try assumption.
      intros station Hs. rewrite Hst. now apply bind_text_optional.
Qed.

(** When [POST /receive] accepts a block, it accepts the block with any
    other stations and measurements in its transactions, and binds
    those. *)
Lemma receiveBlock_remeasured
    (n n1 : node) (b : block) (txs txs' : list transaction) :
  receiveBlock n b = (n1, accepted_reply) ->
  blk_transactions b = Some txs ->
  Forall2 same_identity txs txs' ->
  exists n1' rows',
    receiveBlock n (with_transactions b txs') = (n1', accepted_reply) /\
    bchain (db n1') = bchain (db n1) /\
    mempool_transactions (db n1') = mempool_transactions (db n1) /\
    confirmed_transactions (db n1') = confirmed_transactions (db n) ++ rows' /\
    Forall2 (records (bchain_seq (db n) + 1)) txs' rows'.
Proof.
  intros H Htx Hs.
  destruct (same_identity_light txs txs' Hs) as [Hl [Hj [Hh Hi]]].
  destruct (receiveBlock_accepted n n1 b H)
    as [txs0 [h [row [rows [Hc [Hix [Htx0 [Hp [Hh0 [Hhh [Hm _]]]]]]]]]]].
  assert (txs0 = txs) by congruence. subst txs0.
  assert (Hc' : complete (with_transactions b txs') = true).
  { unfold complete, with_transactions in *. simpl. rewrite Hix, Htx in Hc.
    now rewrite Hix. }
  rewrite (receiveBlock_complete n b _ txs Hc Hix Htx) in H.
  rewrite (receiveBlock_complete n (with_transactions b txs') _ txs' Hc' Hix eq_refl).
  assert (Hh' : calculateBlockHash (with_transactions b txs') txs' = Ok h).
  { rewrite <- Hh0. unfold calculateBlockHash, blockHashInput, with_transactions. simpl.
    now rewrite Hj. }
  assert (Hm' : calculateMerkleRoot txs' = Ok (blk_merkleRoot b)).
  { rewrite <- Hm. now apply calculateMerkleRoot_ext. }
  rewrite Hh', Hm'. rewrite Hh0, Hm in H.
  cbn [blk_previousBlockHash blk_hash blk_merkleRoot with_transactions].
  destruct (lastIndex n + 1 <=? lastIndex n); [discriminate|].
  destruct (negb (lastIndex n + 1 =? lastIndex n + 1)); [discriminate|].
  destruct (negb (strict_eq (blk_previousBlockHash b) (JStr (lastHash n)))); [discriminate|].
  destruct (negb (strict_eq (JStr h) (blk_hash b))); [discriminate|].
  destruct (negb (strict_eq (blk_merkleRoot b) (blk_merkleRoot b))); [discriminate|].
  unfold addBlockToBlockchain in *.
  cbn [blk_transactions blk_blockIndex blk_timestamp blk_nonce blk_hash
       blk_previousBlockHash blk_merkleRoot with_transactions].
  rewrite Htx in H. rewrite Hl.
  destruct (Sql.insert_bchain _ _ _ _ _ _ _ _) as [[d1 id]|e] eqn:E1; [|discriminate].
  destruct (insert_confirmed_all d1 id txs) as [d2|e] eqn:E2; [|discriminate].
  destruct (insert_bchain_ok _ _ _ _ _ Htx E1) as [brow [_ [_ [Hseq [_ Hd1]]]]].
  destruct (insert_confirmed_all_same_identity txs txs' d1 d2 d1 id Hs E2 eq_refl)
    as [rows' [Hrecs E2']].
  rewrite E2'. rewrite Hi.
  inversion H; subst n1; clear H.
  apply insert_confirmed_all_ok in E2. destruct E2 as [rows0 [_ ->]].
  eexists. exists rows'. split; [reflexivity|].
  subst d1 id. unfold removeTransactionsFromMempool.
  destruct (map tx_transactionId txs); simpl; repeat split; assumption.
Qed.

(** X16: the checks of a received block do not cover the measurements of
    its transactions.  The block hash and the merkle root are digests of
    the header and of the [transactionId] and [rowHash] of each
    transaction.  So when [POST /receive] accepts a block, it accepts the
    block with any other stations (strings, or none) and any other
    measurements in its transactions as well: the same block row is
    written, the same ids leave the mempool, and the confirmed rows are,
    transaction for transaction, those of the first block but for the
    stations and the measurements, which are the ones received (the rows
    of a commit being given up to the order in which their INSERTs
    complete). *)
Theorem block_checks_do_not_cover_the_measurements
    (n n1 : node) (b : block) (txs txs' : list transaction) :
  receiveBlock n b = (n1, accepted_reply) ->
  blk_transactions b = Some txs ->
  Forall2 remeasures txs txs' ->
  exists n1' rows rows' arranged arranged',
    receiveBlock n (with_transactions b txs') = (n1', accepted_reply) /\
    bchain (db n1') = bchain (db n1) /\
    mempool_transactions (db n1') = mempool_transactions (db n1) /\
    confirmed_transactions (db n1) = confirmed_transactions (db n) ++ rows /\
    confirmed_transactions (db n1') = confirmed_transactions (db n) ++ rows' /\
    Permutation arranged rows /\ Permutation arranged' rows' /\
    Forall2 same_but_measured arranged arranged' /\
    Forall2 measured txs' arranged'.
Proof.
  intros H Htx Hs.
  assert (Hs' : Forall2 same_identity txs txs').
  { clear H Htx. induction Hs; constructor; [now apply remeasures_same_identity|assumption]. }
  destruct (receiveBlock_remeasured n n1 b txs txs' H Htx Hs')
    as [n1' [rows' [E [Hchain [Hmem [Hconf Hrecs]]]]]].
  destruct (receiveBlock_accepted n n1 b H)
    as [txs0 [h [row [rows [_ [_ [Htx0 [_ [_ [_ [_ [_ [Hid [Hrows Hn1]]]]]]]]]]]]]].
  assert (txs0 = txs) by congruence. subst txs0.
  rewrite Hid in Hrows.
  destruct (remeasured_rows _ txs txs' Hs rows rows' Hrows Hrecs) as [Hsame Hmeas].
  exists n1', rows, rows', rows, rows'.
  repeat match goal with |- _ /\ _ => split end;
    try assumption; try apply Permutation_refl.
  subst n1. unfold removeTransactionsFromMempool.
  destruct (map tx_transactionId txs); reflexivity.
Qed.

Lemma remeasures_map (txs : list transaction) :
  Forall2 remeasures txs (map zeroed txs).
Proof.
  induction txs as [|t txs IH]; simpl; constructor; [|exact IH].
  exists (Some "station-0"), (Some 0), (Some 0), (Some 0), (Some 0). reflexivity.
Qed.

(** X16, an instance: the first block of the authority with every
    measurement set to 0. *)
Lemma block_checks_do_not_cover_the_measurements_witness :
  exists n1' rows rows' arranged arranged',
    receiveBlock joiner_in_step
      (with_transactions first_block
         (map zeroed (map tx_of_row (chosen_rows authority_pending))))
    = (n1', accepted_reply) /\
    bchain (db n1') = bchain (db (fst (receiveBlock joiner_in_step first_block))) /\
    mempool_transactions (db n1')
    = mempool_transactions (db (fst (receiveBlock joiner_in_step first_block))) /\
    confirmed_transactions (db (fst (receiveBlock joiner_in_step first_block)))
    = confirmed_transactions (db joiner_in_step) ++ rows /\
    confirmed_transactions (db n1') = confirmed_transactions (db joiner_in_step) ++ rows' /\
    Permutation arranged rows /\ Permutation arranged' rows' /\
    Forall2 same_but_measured arranged arranged' /\
    Forall2 measured (map zeroed (map tx_of_row (chosen_rows authority_pending)))
            arranged'.
Proof.
  apply (block_checks_do_not_cover_the_measurements joiner_in_step
           (fst (receiveBlock joiner_in_step first_block)) first_block
           (map tx_of_row (chosen_rows authority_pending))
           (map zeroed (map tx_of_row (chosen_rows authority_pending)))).
  - vm_compute. reflexivity.
  - vm_compute. reflexivity.
  - apply remeasures_map.
Defined.

(** *** Refused requests *)

(** X17: a request that the reception routes and the registration routes
    refuse changes nothing.  Whenever [POST /receive] answers a block with
    another status than 200, or a transaction with another status than 201,
    the node is what it was before the request, the failed commits (status
    500) included; and so it is after a registration answered 400. *)
Theorem refused_requests_change_nothing (n : node) :
  (forall b, status (snd (receiveBlock n b)) <> 200 -> fst (receiveBlock n b) = n) /\
  (forall uuid now t,
     status (snd (receiveTransaction n uuid now t)) <> 201 ->
     fst (receiveTransaction n uuid now t) = n) /\
  (forall u, dr_status (snd (register_node n u)) <> 200 -> fst (register_node n u) = n) /\
  (forall l, dr_status (snd (register_nodes_bulk n l)) <> 200 ->
             fst (register_nodes_bulk n l) = n) /\
  (forall u answered,
     dr_status (snd (fst (register_and_broadcast_node n u answered))) = 400 ->
     fst (fst (register_and_broadcast_node n u answered)) = n).
Proof.
  split; [|split; [|split; [|split]]].
  - intros b. unfold receiveBlock.
    destruct (blk_blockIndex b) as [i|]; [|reflexivity].
    destruct (blk_transactions b) as [txs|] eqn:Htx; [|reflexivity].
    destruct (_ || _); [reflexivity|].
    destruct (i <=? lastIndex n); [reflexivity|].
    destruct (negb (i =? _)); [reflexivity|].
    destruct (negb (strict_eq _ _)); [reflexivity|].
    destruct (calculateBlockHash b txs); [|reflexivity].
    destruct (negb (strict_eq _ _)); [reflexivity|].
    destruct (calculateMerkleRoot txs); [|reflexivity].
    destruct (negb (strict_eq _ _)); [reflexivity|].
    destruct (addBlock_cases n b) as [[e E]|[txs' [row [rows [_ [_ [_ [_ [_ E]]]]]]]]];
      rewrite E; simpl; [reflexivity|]. intros H. now contradiction H.
  - intros uuid now t. unfold receiveTransaction.
    destruct (_ || _); [reflexivity|].
    destruct (sha256_update _); [|reflexivity].
    destruct (negb _); [reflexivity|].
    destruct (createTransaction_cases n uuid now t) as [[e E]|[row [tx [_ E]]]];
      rewrite E; simpl.
    + destruct (is_duplicate_id e); reflexivity.
    + intros H. now contradiction H.
  - intros u. unfold register_node. destruct u as [url|]; [|reflexivity].
    destruct (negb _); [reflexivity|]. simpl. intros H. now contradiction H.
  - intros l. unfold register_nodes_bulk. destruct l as [l|]; [|reflexivity].
    simpl. intros H. now contradiction H.
  - intros u answered. unfold register_and_broadcast_node.
    destruct u as [url|]; [|reflexivity].
    destruct (negb _); [reflexivity|].
    destruct (answered _); simpl; discriminate.
Qed.

(** X17, an instance: an unlinked block, a transaction without id and
    two registrations without addresses. *)
Lemma refused_requests_change_nothing_witness :
  fst (receiveBlock genesis_node unlinked_block) = genesis_node /\
  fst (receiveTransaction joiner "u" "2024-01-01T00:00:02.000Z" (reading "1")) = joiner /\
  fst (register_node genesis_node None) = genesis_node /\
  fst (register_nodes_bulk genesis_node None) = genesis_node.
Proof.
  destruct (refused_requests_change_nothing genesis_node) as [Hb [_ [Hr [Hl _]]]].
  destruct (refused_requests_change_nothing joiner) as [_ [Ht _]].
  split; [|split; [|split]].
  - apply Hb. vm_compute. discriminate.
  - apply Ht. vm_compute. discriminate.
  - apply Hr. vm_compute. discriminate.
  - apply Hl. vm_compute. discriminate.
Defined.

(* ================================================================== *)
(** ** The start of a node and the chain it copies *)
(* ================================================================== *)

Lemma getLastBlock_nonempty (n : node) :
  bchain (db n) <> [] -> exists m, getLastBlock n = Some m.
Proof.
  intros H. pose proof (getLastBlock_spec n) as Hs.
  destruct (getLastBlock n) as [m|]; [eauto | contradiction].
Qed.

(** X18: the start of a node.  On a database file that holds a chain,
    [startServer] changes nothing: the genesis block is not written again
    and the chain of the authority is not fetched, however far behind the
    node is.  On an empty chain the node whose id prints as ['0'] writes
    the genesis block and does not synchronize; any other node writes
    nothing itself and runs the synchronization loop on the chain it
    fetched, if it fetched one. *)
Theorem start_of_a_node (n : node) (now : string) (fetched : result (option (list block))) :
  (bchain (db n) <> [] -> startServer n now fetched = Ok n) /\
  (bchain (db n) = [] -> ToString (theProj n) = "0" ->
   startServer n now fetched
   = Ok (with_db n (mkDb [mkBchain (bchain_seq (db n) + 1) 0 now [] 0 genesis_hash "0"
                                   genesis_merkleRoot]
                         (bchain_seq (db n) + 1)
                         (mempool_transactions (db n)) (confirmed_transactions (db n))))) /\
  (bchain (db n) = [] -> ToString (theProj n) <> "0" ->
   startServer n now fetched
   = Ok (match fetched with
         | Ok (Some fullChain) => fst (applyChain n fullChain)
         | _ => n
         end)).
Proof.
  unfold startServer, initDb. split; [|split].
  - intros Hne. destruct (bchain (db n)) as [|r rs] eqn:E; [congruence|].
    simpl. unfold synchronize.
    destruct (getLastBlock_nonempty n) as [m ->]; [rewrite E; discriminate | reflexivity].
  - intros He Hp. rewrite He, Hp. simpl.
    unfold Sql.insert_bchain. rewrite He. simpl.
    unfold synchronize, getLastBlock. simpl. reflexivity.
  - intros He Hp. rewrite He. simpl.
    apply String.eqb_neq in Hp. rewrite Hp. simpl.
    unfold synchronize, getLastBlock. rewrite He. simpl. rewrite Hp. reflexivity.
Qed.

(** X18, an instance: the authority started again after its first block,
    the authority started on an empty file, and a project node started on
    an empty file. *)
Lemma start_of_a_node_witness :
  startServer authority_mined "2024-02-01T00:00:00.000Z" (Ok None) = Ok authority_mined /\
  startServer authority_fresh "2024-01-01T00:00:00.000Z" (Ok None) = Ok authority_started /\
  startServer joiner "2024-02-01T00:00:00.000Z" (Ok (Some (get_chain authority_mined)))
  = Ok (fst (applyChain joiner (get_chain authority_mined))).
Proof.
  split; [|split].
  - destruct (start_of_a_node authority_mined "2024-02-01T00:00:00.000Z" (Ok None))
      as [H _].
    apply H. vm_compute. discriminate.
  - destruct (start_of_a_node authority_fresh "2024-01-01T00:00:00.000Z" (Ok None))
      as [_ [H _]].
    rewrite H; reflexivity.
  - destruct (start_of_a_node joiner "2024-02-01T00:00:00.000Z"
                (Ok (Some (get_chain authority_mined)))) as [_ [_ H]].
    apply H; [reflexivity | discriminate].
Defined.

Lemma tip_of_linked (rows : list bchain_row) :
  forall i prev,
    tip i prev rows
    = (i + Z.of_nat (List.length rows),
       match rev rows with r :: _ => bc_hash r | [] => prev end).
Proof.
  induction rows as [|r rows IH]; intros i prev; simpl.
  - f_equal. lia.
  - rewrite IH. f_equal; [lia|].
    destruct (rev rows) as [|x xs] eqn:E; simpl; reflexivity.
Qed.

Lemma linked_indices (rows : list bchain_row) :
  forall i prev, linked_from i prev rows ->
    map bc_blockIndex rows
    = map (fun k => i + Z.of_nat k) (seq 0 (List.length rows)).
Proof.
  induction rows as [|r rows IH]; intros i prev H; [reflexivity|].
  destruct H as [Hi [_ Hrest]]. simpl. f_equal; [lia|].
  rewrite (IH _ _ Hrest). rewrite <- seq_shift, map_map.
  apply map_ext. intros k. lia.
Qed.

(** X19: the chain as the other nodes see it.  When the stored chain is
    linked, [GET /chain] sends the blocks in the order they were stored,
    the k-th block (from 0) carries [blockIndex] k, and the index and the
    hash [getLastBlock] gives to the producer and to the validator are
    those of the block stored last. *)
Theorem linked_chain_is_listed_in_order (n : node) :
  linked (bchain (db n)) ->
  get_chain n = map block_of_row (bchain (db n)) /\
  map blk_blockIndex (get_chain n)
  = map (fun k => Some (Z.of_nat k)) (seq 0 (List.length (bchain (db n)))) /\
  lastIndex n = Z.of_nat (List.length (bchain (db n))) - 1 /\
  lastHash n = hash_of_last (bchain (db n)).
Proof.
  intros H.
  assert (E : get_chain n = map block_of_row (bchain (db n))).
  { unfold get_chain, getAllBlocks. now rewrite (order_by_index_linked _ 0 "0" H). }
  split; [exact E|]. split; [|].
  - rewrite E, map_map. simpl.
    rewrite <- (map_map bc_blockIndex Some), (linked_indices _ 0 "0" H), map_map.
    reflexivity.
  - pose proof (linked_tip n H) as Ht. rewrite tip_of_linked in Ht.
    injection Ht as Hi Hh. split; [lia|]. unfold hash_of_last. now rewrite <- Hh.
Qed.

(** X19, an instance: the chain of the authority after its first block. *)
Lemma linked_chain_is_listed_in_order_witness :
  get_chain authority_mined = map block_of_row (bchain (db authority_mined)) /\
  map blk_blockIndex (get_chain authority_mined)
  = map (fun k => Some (Z.of_nat k)) (seq 0 (List.length (bchain (db authority_mined)))) /\
  lastIndex authority_mined = Z.of_nat (List.length (bchain (db authority_mined))) - 1 /\
  lastHash authority_mined = hash_of_last (bchain (db authority_mined)).
Proof.
  apply (linked_chain_is_listed_in_order authority_mined).
  vm_compute. repeat split.
Defined.

Lemma addBlock_without_transactions (n : node) (r : bchain_row) :
  bc_transactions r = [] ->
  (forall x, In x (bchain (db n)) -> bc_blockIndex x < bc_blockIndex r) ->
  addBlockToBlockchain n (block_of_row r)
  = (with_db n (mkDb (bchain (db n) ++ copies (bchain_seq (db n)) [r])
                     (bchain_seq (db n) + 1)
                     (mempool_transactions (db n)) (confirmed_transactions (db n))),
     Ok tt).
Proof.
  intros He Habove. unfold addBlockToBlockchain, block_of_row.
  cbn [blk_transactions blk_blockIndex blk_timestamp blk_nonce blk_hash
       blk_previousBlockHash blk_merkleRoot].
  rewrite He. cbn [map lightweightTransactions].
  unfold Sql.insert_bchain. cbn [Sql.bind_text Sql.not_null bind].
  destruct (existsb _ _) eqn:E.
  - apply existsb_exists in E. destruct E as [x [Hin E]]. apply Z.eqb_eq in E.
    pose proof (Habove x Hin). lia.
  - reflexivity.
Qed.

Lemma applyChain_copies (rows : list bchain_row) :
  forall n i prev,
    linked_from i prev rows ->
    (forall x, In x (bchain (db n)) -> bc_blockIndex x < i) ->
    db (fst (applyChain n (map block_of_row rows)))
    = mkDb (bchain (db n) ++ copies (bchain_seq (db n)) (leading_empty rows))
           (bchain_seq (db n) + Z.of_nat (List.length (leading_empty rows)))
           (mempool_transactions (db n)) (confirmed_transactions (db n)).
Proof.
  induction rows as [|r rows IH]; intros n i prev Hl Habove.
  - simpl. rewrite app_nil_r, Z.add_0_r. now destruct (db n).
  - destruct Hl as [Hi [_ Hrest]].
    cbn [map applyChain leading_empty].
    destruct (bc_transactions r) as [|l ls] eqn:He.
    + rewrite addBlock_without_transactions; [|exact He|intros x Hx; rewrite Hi; auto].
      cbn [blk_transactions block_of_row]. rewrite He.
      cbn [map removeTransactionsFromMempool].
      rewrite (IH _ (i + 1) (bc_hash r) Hrest).
      * cbn [db with_db bchain bchain_seq mempool_transactions confirmed_transactions
             copies List.length].
        rewrite <- app_assoc. f_equal. lia.
      * cbn [db with_db bchain]. intros x Hx. apply in_app_iff in Hx.
        destruct Hx as [Hx|[<-|[]]]; [specialize (Habove x Hx); lia|]. simpl. lia.
    + destruct (chain_block_with_transactions_is_refused n r) as [e E];
        [rewrite He; discriminate|].
      rewrite E. simpl. rewrite app_nil_r, Z.add_0_r. now destruct (db n).
Qed.

(** X20: what the initial synchronization copies.  A node that is not the
    authority and starts on an empty chain, given the linked chain that the
    authority sends, ends with the blocks at the head of that chain that
    hold no transaction, field for field, and stops at the first block that
    holds one; its mempool and its confirmed table are what they were. *)
Theorem synchronization_copies_the_leading_empty_blocks (n a : node) :
  bchain (db n) = [] -> ToString (theProj n) <> "0" -> linked (bchain (db a)) ->
  db (synchronize n (Ok (Some (get_chain a))))
  = mkDb (copies (bchain_seq (db n)) (leading_empty (bchain (db a))))
         (bchain_seq (db n) + Z.of_nat (List.length (leading_empty (bchain (db a)))))
         (mempool_transactions (db n)) (confirmed_transactions (db n)).
Proof.
  intros He Hp Hl. unfold synchronize, getLastBlock. rewrite He. simpl.
  apply String.eqb_neq in Hp. rewrite Hp.
  unfold get_chain, getAllBlocks. rewrite (order_by_index_linked _ 0 "0" Hl).
  rewrite (applyChain_copies _ n 0 "0" Hl).
  - now rewrite He.
  - rewrite He. intros x [].
Qed.

(** X20, an instance: a project node copies the chain of the authority
    after its first block. *)
Lemma synchronization_copies_the_leading_empty_blocks_witness :
  db (synchronize joiner (Ok (Some (get_chain authority_mined))))
  = mkDb (copies (bchain_seq (db joiner)) (leading_empty (bchain (db authority_mined))))
         (bchain_seq (db joiner)
          + Z.of_nat (List.length (leading_empty (bchain (db authority_mined)))))
         (mempool_transactions (db joiner)) (confirmed_transactions (db joiner)).
Proof.
  apply (synchronization_copies_the_leading_empty_blocks joiner authority_mined).
  - reflexivity.
  - discriminate.
  - vm_compute. repeat split.
Defined.

(* ================================================================== *)
(** ** The merkle root, again *)
(* ================================================================== *)

(** Fuel beyond the number of hashes does not change the outcome of the
    loop. *)
Lemma merkle_loop_fuel (f1 : nat) :
  forall f2 hashes,
    (List.length hashes <= f1)%nat -> (List.length hashes <= f2)%nat ->
    merkle_loop f1 hashes = merkle_loop f2 hashes.
Proof.
  induction f1 as [|f1 IH]; intros f2 hashes H1 H2.
  - destruct hashes; [|simpl in H1; lia]. destruct f2; reflexivity.
  - destruct f2 as [|f2].
    + destruct hashes; [reflexivity | simpl in H2; lia].
    + simpl. destruct (1 <? List.length hashes)%nat eqn:Hgt; [|reflexivity].
      apply Nat.ltb_lt in Hgt.
      destruct (pair_up (duplicate_last hashes)) as [nh|] eqn:E; simpl; [|reflexivity].
      pose proof (pair_up_shrinks hashes nh ltac:(lia) E).
      apply IH; lia.
Qed.

Lemma odd_even_S (k : nat) : Nat.odd k = true -> Nat.odd (S k) = false.
Proof.
  intros H. rewrite Nat.odd_succ. rewrite <- Nat.negb_odd, H. reflexivity.
Qed.

(** X21: the merkle root does not tell whether the last transaction is
    there once or twice.  For a list of three or more transactions of odd
    length, the list with its last transaction repeated has the same
    merkle root, whatever the leaves are. *)
Theorem merkle_root_of_repeated_last (txs : list transaction) (tx : transaction) :
  Nat.odd (List.length (txs ++ [tx])) = true ->
  (3 <= List.length (txs ++ [tx]))%nat ->
  calculateMerkleRoot ((txs ++ [tx]) ++ [tx]) = calculateMerkleRoot (txs ++ [tx]).
Proof.
  intros Hodd Hlen.
  set (l := txs ++ [tx]) in *.
  assert (Hl : map tx_rowHash l = map tx_rowHash txs ++ [tx_rowHash tx])
    by (unfold l; now rewrite map_app).
  unfold calculateMerkleRoot.
  destruct (l ++ [tx]) as [|x xs] eqn:El2; [destruct l; discriminate|]. rewrite <- El2.
  destruct l as [|y ys] eqn:El; [simpl in Hlen; lia|]. rewrite <- El in *.
  clear x xs El2 y ys El.
  rewrite length_app. simpl List.length.
  replace (List.length l + 1)%nat with (S (List.length l)) by lia.
  destruct (List.length l) as [|k] eqn:Ek; [lia|].
  cbn [merkle_loop]. rewrite !length_map, length_app, Ek. simpl List.length.
  replace (1 <? S k + 1)%nat with true by (symmetry; apply Nat.ltb_lt; lia).
  replace (1 <? S k)%nat with true by (symmetry; apply Nat.ltb_lt; lia).
  assert (Hd1 : duplicate_last (map tx_rowHash l)
                = map tx_rowHash l ++ [tx_rowHash tx]).
  { unfold duplicate_last. rewrite length_map, Ek, Hodd. f_equal.
    rewrite Hl. rewrite last_last. reflexivity. }
  assert (Hd2 : duplicate_last (map tx_rowHash (l ++ [tx]))
                = map tx_rowHash l ++ [tx_rowHash tx]).
  { unfold duplicate_last. rewrite length_map, length_app, Ek. simpl List.length.
    replace (S k + 1)%nat with (S (S k)) by lia.
    rewrite (odd_even_S (S k) Hodd). now rewrite map_app. }
  rewrite Hd1, Hd2.
  destruct (pair_up (map tx_rowHash l ++ [tx_rowHash tx])) as [nh|] eqn:E; simpl;
    [|reflexivity].
  f_equal.
  pose proof (pair_up_length _ _ E) as Hn.
  rewrite length_app, length_map, Ek in Hn. cbn [List.length] in Hn.
  replace (S (S k + 1)) with (S (S (S k))) in Hn by lia.
  assert (Hk : (List.length nh <= k)%nat).
  { pose proof (Nat.div2_odd (S (S (S k)))) as Ho.
    rewrite Nat.odd_succ_succ, Hodd in Ho. simpl Nat.b2n in Ho. lia. }
  change (merkle_loop (S k) nh = merkle_loop k nh).
  apply merkle_loop_fuel; lia.
Qed.

(** X21, an instance: three leaves and four. *)
Lemma merkle_root_of_repeated_last_witness :
  calculateMerkleRoot (([leaf "a"; leaf "b"] ++ [leaf "c"]) ++ [leaf "c"])
  = calculateMerkleRoot ([leaf "a"; leaf "b"] ++ [leaf "c"]).
Proof.
  apply (merkle_root_of_repeated_last [leaf "a"; leaf "b"] (leaf "c")).
  - reflexivity.
  - simpl. lia.
Defined.

